(** * Sovereign-Portfolio-AI: a shallow embedding of the backend and its checked properties

    The development follows the Python sources module by module:
    - [vector_store]   : backend/vector_store.py   (PortfolioVectorStore)
    - [data_processor] : backend/data_processor.py (PortfolioDataProcessor)
    - [ai_engine]      : backend/ai_engine.py      (_parse_recommendations)
    - [utils]          : frontend/utils.py         (calculate_portfolio_metrics)

    Modelling conventions.
    - Python numbers (int and float) are exact rationals [Qc]; rounding,
      NaN and infinities of IEEE floats are outside the model, except where a
      function produces [float('inf')] itself, which gets a constructor.
    - A Python dict with string keys is a [gmap string _]; a list is a [list].
    - A raised exception is a value [Raise e] of the [result] monad;
      [try ... except Exception] is a match on it.
    - Builtins of the Python runtime whose text-level behaviour is irrelevant
      to the checked properties ([float] on a str, [str], [format]) are the
      methods of the class [PyRuntime]. *)

From Stdlib Require Import QArith Qcanon Qround Ascii.
From stdpp Require Import base numbers option list sorting gmap strings pretty.

Set Warnings "-register-all,-clear-no-such-hyp".

Local Open Scope Qc_scope.

(** ** Exceptions and the result monad *)

Inductive exn :=
| ValueError (msg : string)
| TypeError
| KeyError (key : string)
| IndexError
| AttributeError
| ZeroDivisionError
| AssertionError
| FileNotFoundError.

Inductive result (A : Type) :=
| Ok (a : A)
| Raise (e : exn).
Arguments Ok {A} a.
Arguments Raise {A} e.

#[global] Instance result_ret : MRet result := λ A a, Ok a.
#[global] Instance result_bind : MBind result := λ A B f m,
  match m with Ok a => f a | Raise e => Raise e end.
#[global] Instance result_fmap : FMap result := λ A B f m,
  match m with Ok a => Ok (f a) | Raise e => Raise e end.

(** Did the computation return? *)
Definition succeeds {A} (r : result A) : bool :=
  match r with Ok _ => true | Raise _ => false end.

(** [mapM] for [result]: the first exception, left to right, wins. *)
Fixpoint traverse {A B} (f : A → result B) (l : list A) : result (list B) :=
  match l with
  | [] => Ok []
  | x :: l' => y ← f x; ys ← traverse f l'; Ok (y :: ys)
  end.

Lemma bind_Ok {A B} (f : A → result B) (m : result A) (b : B) :
  m ≫= f = Ok b → ∃ a, m = Ok a ∧ f a = Ok b.
Proof. destruct m as [a|e]; [eauto | discriminate]. Qed.

Lemma traverse_length {A B} (f : A → result B) l ys :
  traverse f l = Ok ys → length ys = length l.
Proof.
  revert ys. induction l as [|x l IH]; intros ys; simpl.
  - by intros [= <-].
  - intros (y & _ & H)%bind_Ok. apply bind_Ok in H as (zs & Hzs & [= <-]).
    simpl. f_equal. by apply IH.
Qed.

Lemma traverse_Forall2 {A B} (f : A → result B) l ys :
  traverse f l = Ok ys → Forall2 (λ x y, f x = Ok y) l ys.
Proof.
  revert ys. induction l as [|x l IH]; intros ys; simpl.
  - intros [= <-]. constructor.
  - intros (y & Hy & H)%bind_Ok. apply bind_Ok in H as (zs & Hzs & [= <-]).
    constructor; [done|by apply IH].
Qed.

Lemma Forall2_chain {A B C} (P : A → B → Prop) (Q : B → C → Prop)
    (R : A → C → Prop) l k m :
  (∀ x y z, P x y → Q y z → R x z) →
  Forall2 P l k → Forall2 Q k m → Forall2 R l m.
Proof.
  intros HPQ HP. revert m.
  induction HP as [|x y l k Hxy _ IH]; intros m HQ;
    inversion HQ; subst; constructor; eauto.
Qed.

(** ** Python values *)

Inductive pyval :=
| PyNone
| PyNum (x : Qc)
| PyStr (s : string)
| PyList (l : list pyval)
| PyDict (d : gmap string pyval).

(** The part of the Python runtime that is taken as given. *)
Class PyRuntime := {
  (** [float(s)] for a str [s]; [None] when it raises ValueError *)
  float_of_str : string → option Qc;
  (** [str(v)], which is what [f"{v}"] inserts *)
  py_str : pyval → string;
  (** [format(v, spec)], which is what [f"{v:spec}"] inserts; [None] when
      the value does not support the format specification *)
  py_format : pyval → string → option string;
}.

(** A runtime to evaluate examples with: no str reads as a number, [str]
    shows a str as it is, and only numbers take a format specification. *)
Definition example_runtime : PyRuntime :=
  {| float_of_str := λ _, None;
     py_str := λ v, match v with PyStr s => s | _ => "<object>"%string end;
     py_format := λ v _, match v with PyNum _ => Some "<number>"%string | _ => None end |}.

(** [float(v)] *)
Definition py_float `{PyRuntime} (v : pyval) : result Qc :=
  match v with
  | PyNum x => Ok x
  | PyStr s => match float_of_str s with
               | Some x => Ok x
               | None => Raise (ValueError "could not convert string to float")
               end
  | _ => Raise TypeError
  end.

(** [d.get(key, dflt)]; on a value that is no dict the attribute lookup fails *)
Definition py_get (d : pyval) (key : string) (dflt : pyval) : result pyval :=
  match d with
  | PyDict m => Ok (default dflt (m !! key))
  | _ => Raise AttributeError
  end.

(** Truth value of an object, as tested by [if v:] and [v or w]. *)
Definition py_truthy (v : pyval) : bool :=
  match v with
  | PyNone => false
  | PyNum x => bool_decide (x ≠ 0)
  | PyStr s => bool_decide (s ≠ ""%string)
  | PyList l => bool_decide (l ≠ [])
  | PyDict m => bool_decide (m ≠ ∅)
  end.

(** A number operand of [+], [/], [<], [abs]: everything else is a TypeError. *)
Definition py_num (v : pyval) : result Qc :=
  match v with PyNum x => Ok x | _ => Raise TypeError end.

(** [a / b] on numbers *)
Definition py_div (a b : Qc) : result Qc :=
  if decide (b = 0) then Raise ZeroDivisionError else Ok (a / b).

(** [d.values()] *)
Definition py_values (d : pyval) : result (list pyval) :=
  match d with
  | PyDict m => Ok ((map_to_list m).*2)
  | _ => Raise AttributeError
  end.

(** [sum(vs)]: starts from the int 0 and adds from left to right. The sum
    is exact, as that of ints is and that of floats is where no addition
    rounds: on whole numbers whose absolute values add up to less than 2^53.
    Sums of floats that round, overflow or hold a NaN are outside the model. *)
Definition py_sum (vs : list pyval) : result Qc :=
  xs ← traverse py_num vs; Ok (foldl Qcplus 0 xs).

(** [l[i]] with Python's negative indices *)
Definition py_index {A} (l : list A) (i : Z) : result A :=
  let j := if decide (0 ≤ i)%Z then i else (Z.of_nat (length l) + i)%Z in
  if decide (0 ≤ j)%Z then
    match l !! Z.to_nat j with Some x => Ok x | None => Raise IndexError end
  else Raise IndexError.

(** ** A stable sort

    [sorted], pandas' [sort_values] and [nlargest] and the result order of a
    flat index are all "order by a key"; [stable_sort R] orders a list so that
    [R x y] holds for [x] before [y], and keeps the input order of elements that
    [R] relates both ways. *)

Section stable_sort.
Context {A : Type} (R : relation A) `{!∀ x y, Decision (R x y)}.

Fixpoint insert_sorted (x : A) (l : list A) : list A :=
  match l with
  | [] => [x]
  | y :: l' => if decide (R x y) then x :: l else y :: insert_sorted x l'
  end.

Definition stable_sort : list A → list A := foldr insert_sorted [].

Lemma insert_sorted_Permutation x l : insert_sorted x l ≡ₚ x :: l.
Proof.
  induction l as [|y l IH]; simpl; [done|].
  case_decide; [done|]. rewrite IH. apply Permutation_swap.
Qed.

Lemma stable_sort_Permutation l : stable_sort l ≡ₚ l.
Proof.
  induction l as [|x l IH]; simpl; [done|].
  by rewrite insert_sorted_Permutation, IH.
Qed.

Lemma stable_sort_length l : length (stable_sort l) = length l.
Proof. by rewrite stable_sort_Permutation. Qed.

Context `{!Total R, !Transitive R}.

Lemma insert_sorted_StronglySorted x l :
  StronglySorted R l → StronglySorted R (insert_sorted x l).
Proof.
  induction 1 as [|y l Hl IH Hy]; simpl.
  - repeat constructor.
  - case_decide as Hxy.
    + constructor; [by constructor|].
      constructor; [done|]. eapply Forall_impl; [exact Hy|].
      intros z Hz. by etrans.
    + constructor; [done|].
      rewrite insert_sorted_Permutation. constructor; [|done].
      by destruct (total R x y).
Qed.

Lemma stable_sort_StronglySorted l : StronglySorted R (stable_sort l).
Proof.
  induction l as [|x l IH]; simpl; [constructor|].
  by apply insert_sorted_StronglySorted.
Qed.

End stable_sort.

Lemma StronglySorted_impl {A} (R R' : relation A) (l : list A) :
  (∀ a b, R a b → R' a b) → StronglySorted R l → StronglySorted R' l.
Proof.
  intros HR. induction 1 as [|x l _ IH Hx]; constructor; [done|].
  eapply Forall_impl; [exact Hx|]. intros y. apply HR.
Qed.

(** Sortedness carries over to a list that matches the sorted one element
    by element, when the order respects the matching. *)
Lemma StronglySorted_Forall2 {A B} (S : A → B → Prop) (P : relation A)
    (Q : relation B) (l : list A) (k : list B) :
  (∀ a b a' b', S a a' → S b b' → P a b → Q a' b') →
  Forall2 S l k → StronglySorted P l → StronglySorted Q k.
Proof.
  intros HPQ Hlk. induction Hlk as [|a a' l k Ha Hlk IH]; intros Hs; [constructor|].
  apply StronglySorted_inv in Hs as [Hs Hall]. constructor; [by apply IH|].
  clear IH Hs. induction Hlk as [|b b' l k Hb _ IH]; [constructor|].
  apply Forall_cons in Hall as [Hab Hall]. constructor; [by eapply HPQ|by apply IH].
Qed.

(** ** Ordering with missing keys

    pandas orders rows by a key and puts the rows whose key is missing after
    the others, in the order they had. [present] tells whether a row has its
    key and [R] orders the rows that have one. *)

Section missing_last.
Context {A : Type} (R : relation A) `{!∀ x y, Decision (R x y)} (present : A → bool).

Definition missing_last (l : list A) : list A :=
  stable_sort R (filter (λ x, present x = true) l)
  ++ filter (λ x, present x = false) l.

(** The order of the result: [b] has no key, or both have one and [R a b]. *)
Definition missing_last_order (a b : A) : Prop :=
  present b = false ∨ (present a = true ∧ present b = true ∧ R a b).

Lemma split_by_flag (l : list A) :
  filter (λ x, present x = true) l ++ filter (λ x, present x = false) l ≡ₚ l.
Proof.
  induction l as [|x l IH]; [done|].
  destruct (present x) eqn:Hx.
  - rewrite (filter_cons_True (λ x, present x = true)) by done.
    rewrite (filter_cons_False (λ x, present x = false)) by congruence.
    simpl. by rewrite IH.
  - rewrite (filter_cons_False (λ x, present x = true)) by congruence.
    rewrite (filter_cons_True (λ x, present x = false)) by done.
    rewrite <-Permutation_middle. by rewrite IH.
Qed.

Lemma missing_last_Permutation l : missing_last l ≡ₚ l.
Proof. unfold missing_last. rewrite stable_sort_Permutation. apply split_by_flag. Qed.

Lemma missing_last_all_present l :
  Forall (λ x, present x = true) l → missing_last l = stable_sort R l.
Proof.
  intros Hall. unfold missing_last.
  assert (filter (λ x, present x = false) l = []) as ->.
  { induction Hall as [|x l Hx _ IH]; [done|].
    by rewrite filter_cons_False by congruence. }
  assert (filter (λ x, present x = true) l = l) as ->.
  { induction Hall as [|x l Hx _ IH]; [done|].
    rewrite filter_cons_True by done. by rewrite IH. }
  by rewrite app_nil_r.
Qed.

Context `{!Total R, !Transitive R}.

Lemma missing_last_sorted l : StronglySorted missing_last_order (missing_last l).
Proof.
  unfold missing_last. apply StronglySorted_app. split; [|split].
  - intros a b _ [Hb _]%list_elem_of_filter. by left.
  - pose proof (stable_sort_StronglySorted R (filter (λ x, present x = true) l)) as Hs.
    assert (Forall (λ x, present x = true)
              (stable_sort R (filter (λ x, present x = true) l))) as Hall.
    { rewrite stable_sort_Permutation. apply Forall_forall.
      by intros x [Hx _]%list_elem_of_filter. }
    induction Hs as [|a rest _ IH Ha]; [constructor|].
    apply Forall_cons in Hall as [Hpa Hall]. constructor; [by apply IH|].
    rewrite Forall_forall in Ha, Hall |- *. intros b Hb.
    right. split; [done|]. split; [by apply Hall|by apply Ha].
  - assert (Forall (λ x, present x = false) (filter (λ x, present x = false) l))
      as Hall by (apply Forall_forall; by intros x [Hx _]%list_elem_of_filter).
    induction Hall as [|a rest _ Hall IH]; [constructor|].
    constructor; [done|]. eapply Forall_impl; [exact Hall|]. intros b Hb. by left.
Qed.
End missing_last.

(** ** Python str operations

    A str is modelled by Rocq's [string] of 8-bit characters, so the case,
    digit and whitespace tables of this development are the ASCII part of
    Python's, and a character of the model is a code point of an ASCII text
    only. *)

(** A text all of whose characters are ASCII. *)
Definition ascii_text (s : string) : Prop :=
  Forall (λ c, (nat_of_ascii c < 128)%nat) (String.list_ascii_of_string s).

Definition is_upper (c : ascii) : bool :=
  let n := nat_of_ascii c in bool_decide (65 ≤ n ≤ 90)%nat.

Definition lower_char (c : ascii) : ascii :=
  if is_upper c then ascii_of_nat (nat_of_ascii c + 32) else c.

(** [s.lower()] *)
Fixpoint py_lower (s : string) : string :=
  match s with
  | EmptyString => EmptyString
  | String c s' => String (lower_char c) (py_lower s')
  end.

Fixpoint starts_with (p s : string) : bool :=
  match p, s with
  | EmptyString, _ => true
  | String a p', String b s' => bool_decide (a = b) && starts_with p' s'
  | String _ _, EmptyString => false
  end.

(** [p in s] for two str *)
Fixpoint py_contains (p s : string) : bool :=
  starts_with p s ||
  match s with
  | EmptyString => false
  | String _ s' => py_contains p s'
  end.

(** ** The flat inner-product index of the faiss library

    [faiss.IndexFlatIP] is not part of the repository. The model keeps what
    the library documents: an index of dimension [d] stores the added vectors
    in order ([xb], ids [0, 1, ...]); [add] and [search] assert that a vector
    has [d] components and [search] that [k > 0]; [search] returns [k]
    (score, id) pairs by decreasing inner product, and when fewer than [k]
    vectors are stored the pairs left over have id [-1] and the lowest float as
    their score. The library leaves the order of equal scores open; the model
    lists the lower id first and no theorem below depends on it. *)

Module faiss.

Record IndexFlatIP := { d : nat; xb : list (list Qc) }.

Definition new (dimension : nat) : IndexFlatIP := {| d := dimension; xb := [] |}.

Definition ntotal (ix : IndexFlatIP) : nat := length (xb ix).

Definition add (ix : IndexFlatIP) (v : list Qc) : result IndexFlatIP :=
  if decide (length v = d ix) then Ok {| d := d ix; xb := xb ix ++ [v] |}
  else Raise AssertionError.

Definition inner_product (u v : list Qc) : Qc :=
  foldr Qcplus 0 (zip_with Qcmult u v).

(** the most negative single-precision float, [-(2 - 2^-23) * 2^127] *)
Definition lowest_float : Qc := - Qc_of_Z (2 ^ 128 - 2 ^ 104).

Definition by_score_desc : relation (Qc * Z) := λ a b, b.1 ≤ a.1.

#[global] Instance by_score_desc_dec : RelDecision by_score_desc.
Proof. intros a b. unfold by_score_desc. apply _. Defined.

#[global] Instance by_score_desc_total : Total by_score_desc.
Proof. intros a b. unfold by_score_desc. destruct (total Qcle a.1 b.1); auto. Qed.

#[global] Instance by_score_desc_trans : Transitive by_score_desc.
Proof. intros a b c ??. unfold by_score_desc in *. by etrans. Qed.

Definition scored (ix : IndexFlatIP) (q : list Qc) : list (Qc * Z) :=
  imap (λ i v, (inner_product q v, Z.of_nat i)) (xb ix).

Definition search (ix : IndexFlatIP) (q : list Qc) (k : Z) : result (list (Qc * Z)) :=
  if decide (length q = d ix) then
    if decide (0 < k)%Z then
      let hits := take (Z.to_nat k) (stable_sort by_score_desc (scored ix q)) in
      Ok (hits ++ replicate (Z.to_nat k - length hits) (lowest_float, (-1)%Z))
    else Raise AssertionError
  else Raise AssertionError.

End faiss.

(** * backend/vector_store.py *)

Module vector_store.

(** One entry of [self.metadata]: the dict built by [add_portfolio_data]. *)
Record Metadata := {
  timestamp : string;
  data_summary : string;
  portfolio_name : pyval;
  total_return : pyval;
  volatility : pyval;
  risk_level : pyval;
}.

(** The attributes of a [PortfolioVectorStore] object. *)
Record PortfolioVectorStore := {
  dimension : nat;
  index : faiss.IndexFlatIP;
  embeddings : list (list Qc);
  metadata : list Metadata;
  is_trained : bool;
}.

(** One element of the list [search_similar_portfolios] returns. *)
Record SearchResult := {
  similarity_score : Qc;
  result_metadata : Metadata;
  rank : nat;
}.

(** The dict [get_stats] returns. *)
Record Stats := {
  total_vectors : nat;
  stats_dimension : nat;
  stats_is_trained : bool;
  index_size : nat;
}.

Definition __init__ (dimension : nat) : PortfolioVectorStore :=
  {| dimension := dimension;
     index := faiss.new dimension;
     embeddings := [];
     metadata := [];
     is_trained := false |}.

Section with_runtime.
Context `{PyRuntime}.

(** [float(d.get(key, 0))] *)
Definition get_float (d : pyval) (key : string) : result Qc :=
  v ← py_get d key (PyNum 0); py_float v.

Definition portfolio_features (portfolio : pyval) : result (list Qc) :=
  total_aum ← get_float portfolio "total_aum";
  target_return ← get_float portfolio "target_return";
  total_holdings ← get_float portfolio "total_holdings";
  Ok [total_aum / Qc_of_Z 1000000000; target_return; total_holdings / Qc_of_Z 100].

Definition performance_features (perf : pyval) : result (list Qc) :=
  traverse (get_float perf)
    ["total_return"; "daily_return"; "volatility"; "sharpe_ratio";
     "max_drawdown"; "active_return"]%string.

Definition risk_features (risk : pyval) : result (list Qc) :=
  portfolio_beta ← get_float risk "portfolio_beta";
  var_95 ← get_float risk "var_95";
  tracking_error ← get_float risk "tracking_error";
  correlation_benchmark ← get_float risk "correlation_benchmark";
  concentration_risk ← get_float risk "concentration_risk";
  liquidity_score ← get_float risk "liquidity_score";
  Ok [portfolio_beta; var_95 / Qc_of_Z 1000000; tracking_error;
      correlation_benchmark; concentration_risk; liquidity_score / Qc_of_Z 10].

(** The three conditional expressions on [sectors] and the two
    comprehensions that divide by [total_value]. *)
Definition sector_features (sectors : pyval) : result (list Qc) :=
  let nonempty := py_truthy sectors in
  total_value ←
    (if nonempty then vs ← py_values sectors; py_sum vs else Ok 1);
  sector_weights ←
    (if nonempty then
       vs ← py_values sectors; ws ← traverse py_num vs;
       Ok (take 5 (stable_sort (flip Qcle) ws))
     else Ok (replicate 5 0));
  normalized_weights ← traverse (λ w, py_div w total_value) sector_weights;
  herfindahl ←
    (if nonempty then
       vs ← py_values sectors;
       squares ← traverse (λ v, w ← py_num v; r ← py_div w total_value; Ok (r ^ 2)) vs;
       Ok (foldl Qcplus 0 squares)
     else Ok 0);
  Ok (normalized_weights ++ [herfindahl]).

(** The features gathered before padding, in the order of the four [if]s. *)
Definition collect_features (data : gmap string pyval) : result (list Qc) :=
  f1 ← from_option portfolio_features (Ok []) (data !! "portfolio_summary");
  f2 ← from_option performance_features (Ok []) (data !! "performance_summary");
  f3 ← from_option risk_features (Ok []) (data !! "risk_summary");
  f4 ← from_option sector_features (Ok []) (data !! "sector_allocation");
  Ok (f1 ++ f2 ++ f3 ++ f4).

(** [while len(features) < self.dimension: features.append(0.0)]; the loop
    runs at most [dimension] times, which is the fuel it is given. *)
Fixpoint pad_features (fuel dimension : nat) (features : list Qc) : list Qc :=
  match fuel with
  | O => features
  | S fuel' =>
      if decide (length features < dimension)%nat
      then pad_features fuel' dimension (features ++ [0])
      else features
  end.

Definition _create_embeddings (dimension : nat) (data : gmap string pyval) : list Qc :=
  match collect_features data with
  | Ok features => take dimension (pad_features dimension dimension features)
  | Raise _ => replicate dimension 0
  end.


(** The last character of a format specification: its type code. *)
Fixpoint type_code (spec : string) : string :=
  match spec with
  | EmptyString => EmptyString
  | String c EmptyString => String c EmptyString
  | String _ spec' => type_code spec'
  end.

(** [f"{v:spec}"] for a specification with a number type code: a str
    refuses the code with a ValueError, every other value that does not
    support the specification with a TypeError. *)
Definition fmt (v : pyval) (spec : string) : result string :=
  match py_format v spec with
  | Some s => Ok s
  | None =>
      match v with
      | PyStr _ =>
          Raise (ValueError ("Unknown format code '" +:+ type_code spec
                             +:+ "' for object of type 'str'"))
      | _ => Raise TypeError
      end
  end.

(** [f"{label}{d.get(key, 0):spec}"] *)
Definition fmt_field (label : string) (d : pyval) (key spec : string) : result string :=
  v ← py_get d key (PyNum 0); s ← fmt v spec; Ok (label +:+ s).

(** [f"{label}{d.get(key, 'Unknown')}"] *)
Definition str_field (label : string) (d : pyval) (key : string) : result string :=
  v ← py_get d key (PyStr "Unknown"); Ok (label +:+ py_str v).

Definition _create_data_summary (data : gmap string pyval) : result string :=
  p1 ← match data !! "portfolio_summary" with
       | Some portfolio =>
           a ← str_field "Portfolio: " portfolio "fund_name";
           b ← fmt_field "AUM: " portfolio "total_aum" ",.0f";
           c ← str_field "Risk Level: " portfolio "risk_level";
           Ok [a; b; c]
       | None => Ok []
       end;
  p2 ← match data !! "performance_summary" with
       | Some perf =>
           a ← fmt_field "Return: " perf "total_return" ".2%";
           b ← fmt_field "Volatility: " perf "volatility" ".2%";
           c ← fmt_field "Sharpe: " perf "sharpe_ratio" ".2f";
           Ok [a; b; c]
       | None => Ok []
       end;
  p3 ← match data !! "risk_summary" with
       | Some risk =>
           a ← fmt_field "Beta: " risk "portfolio_beta" ".2f";
           b ← fmt_field "VaR: " risk "var_95" ",.0f";
           Ok [a; b]
       | None => Ok []
       end;
  Ok (String.concat " | " (p1 ++ p2 ++ p3)).

(** [processed_data.get(section, {}).get(key, dflt)] *)
Definition get_nested (data : gmap string pyval) (section key : string)
    (dflt : pyval) : result pyval :=
  py_get (default (PyDict ∅) (data !! section)) key dflt.

(** The metadata dict of [add_portfolio_data]; [now] is what
    [datetime.now().isoformat()] reads off the clock. *)
Definition make_metadata (processed_data : gmap string pyval)
    (timestamp : option string) (now : string) : result Metadata :=
  let ts := match timestamp with
            | Some t => if bool_decide (t ≠ ""%string) then t else now
            | None => now
            end in
  summary ← _create_data_summary processed_data;
  name ← get_nested processed_data "portfolio_summary" "fund_name" (PyStr "Unknown");
  ret ← get_nested processed_data "performance_summary" "total_return" (PyNum 0);
  vol ← get_nested processed_data "performance_summary" "volatility" (PyNum 0);
  risk ← get_nested processed_data "portfolio_summary" "risk_level" (PyStr "Unknown");
  Ok {| timestamp := ts; data_summary := summary; portfolio_name := name;
        total_return := ret; volatility := vol; risk_level := risk |}.

(** [add_portfolio_data]: the returned id and the store after the call. Every
    statement that can raise comes before the first mutation, so an
    exception ([raise] in the handler) leaves the store as it was. *)
Definition add_portfolio_data (self : PortfolioVectorStore)
    (processed_data : gmap string pyval) (timestamp : option string) (now : string)
    : result (nat * PortfolioVectorStore) :=
  let embedding := _create_embeddings (dimension self) processed_data in
  md ← make_metadata processed_data timestamp now;
  index' ← faiss.add (index self) embedding;
  let vector_id := length (embeddings self) in
  Ok (vector_id,
      {| dimension := dimension self;
         index := index';
         embeddings := embeddings self ++ [embedding];
         metadata := metadata self ++ [md];
         is_trained := true |}).

(** The [for] loop of [search_similar_portfolios] over
    [enumerate(zip(scores[0], indices[0]))], started at position [i]. *)
Fixpoint collect_results (md : list Metadata) (i : nat) (hits : list (Qc * Z))
    : result (list SearchResult) :=
  match hits with
  | [] => Ok []
  | (score, idx) :: hits' =>
      if decide (idx < Z.of_nat (length md))%Z then
        m ← py_index md idx;
        rest ← collect_results md (S i) hits';
        Ok ({| similarity_score := score; result_metadata := m; rank := i + 1 |} :: rest)
      else collect_results md (S i) hits'
  end.

Definition search_similar_portfolios_try (self : PortfolioVectorStore)
    (query_data : gmap string pyval) (k : Z) : result (list SearchResult) :=
  if negb (is_trained self) || bool_decide (length (embeddings self) = 0%nat) then Ok []
  else
    let query_embedding := _create_embeddings (dimension self) query_data in
    hits ← faiss.search (index self) query_embedding
             (Z.min k (Z.of_nat (length (embeddings self))));
    collect_results (metadata self) 0 hits.

Definition search_similar_portfolios (self : PortfolioVectorStore)
    (query_data : gmap string pyval) (k : Z) : list SearchResult :=
  match search_similar_portfolios_try self query_data k with
  | Ok results => results
  | Raise _ => []
  end.

(** One line of the SIMILAR HISTORICAL PERIODS block. *)
Definition similar_line (r : SearchResult) : result string :=
  s ← fmt (PyNum (similarity_score r)) ".3f";
  Ok ("- " +:+ data_summary (result_metadata r) +:+ " (Similarity: " +:+ s +:+ ")").

(** One line of the HOLDINGS CONTEXT block: [holding['Asset_Name']] and
    [holding['Weight_Percent']] are subscripts, a missing key raises. *)
Definition holding_line (holding : pyval) : result string :=
  match holding with
  | PyDict h =>
      match h !! "Asset_Name", h !! "Weight_Percent" with
      | Some name, Some w => s ← fmt w ".1%"; Ok ("- " +:+ py_str name +:+ ": " +:+ s)
      | None, _ => Raise (KeyError "Asset_Name")
      | _, None => Raise (KeyError "Weight_Percent")
      end
  | _ => Raise TypeError
  end.

Definition LF : string := String (ascii_of_nat 10) EmptyString.

Definition query_context (query_lower : string) (current_data : gmap string pyval)
    : result (list string) :=
  if py_contains "risk" query_lower then
    match current_data !! "risk_summary" with
    | Some risk =>
        beta ← fmt_field "Beta: " risk "portfolio_beta" ".2f";
        var ← fmt_field ", VaR: " risk "var_95" ",.0f";
        te ← fmt_field "Tracking Error: " risk "tracking_error" ".3f";
        Ok [LF +:+ "RISK CONTEXT:"; beta +:+ var; te]
    | None => Ok []
    end
  else if py_contains "performance" query_lower || py_contains "return" query_lower then
    match current_data !! "performance_summary" with
    | Some perf =>
        a ← fmt_field "Total Return: " perf "total_return" ".2%";
        b ← fmt_field "Volatility: " perf "volatility" ".2%";
        c ← fmt_field "Sharpe Ratio: " perf "sharpe_ratio" ".2f";
        Ok [LF +:+ "PERFORMANCE CONTEXT:"; a; b; c]
    | None => Ok []
    end
  else if py_contains "holding" query_lower || py_contains "sector" query_lower then
    match current_data !! "top_holdings" with
    | Some (PyList hs) =>
        ls ← traverse holding_line (take 3 hs);
        Ok ((LF +:+ "HOLDINGS CONTEXT:") :: ls)
    | Some (PyStr EmptyString) => Ok [LF +:+ "HOLDINGS CONTEXT:"]
    | Some _ => Raise TypeError
    | None => Ok []
    end
  else Ok [].

Definition get_context_for_query_try (self : PortfolioVectorStore) (query : string)
    (current_data : gmap string pyval) : result string :=
  let similar_portfolios := search_similar_portfolios self current_data 2 in
  current ← (if bool_decide (is_Some (current_data !! "portfolio_summary")) then
               s ← _create_data_summary current_data; Ok ["CURRENT PORTFOLIO:"%string; s]
             else Ok []);
  similar ← (match similar_portfolios with
             | [] => Ok []
             | _ => ls ← traverse similar_line similar_portfolios;
                    Ok ((LF +:+ "SIMILAR HISTORICAL PERIODS:") :: ls)
             end);
  specific ← query_context (py_lower query) current_data;
  Ok (String.concat LF (current ++ similar ++ specific)).

Definition get_context_for_query (self : PortfolioVectorStore) (query : string)
    (current_data : gmap string pyval) : string :=
  match get_context_for_query_try self query current_data with
  | Ok s => s
  | Raise _ => "Current portfolio data available for analysis."
  end.

Definition get_stats (self : PortfolioVectorStore) : Stats :=
  {| total_vectors := length (embeddings self);
     stats_dimension := dimension self;
     stats_is_trained := is_trained self;
     index_size := faiss.ntotal (index self) |}.


(** *** Persistence

    The file system is a finite map from paths to files. A file is what
    [faiss.write_index] wrote, a pickled dict with the four keys of
    [save_index], a pickled dict that lacks one of them, or anything else;
    [faiss.read_index] and [pickle.load] return what was written and raise on
    a file of another kind (a pickled object that is no dict raises at its
    first subscript, which comes to the same). A path is the string the
    method was given: two strings that name one file on disk are outside the
    model, and so are pickled values of other types than the store keeps.
    Failing writes (a full disk, a missing directory) are outside the model:
    [save_index] succeeds. *)

Record Pickled := {
  saved_embeddings : list (list Qc);
  saved_metadata : list Metadata;
  saved_dimension : nat;
  saved_is_trained : bool;
}.

(** A pickled dict that lacks one of the four keys: what it holds under
    the keys that [load_index] reads before it comes to the first missing
    one, in the order 'embeddings', 'metadata', 'dimension', 'is_trained'. *)
Inductive PartialPickle :=
| LacksEmbeddings
| LacksMetadata (partial_embeddings : list (list Qc))
| LacksDimension (partial_embeddings : list (list Qc))
    (partial_metadata : list Metadata)
| LacksIsTrained (partial_embeddings : list (list Qc))
    (partial_metadata : list Metadata) (partial_dimension : nat).

Inductive file :=
| IndexFile (ix : faiss.IndexFlatIP)
| PickleFile (p : Pickled)
| PartialPickleFile (p : PartialPickle)
| OtherFile.

Definition index_path (filepath : string) : string := filepath +:+ ".index".
Definition metadata_path (filepath : string) : string := filepath +:+ ".metadata".

Definition save_index (self : PortfolioVectorStore) (filepath : string)
    (fs : gmap string file) : gmap string file :=
  let fs1 := <[index_path filepath := IndexFile (index self)]> fs in
  <[metadata_path filepath :=
      PickleFile {| saved_embeddings := embeddings self;
                    saved_metadata := metadata self;
                    saved_dimension := dimension self;
                    saved_is_trained := is_trained self |}]> fs1.

(** The four assignments from the pickled dict, as far as they get: the
    KeyError of the first missing key ends them. *)
Definition assign_partial (self : PortfolioVectorStore) (p : PartialPickle)
    : PortfolioVectorStore :=
  match p with
  | LacksEmbeddings => self
  | LacksMetadata e =>
      {| dimension := dimension self; index := index self; embeddings := e;
         metadata := metadata self; is_trained := is_trained self |}
  | LacksDimension e m =>
      {| dimension := dimension self; index := index self; embeddings := e;
         metadata := m; is_trained := is_trained self |}
  | LacksIsTrained e m d =>
      {| dimension := d; index := index self; embeddings := e;
         metadata := m; is_trained := is_trained self |}
  end.

(** [load_index]: the returned bool and the store after the call. The index
    is assigned as soon as it is read and the other attributes one by one; an
    exception on the way is caught and the method returns False with what
    was assigned until then in place. *)
Definition load_index (self : PortfolioVectorStore) (filepath : string)
    (fs : gmap string file) : bool * PortfolioVectorStore :=
  match fs !! index_path filepath with
  | None => (false, self)
  | Some (IndexFile ix) =>
      let indexed :=
        {| dimension := dimension self;
           index := ix;
           embeddings := embeddings self;
           metadata := metadata self;
           is_trained := is_trained self |} in
      match fs !! metadata_path filepath with
      | Some (PickleFile p) =>
          (true, {| dimension := saved_dimension p;
                    index := ix;
                    embeddings := saved_embeddings p;
                    metadata := saved_metadata p;
                    is_trained := saved_is_trained p |})
      | Some (PartialPickleFile p) => (false, assign_partial indexed p)
      | _ => (false, indexed)
      end
  | Some _ => (false, self)
  end.

(** *** Calls and runs

    The methods that work on the store alone, and what a call gives back. *)

Inductive call :=
| AddPortfolioData (processed_data : gmap string pyval) (timestamp : option string) (now : string)
| SearchSimilarPortfolios (query_data : gmap string pyval) (k : Z)
| GetContextForQuery (query : string) (current_data : gmap string pyval)
| GetStats.

Inductive outcome :=
| Added (vector_id : nat)
| AddRaised (e : exn)
| Found (results : list SearchResult)
| Context (text : string)
| StatsAre (stats : Stats).

Definition step (self : PortfolioVectorStore) (c : call) : outcome * PortfolioVectorStore :=
  match c with
  | AddPortfolioData data ts now =>
      match add_portfolio_data self data ts now with
      | Ok (vector_id, self') => (Added vector_id, self')
      | Raise e => (AddRaised e, self)
      end
  | SearchSimilarPortfolios q k => (Found (search_similar_portfolios self q k), self)
  | GetContextForQuery q data => (Context (get_context_for_query self q data), self)
  | GetStats => (StatsAre (get_stats self), self)
  end.

(** A run of calls: the log of (call, outcome) pairs and the final store. *)
Fixpoint run (self : PortfolioVectorStore) (cs : list call)
    : list (call * outcome) * PortfolioVectorStore :=
  match cs with
  | [] => ([], self)
  | c :: cs' =>
      let '(o, self') := step self c in
      let '(log, self'') := run self' cs' in
      ((c, o) :: log, self'')
  end.

(** A successful [add_portfolio_data] call of a log: the data added, the
    timestamp arguments and the id returned. *)
Record Addition := {
  added_data : gmap string pyval;
  added_timestamp : option string;
  added_now : string;
  added_id : nat;
}.

Fixpoint added (log : list (call * outcome)) : list Addition :=
  match log with
  | [] => []
  | (AddPortfolioData data ts now, Added vector_id) :: log' =>
      {| added_data := data; added_timestamp := ts; added_now := now;
         added_id := vector_id |} :: added log'
  | _ :: log' => added log'
  end.




(** *** Embeddings have the dimension of the store *)

Lemma pad_features_closed fuel dimension features :
  (dimension - length features ≤ fuel)%nat →
  pad_features fuel dimension features
  = features ++ replicate (dimension - length features) 0.
Proof.
  revert features. induction fuel as [|fuel IH]; intros features Hfuel; simpl.
  - replace (dimension - length features)%nat with 0%nat by lia.
    by rewrite app_nil_r.
  - case_decide as Hlt.
    + rewrite IH by (rewrite length_app; simpl; lia).
      rewrite length_app, <-app_assoc. simpl.
      replace (dimension - length features)%nat
        with (S (dimension - (length features + 1)))%nat by lia.
      done.
    + replace (dimension - length features)%nat with 0%nat by lia.
      by rewrite app_nil_r.
Qed.

Lemma pad_then_truncate_length dimension (features : list Qc) :
  length (take dimension (features ++ replicate (dimension - length features) 0))
  = dimension.
Proof. rewrite length_take, length_app, length_replicate. lia. Qed.

Lemma create_embeddings_length dimension data :
  length (_create_embeddings dimension data) = dimension.
Proof.
  unfold _create_embeddings. destruct (collect_features data) as [features|e].
  - rewrite pad_features_closed by lia. apply pad_then_truncate_length.
  - apply length_replicate.
Qed.

(** C2. For every data dictionary, [_create_embeddings] returns a vector
    whose length is the dimension of the store: the collected features padded
    with zeros or truncated to that length, and the all-zero vector when
    collecting the features raises. A dictionary with none of the four keys
    has no features and gives the all-zero vector. *)
Theorem create_embeddings_fixed_dimension dimension data :
  length (_create_embeddings dimension data) = dimension
  ∧ _create_embeddings dimension data
    = match collect_features data with
      | Ok features =>
          take dimension (features ++ replicate (dimension - length features) 0)
      | Raise _ => replicate dimension 0
      end
  ∧ (∀ features i, collect_features data = Ok features →
       (i < dimension)%nat →
       _create_embeddings dimension data !! i = Some (default 0 (features !! i)))
  ∧ _create_embeddings dimension ∅ = replicate dimension 0
  ∧ length (_create_embeddings 384 data) = 384%nat.
Proof.
  split; [apply create_embeddings_length|].
  assert (_create_embeddings dimension data
    = match collect_features data with
      | Ok features =>
          take dimension (features ++ replicate (dimension - length features) 0)
      | Raise _ => replicate dimension 0
      end) as Heq.
  { unfold _create_embeddings. destruct (collect_features data); [|done].
    by rewrite pad_features_closed by lia. }
  split; [exact Heq|]. split; [|split].
  - intros features i Hf Hi. rewrite Heq, Hf.
    rewrite lookup_take_lt by done.
    destruct (decide (i < length features)%nat) as [Hlt|Hge].
    + rewrite lookup_app_l by done.
      destruct (lookup_lt_is_Some_2 features i Hlt) as [x ->]. done.
    + rewrite lookup_app_r by lia.
      rewrite lookup_replicate_2 by lia.
      by rewrite (lookup_ge_None_2 features i) by lia.
  - unfold _create_embeddings, collect_features. rewrite !lookup_empty. simpl.
    rewrite pad_features_closed by lia. simpl.
    rewrite Nat.sub_0_r. apply firstn_all2. by rewrite length_replicate.
  - apply create_embeddings_length.
Qed.


(** *** Paths of the two files of a saved store *)

Lemma list_ascii_of_string_app s t :
  String.list_ascii_of_string (s +:+ t) = String.list_ascii_of_string s ++ String.list_ascii_of_string t.
Proof. induction s as [|c s IH]; simpl; [done|]. by rewrite <-IH. Qed.




Lemma index_path_ne_metadata_path p p' : index_path p ≠ metadata_path p'.
Proof.
  unfold index_path, metadata_path. intros Heq%(f_equal String.list_ascii_of_string).
  rewrite !list_ascii_of_string_app in Heq.
  apply (f_equal last) in Heq.
  change (String.list_ascii_of_string ".index")
    with (String.list_ascii_of_string ".inde" ++ ["x"%char]) in Heq.
  change (String.list_ascii_of_string ".metadata")
    with (String.list_ascii_of_string ".metadat" ++ ["a"%char]) in Heq.
  rewrite !app_assoc, !last_snoc in Heq. discriminate.
Qed.

(** *** Saving and loading *)

Lemma load_index_after_save saved self filepath fs :
  load_index self filepath (save_index saved filepath fs)
  = (true, {| dimension := dimension saved;
              index := index saved;
              embeddings := embeddings saved;
              metadata := metadata saved;
              is_trained := is_trained saved |}).
Proof.
  unfold load_index, save_index.
  rewrite lookup_insert_ne by (apply not_eq_sym, index_path_ne_metadata_path).
  rewrite lookup_insert_eq. by rewrite lookup_insert_eq.
Qed.

Lemma load_index_missing self filepath fs :
  fs !! index_path filepath = None → load_index self filepath fs = (false, self).
Proof. intros Hnone. unfold load_index. by rewrite Hnone. Qed.

(** C9. Persistence round trip: loading what [save_index] wrote returns
    True and restores the embeddings, the metadata, the dimension and the
    trained flag (and the index) of the saved store, whatever the loading
    store held before; [load_index] on a path with no index file returns
    False and leaves the store as it was. *)
Theorem save_then_load_restores :
  (∀ saved fresh filepath fs,
     let r := load_index fresh filepath (save_index saved filepath fs) in
     r.1 = true
     ∧ embeddings r.2 = embeddings saved
     ∧ metadata r.2 = metadata saved
     ∧ dimension r.2 = dimension saved
     ∧ is_trained r.2 = is_trained saved
     ∧ index r.2 = index saved)
  ∧ (∀ self filepath fs,
       fs !! index_path filepath = None →
       load_index self filepath fs = (false, self)).
Proof.
  split.
  - intros saved fresh filepath fs. simpl. by rewrite load_index_after_save.
  - apply load_index_missing.
Qed.


(** *** Invariants of the store *)

(** The three containers have the same number of entries. *)
Definition lockstep (self : PortfolioVectorStore) : Prop :=
  length (embeddings self) = length (metadata self)
  ∧ length (embeddings self) = faiss.ntotal (index self).

(** What every store built by [__init__] and [add_portfolio_data] satisfies:
    the index holds the stored embeddings, in order, under the dimension of
    the store, there is one metadata record per embedding, and a store that
    holds a vector is marked trained. *)
Definition consistent (self : PortfolioVectorStore) : Prop :=
  length (embeddings self) = length (metadata self)
  ∧ faiss.xb (index self) = embeddings self
  ∧ faiss.d (index self) = dimension self
  ∧ (embeddings self ≠ [] → is_trained self = true).

Lemma consistent_lockstep self : consistent self → lockstep self.
Proof. intros (Hmd & Hxb & _). split; [done|]. unfold faiss.ntotal. by rewrite Hxb. Qed.

Lemma init_consistent dim : consistent (__init__ dim).
Proof. by repeat split. Qed.

Lemma add_portfolio_data_Ok self data ts now vector_id self' :
  add_portfolio_data self data ts now = Ok (vector_id, self') →
  ∃ md,
    make_metadata data ts now = Ok md
    ∧ length (_create_embeddings (dimension self) data) = faiss.d (index self)
    ∧ vector_id = length (embeddings self)
    ∧ self' = {| dimension := dimension self;
                 index := {| faiss.d := faiss.d (index self);
                             faiss.xb := faiss.xb (index self)
                               ++ [_create_embeddings (dimension self) data] |};
                 embeddings := embeddings self
                   ++ [_create_embeddings (dimension self) data];
                 metadata := metadata self ++ [md];
                 is_trained := true |}.
Proof.
  unfold add_portfolio_data. intros (md & Hmd & Hrest)%bind_Ok.
  apply bind_Ok in Hrest as (ix & Hix & [= <- <-]).
  unfold faiss.add in Hix. case_decide as Hlen; [|discriminate].
  injection Hix as <-. by exists md.
Qed.

(** A call either leaves the store as it is or appends one embedding, one
    metadata record and one index row. *)
Lemma step_cases self c :
  (step self c).2 = self ∧ (∀ vector_id, (step self c).1 ≠ Added vector_id)
  ∨ ∃ data ts now md,
      c = AddPortfolioData data ts now
      ∧ make_metadata data ts now = Ok md
      ∧ step self c
        = (Added (length (embeddings self)),
           {| dimension := dimension self;
              index := {| faiss.d := faiss.d (index self);
                          faiss.xb := faiss.xb (index self)
                            ++ [_create_embeddings (dimension self) data] |};
              embeddings := embeddings self
                ++ [_create_embeddings (dimension self) data];
              metadata := metadata self ++ [md];
              is_trained := true |}).
Proof.
  destruct c as [data ts now| | |]; simpl; [|by left..].
  destruct (add_portfolio_data self data ts now) as [[vector_id self']|e] eqn:Hadd.
  - right. apply add_portfolio_data_Ok in Hadd as (md & Hmd & _ & -> & ->).
    by exists data, ts, now, md.
  - by left.
Qed.

Lemma step_consistent self c : consistent self → consistent (step self c).2.
Proof.
  intros Hc.
  destruct (step_cases self c) as [[-> _]|(data & ts & now & md & _ & _ & ->)]; [done|].
  destruct Hc as (Hmd & Hxb & Hd & _).
  repeat split; simpl; [|by rewrite Hxb|done].
  rewrite !length_app. simpl. lia.
Qed.


Lemma step_keeps self c :
  embeddings self `prefix_of` embeddings (step self c).2
  ∧ metadata self `prefix_of` metadata (step self c).2
  ∧ faiss.xb (index self) `prefix_of` faiss.xb (index (step self c).2).
Proof.
  destruct (step_cases self c) as [[-> _]|(data & ts & now & md & _ & _ & ->)]; [done|].
  simpl. repeat split; by apply prefix_app_r.
Qed.

Lemma run_cons self c cs :
  run self (c :: cs)
  = (((c, (step self c).1) :: (run (step self c).2 cs).1), (run (step self c).2 cs).2).
Proof.
  simpl. destruct (step self c) as [o self1]. simpl.
  by destruct (run self1 cs) as [log self2].
Qed.

Lemma run_app self cs1 cs2 :
  (run self (cs1 ++ cs2)).2 = (run (run self cs1).2 cs2).2.
Proof.
  revert self. induction cs1 as [|c cs1 IH]; intros self; [done|].
  rewrite <-app_comm_cons, !run_cons. simpl. apply IH.
Qed.

Lemma run_keeps self cs :
  embeddings self `prefix_of` embeddings (run self cs).2
  ∧ metadata self `prefix_of` metadata (run self cs).2
  ∧ faiss.xb (index self) `prefix_of` faiss.xb (index (run self cs).2).
Proof.
  revert self. induction cs as [|c cs IH]; intros self; [done|].
  rewrite run_cons. simpl.
  destruct (step_keeps self c) as (H1 & H2 & H3).
  destruct (IH (step self c).2) as (H1' & H2' & H3').
  repeat split; by etrans.
Qed.

Lemma run_consistent self cs : consistent self → consistent (run self cs).2.
Proof.
  revert self. induction cs as [|c cs IH]; intros self Hc; [done|].
  rewrite run_cons. simpl. by apply IH, step_consistent.
Qed.

(** The additions of a run, against the store the run started from. *)
Lemma run_added self cs :
  let adds := added (run self cs).1 in
  let self' := (run self cs).2 in
  added_id <$> adds = seq (length (embeddings self)) (length adds)
  ∧ dimension self' = dimension self
  ∧ embeddings self'
    = embeddings self
      ++ ((λ a, _create_embeddings (dimension self) (added_data a)) <$> adds)
  ∧ ∃ mds, metadata self' = metadata self ++ mds
      ∧ Forall2 (λ md a,
          make_metadata (added_data a) (added_timestamp a) (added_now a) = Ok md)
          mds adds.
Proof.
  revert self. induction cs as [|c cs IH]; intros self.
  { simpl. rewrite !app_nil_r. repeat split; try done. exists []. by rewrite app_nil_r. }
  rewrite run_cons. cbn zeta. cbn [fst snd].
  specialize (IH (step self c).2). cbn zeta in IH.
  destruct IH as (Hids & Hdim & Hemb & mds & Hmd & Hmds).
  destruct (step_cases self c) as [[Hsame Hout]|(data & ts & now & md & -> & Hmk & Hstep)].
  - rewrite Hsame in *.
    assert (added ((c, (step self c).1) :: (run self cs).1) = added (run self cs).1)
      as ->.
    { simpl. destruct c; try done. destruct (step _ _).1 eqn:Ho; try done.
      by destruct (Hout vector_id). }
    repeat split; try done. by exists mds.
  - rewrite Hstep in *. cbn [fst snd added] in *.
    cbn [dimension embeddings metadata] in *.
    rewrite length_app, Nat.add_1_r in Hids.
    rewrite !fmap_cons. cbn [added_id added_data added_timestamp added_now length seq].
    split; [by rewrite Hids|]. split; [done|]. split.
    + by rewrite Hemb, <-app_assoc.
    + exists (md :: mds). rewrite Hmd, <-app_assoc. split; [done|].
      by constructor.
Qed.


(** C7. No eviction. After any run of [add_portfolio_data],
    [search_similar_portfolios], [get_context_for_query] and [get_stats] calls
    on a new store, of which [n] additions succeeded: the ids returned by
    the additions are [0 .. n-1] in the order of the calls; the store holds
    exactly [n] embeddings, [n] metadata records and [n] index rows; the i-th
    embedding and metadata record are those of the i-th addition; whatever
    the store held at an earlier point of the run is still there, unchanged
    and at the same position; and from any store at all, one call never
    removes or changes a stored vector or record. *)
Theorem store_never_evicts dim cs :
  let log := (run (__init__ dim) cs).1 in
  let self := (run (__init__ dim) cs).2 in
  let adds := added log in
  let n := length adds in
  added_id <$> adds = seq 0 n
  ∧ length (embeddings self) = n
  ∧ length (metadata self) = n
  ∧ faiss.ntotal (index self) = n
  ∧ embeddings self = (λ a, _create_embeddings dim (added_data a)) <$> adds
  ∧ faiss.xb (index self) = embeddings self
  ∧ Forall2 (λ md a,
      make_metadata (added_data a) (added_timestamp a) (added_now a) = Ok md)
      (metadata self) adds
  ∧ (∀ cs1 cs2, cs = cs1 ++ cs2 →
       let before := (run (__init__ dim) cs1).2 in
       embeddings before `prefix_of` embeddings self
       ∧ metadata before `prefix_of` metadata self
       ∧ faiss.xb (index before) `prefix_of` faiss.xb (index self))
  ∧ (∀ st c,
       embeddings st `prefix_of` embeddings (step st c).2
       ∧ metadata st `prefix_of` metadata (step st c).2
       ∧ faiss.xb (index st) `prefix_of` faiss.xb (index (step st c).2)).
Proof.
  intros log self adds n.
  destruct (run_added (__init__ dim) cs) as (Hids & _ & Hemb & mds & Hmd & Hmds).
  fold log self adds in Hids, Hemb, Hmd, Hmds. simpl in Hids, Hemb, Hmd.
  pose proof (run_consistent (__init__ dim) cs (init_consistent dim))
    as (Hlen & Hxb & _).
  fold self in Hlen, Hxb.
  assert (length (embeddings self) = n) as Hn.
  { rewrite Hemb. by rewrite length_fmap. }
  split; [done|]. split; [done|]. split; [by rewrite <-Hlen|].
  split; [unfold faiss.ntotal; by rewrite Hxb|].
  split; [done|]. split; [done|]. split; [by rewrite Hmd|]. split.
  - intros cs1 cs2 ->. simpl. unfold self. rewrite run_app. apply run_keeps.
  - apply step_keeps.
Qed.


(** *** What a search over the index returns *)















(** *** Lockstep of the three containers *)












(** *** Searching any store *)

Lemma py_index_elem {A} (l : list A) (i : Z) (x : A) : py_index l i = Ok x → x ∈ l.
Proof.
  unfold py_index. case_decide; [|done].
  destruct (l !! _) as [y|] eqn:Hy; [|done].
  intros [= <-]. by eapply list_elem_of_lookup_2.
Qed.

Lemma faiss_search_length ix q k hits :
  faiss.search ix q k = Ok hits → length hits = Z.to_nat k ∧ (0 < k)%Z.
Proof.
  unfold faiss.search. case_decide; [|done]. case_decide; [|done].
  intros [= <-]. split; [|done].
  rewrite length_app, length_replicate, length_take. lia.
Qed.

(** Whatever the ids of the hits are: the loop returns at most one result
    per hit, each with a metadata record of [md], under increasing ranks. *)
Lemma collect_results_any md i hits results :
  collect_results md i hits = Ok results →
  (length results ≤ length hits)%nat
  ∧ Forall (λ r, result_metadata r ∈ md
               ∧ (i + 1 ≤ rank r ≤ i + length hits)%nat) results
  ∧ StronglySorted (λ a b, (rank a < rank b)%nat) results.
Proof.
  revert i results. induction hits as [|[score idx] hits IH]; intros i results; simpl.
  - intros [= <-]. split; [done|]. split; constructor.
  - assert (∀ rs, collect_results md (S i) hits = Ok rs →
      (length rs ≤ length hits)%nat
      ∧ Forall (λ r, result_metadata r ∈ md
                   ∧ (S i + 1 ≤ rank r ≤ i + S (length hits))%nat) rs
      ∧ StronglySorted (λ a b, (rank a < rank b)%nat) rs) as Hrest.
    { intros rs (Hlen & Hall & Hs)%IH. split; [done|]. split; [|done].
      eapply Forall_impl; [exact Hall|]. intros r [? ?]. split; [done|lia]. }
    case_decide as Hidx.
    + intros (m & Hm%py_index_elem & Hbind)%bind_Ok.
      apply bind_Ok in Hbind as (rs & Hrs & [= <-]).
      destruct (Hrest rs Hrs) as (Hlen & Hall & Hs). simpl.
      split; [lia|]. split.
      * constructor; [simpl; split; [done|lia]|].
        eapply Forall_impl; [exact Hall|]. intros r [? ?]. split; [done|lia].
      * constructor; [done|]. eapply Forall_impl; [exact Hall|].
        intros r [_ ?]. simpl. lia.
    + intros Hrs. destruct (Hrest results Hrs) as (Hlen & Hall & Hs).
      split; [lia|]. split; [|done].
      eapply Forall_impl; [exact Hall|]. intros r [? ?]. split; [done|lia].
Qed.

(** X1. On any store at all, in lockstep or not, and for any [k],
    [search_similar_portfolios] returns at most [k] results and no more
    results than there are stored embeddings (on a store whose index lost
    rows the same record can come more than once); every result carries a
    metadata record of the store and a rank between 1 and [k], and the ranks
    increase along the list. With [k <= 0], on an untrained store or with no
    embedding stored the result is the empty list. *)
Theorem search_is_bounded self query_data k :
  let results := search_similar_portfolios self query_data k in
  (length results ≤ Z.to_nat k)%nat
  ∧ (length results ≤ length (embeddings self))%nat
  ∧ Forall (λ r, result_metadata r ∈ metadata self
               ∧ (1 ≤ rank r ≤ Z.to_nat k)%nat) results
  ∧ StronglySorted (λ a b, (rank a < rank b)%nat) results
  ∧ ((k ≤ 0)%Z ∨ is_trained self = false ∨ embeddings self = [] → results = []).
Proof.
  intros results. unfold results, search_similar_portfolios.
  destruct (search_similar_portfolios_try self query_data k) as [rs|e] eqn:Htry.
  - unfold search_similar_portfolios_try in Htry.
    destruct (negb (is_trained self) || bool_decide (length (embeddings self) = 0%nat))
      eqn:Hguard.
    + injection Htry as <-. simpl. repeat split; try constructor; lia.
    + apply orb_false_iff in Hguard as [Htrained Hlen].
      apply negb_false_iff in Htrained. apply bool_decide_eq_false in Hlen.
      apply bind_Ok in Htry as (hits & Hhits & Hrs).
      apply faiss_search_length in Hhits as [Hhits Hk].
      apply collect_results_any in Hrs as (Hlen' & Hall & Hs).
      split; [lia|]. split; [lia|]. split; [|split; [done|]].
      * eapply Forall_impl; [exact Hall|]. intros r [? ?]. split; [done|lia].
      * intros [Hk0|[Hf|Hnil]]; [lia|congruence|].
        destruct Hlen. by rewrite Hnil.
  - simpl. repeat split; try constructor; lia.
Qed.

(** *** Loading, case by case *)

(** X2. [load_index] returns True exactly when the index file holds an
    index and the metadata file a pickled dict with the four keys, and then
    the store is what the two files hold. When it returns False the trained
    flag is what it was. Without a readable index file the store is
    unchanged. With one, the index is replaced whatever follows: when the
    metadata file is missing or no pickled dict, the embeddings, the
    metadata and the dimension are what they were; when it is a dict that
    lacks only 'is_trained', they are replaced by those of the file although
    the method returns False. *)
Theorem load_index_outcomes self filepath fs :
  let r := load_index self filepath fs in
  (r.1 = true ↔
     ∃ ix p, fs !! index_path filepath = Some (IndexFile ix)
            ∧ fs !! metadata_path filepath = Some (PickleFile p))
  ∧ (∀ ix p, fs !! index_path filepath = Some (IndexFile ix) →
       fs !! metadata_path filepath = Some (PickleFile p) →
       r.2 = {| dimension := saved_dimension p; index := ix;
                embeddings := saved_embeddings p; metadata := saved_metadata p;
                is_trained := saved_is_trained p |})
  ∧ (r.1 = false → is_trained r.2 = is_trained self)
  ∧ ((∀ ix, fs !! index_path filepath ≠ Some (IndexFile ix)) → r = (false, self))
  ∧ (∀ ix, fs !! index_path filepath = Some (IndexFile ix) →
       index r.2 = ix
       ∧ ((∀ p, fs !! metadata_path filepath ≠ Some (PickleFile p)) →
          (∀ p, fs !! metadata_path filepath ≠ Some (PartialPickleFile p)) →
          r.1 = false
          ∧ embeddings r.2 = embeddings self ∧ metadata r.2 = metadata self
          ∧ dimension r.2 = dimension self)
       ∧ (∀ e m d,
            fs !! metadata_path filepath
            = Some (PartialPickleFile (LacksIsTrained e m d)) →
            r.1 = false
            ∧ embeddings r.2 = e ∧ metadata r.2 = m ∧ dimension r.2 = d)).
Proof.
  unfold load_index. cbv zeta.
  destruct (fs !! index_path filepath) as [[ix|p|p|]|] eqn:Hix.
  - destruct (fs !! metadata_path filepath) as [[ix'|p|p|]|] eqn:Hmd; simpl.
    + split; [split; [done|by intros (? & ? & ? & ?)]|]. split; [by intros|].
      split; [done|]. split; [by intros Hno; destruct (Hno ix)|].
      intros ? [= <-]. split; [done|]. split; [done|]. by intros.
    + split; [split; [by eauto|done]|]. split; [by intros ?? [= <-] [= <-]|].
      split; [done|]. split; [by intros Hno; destruct (Hno ix)|].
      intros ? [= <-]. split; [done|]. split; [|by intros].
      intros Hno. by destruct (Hno p).
    + split; [split; [done|by intros (? & ? & ? & ?)]|]. split; [by intros|].
      split; [by destruct p|]. split; [by intros Hno; destruct (Hno ix)|].
      intros ? [= <-]. split; [by destruct p|]. split.
      * intros _ Hno. by destruct (Hno p).
      * by intros e m d [= ->].
    + split; [split; [done|by intros (? & ? & ? & ?)]|]. split; [by intros|].
      split; [done|]. split; [by intros Hno; destruct (Hno ix)|].
      intros ? [= <-]. split; [done|]. split; [done|]. by intros.
    + split; [split; [done|by intros (? & ? & ? & ?)]|]. split; [by intros|].
      split; [done|]. split; [by intros Hno; destruct (Hno ix)|].
      intros ? [= <-]. split; [done|]. split; [done|]. by intros.
  - simpl. split; [split; [done|by intros (? & ? & ? & ?)]|]. split; [by intros|].
    split; [done|]. split; [done|]. by intros.
  - simpl. split; [split; [done|by intros (? & ? & ? & ?)]|]. split; [by intros|].
    split; [done|]. split; [done|]. by intros.
  - simpl. split; [split; [done|by intros (? & ? & ? & ?)]|]. split; [by intros|].
    split; [done|]. split; [done|]. by intros.
  - simpl. split; [split; [done|by intros (? & ? & ? & ?)]|]. split; [by intros|].
    split; [done|]. split; [done|]. by intros.
Qed.


(** *** How many features there are *)

Lemma portfolio_features_length portfolio fs :
  portfolio_features portfolio = Ok fs → length fs = 3%nat.
Proof.
  unfold portfolio_features. intros (a & _ & H1)%bind_Ok.
  apply bind_Ok in H1 as (b & _ & H1). by apply bind_Ok in H1 as (c & _ & [= <-]).
Qed.

Lemma performance_features_length perf fs :
  performance_features perf = Ok fs → length fs = 6%nat.
Proof. unfold performance_features. by intros ->%traverse_length. Qed.

Lemma risk_features_length risk fs : risk_features risk = Ok fs → length fs = 6%nat.
Proof.
  unfold risk_features. intros (a & _ & H1)%bind_Ok.
  apply bind_Ok in H1 as (b & _ & H1). apply bind_Ok in H1 as (c & _ & H1).
  apply bind_Ok in H1 as (d & _ & H1). apply bind_Ok in H1 as (e & _ & H1).
  by apply bind_Ok in H1 as (f & _ & [= <-]).
Qed.

Lemma sector_features_length sectors fs :
  sector_features sectors = Ok fs → (1 ≤ length fs ≤ 6)%nat.
Proof.
  unfold sector_features. intros (total & _ & H1)%bind_Ok.
  apply bind_Ok in H1 as (weights & Hweights & H1).
  apply bind_Ok in H1 as (normalized & Hnorm%traverse_length & H1).
  apply bind_Ok in H1 as (herfindahl & _ & [= <-]).
  rewrite length_app, Hnorm. simpl.
  assert (length weights ≤ 5)%nat; [|lia].
  destruct (py_truthy sectors).
  - apply bind_Ok in Hweights as (vs & _ & H2).
    apply bind_Ok in H2 as (ws & _ & [= <-]). rewrite length_take. lia.
  - injection Hweights as <-. simpl. lia.
Qed.

Lemma collect_features_length data fs :
  collect_features data = Ok fs → (length fs ≤ 21)%nat.
Proof.
  unfold collect_features. intros (f1 & H1 & Hc)%bind_Ok.
  apply bind_Ok in Hc as (f2 & H2 & Hc). apply bind_Ok in Hc as (f3 & H3 & Hc).
  apply bind_Ok in Hc as (f4 & H4 & [= <-]). rewrite !length_app.
  assert (length f1 ≤ 3)%nat.
  { destruct (data !! "portfolio_summary"); simpl in H1;
      [by rewrite (portfolio_features_length _ _ H1)|injection H1 as <-; simpl; lia]. }
  assert (length f2 ≤ 6)%nat.
  { destruct (data !! "performance_summary"); simpl in H2;
      [by rewrite (performance_features_length _ _ H2)|injection H2 as <-; simpl; lia]. }
  assert (length f3 ≤ 6)%nat.
  { destruct (data !! "risk_summary"); simpl in H3;
      [by rewrite (risk_features_length _ _ H3)|injection H3 as <-; simpl; lia]. }
  assert (length f4 ≤ 6)%nat; [|lia].
  destruct (data !! "sector_allocation"); simpl in H4;
    [by apply sector_features_length in H4 as [_ ?]|injection H4 as <-; simpl; lia].
Qed.

(** X4. An embedding carries at most 21 features (3 of the portfolio, 6 of
    the performance, 6 of the risk, at most 5 sector weights and the
    Herfindahl index): from position 21 on, every embedding is zero
    padding, whatever the data and the dimension. *)
Theorem embedding_is_padding_after_21 dimension data :
  drop 21 (_create_embeddings dimension data) = replicate (dimension - 21) 0.
Proof.
  unfold _create_embeddings. destruct (collect_features data) as [fs|e] eqn:Hfs.
  - apply collect_features_length in Hfs. rewrite pad_features_closed by lia.
    apply list_eq. intros i. rewrite lookup_drop.
    destruct (decide (21 + i < dimension)%nat) as [Hlt|Hge].
    + rewrite lookup_take_lt by done. rewrite lookup_app_r by lia.
      rewrite !lookup_replicate_2 by lia. done.
    + rewrite lookup_take_ge by lia. symmetry. apply lookup_replicate_None. lia.
  - by rewrite drop_replicate.
Qed.

(** *** Sector values that sum to zero *)

Lemma py_sum_numbers vs total :
  py_sum vs = Ok total → ∃ ws, traverse py_num vs = Ok ws ∧ total = foldl Qcplus 0 ws.
Proof. unfold py_sum. intros (ws & Hws & [= <-])%bind_Ok. by exists ws. Qed.

Lemma traverse_py_num_integers (ns : list Z) :
  traverse py_num ((λ n, PyNum (Qc_of_Z n)) <$> ns) = Ok (Qc_of_Z <$> ns).
Proof. induction ns as [|n ns IH]; [done|]. rewrite !fmap_cons. simpl. by rewrite IH. Qed.

Lemma foldl_Qcplus_integers (a : Z) (ns : list Z) :
  foldl Qcplus (Qc_of_Z a) (Qc_of_Z <$> ns) = Qc_of_Z (a + foldr Z.add 0%Z ns)%Z.
Proof.
  revert a. induction ns as [|n ns IH]; intros a; simpl.
  - by rewrite Z.add_0_r.
  - rewrite <-Z2Qc_inj_add, IH. f_equal. lia.
Qed.

(** The sum of whole numbers is the whole number that is their sum. *)
Lemma py_sum_integers (ns : list Z) :
  py_sum ((λ n, PyNum (Qc_of_Z n)) <$> ns) = Ok (Qc_of_Z (foldr Z.add 0%Z ns)).
Proof.
  unfold py_sum. rewrite traverse_py_num_integers. simpl.
  by rewrite <-Z2Qc_inj_0, foldl_Qcplus_integers.
Qed.

(** X5. When [sector_allocation] is a non-empty dict whose values are
    whole numbers that sum to zero (and are small enough for float
    additions to be exact: their absolute values sum to less than 2^53), the
    division by the total raises, the handler takes over and the embedding is
    the all-zero vector: the portfolio, performance and risk features of the
    snapshot are lost with it. *)
Theorem zero_sector_total_zeroes_embedding dimension data sectors (ns : list Z) :
  data !! "sector_allocation" = Some (PyDict sectors) →
  sectors ≠ ∅ →
  (map_to_list sectors).*2 = (λ n, PyNum (Qc_of_Z n)) <$> ns →
  (foldr Z.add 0%Z (Z.abs <$> ns) < 2 ^ 53)%Z →
  foldr Z.add 0%Z ns = 0%Z →
  _create_embeddings dimension data = replicate dimension 0.
Proof.
  intros Hdata Hne Hns _ Hzero.
  assert (py_sum ((map_to_list sectors).*2) = Ok 0) as Hsum.
  { rewrite Hns, py_sum_integers, Hzero. by rewrite Z2Qc_inj_0. }
  unfold _create_embeddings.
  assert (∃ e, sector_features (PyDict sectors) = Raise e) as [e He].
  { unfold sector_features. simpl. rewrite (bool_decide_eq_true_2 _ Hne).
    rewrite Hsum. simpl.
    destruct (py_sum_numbers _ _ Hsum) as (ws & Hws & _). rewrite Hws. simpl.
    assert (length ws ≠ 0%nat) as Hlen.
    { rewrite (traverse_length _ _ _ Hws), length_fmap.
      intros Hnil%length_zero_iff_nil. by apply map_to_list_empty_iff in Hnil. }
    destruct (take 5 (stable_sort (flip Qcle) ws)) as [|w weights] eqn:Hweights.
    - apply (f_equal length) in Hweights.
      rewrite length_take, stable_sort_length in Hweights.
      change (length (@nil Qc)) with 0%nat in Hweights. lia.
    - cbn [traverse].
      assert (py_div w 0 = Raise ZeroDivisionError) as ->; [|by eexists].
      unfold py_div. by rewrite decide_True. }
  assert (∃ e', collect_features data = Raise e') as [e' ->]; [|done].
  unfold collect_features. rewrite Hdata. simpl. rewrite He.
  destruct (from_option portfolio_features _ _); [|by eexists]. simpl.
  destruct (from_option performance_features _ _); [|by eexists]. simpl.
  destruct (from_option risk_features _ _); by eexists.
Qed.


(** *** When an addition is accepted *)

Lemma py_get_Ok_dict d key dflt v : py_get d key dflt = Ok v → ∃ m, d = PyDict m.
Proof. destruct d; try done. by eexists. Qed.

Lemma py_get_dict m key dflt : py_get (PyDict m) key dflt = Ok (default dflt (m !! key)).
Proof. done. Qed.

Lemma str_field_dict label d key s : str_field label d key = Ok s → ∃ m, d = PyDict m.
Proof. unfold str_field. by intros (v & ?%py_get_Ok_dict & _)%bind_Ok. Qed.

Lemma fmt_field_dict label d key spec s :
  fmt_field label d key spec = Ok s → ∃ m, d = PyDict m.
Proof. unfold fmt_field. by intros (v & ?%py_get_Ok_dict & _)%bind_Ok. Qed.

(** A section the summary was made from is a dict. *)
Lemma data_summary_dicts data s section p :
  _create_data_summary data = Ok s →
  section = "portfolio_summary"%string ∨ section = "performance_summary"%string →
  data !! section = Some p → ∃ m, p = PyDict m.
Proof.
  unfold _create_data_summary. intros (p1 & H1 & Hrest)%bind_Ok.
  apply bind_Ok in Hrest as (p2 & H2 & _). intros [->| ->] Hp.
  - rewrite Hp in H1. by apply bind_Ok in H1 as (a & ?%str_field_dict & _).
  - rewrite Hp in H2. by apply bind_Ok in H2 as (a & ?%fmt_field_dict & _).
Qed.

Lemma get_nested_Ok data s section key dflt :
  _create_data_summary data = Ok s →
  section = "portfolio_summary"%string ∨ section = "performance_summary"%string →
  ∃ v, get_nested data section key dflt = Ok v.
Proof.
  intros Hs Hsection. unfold get_nested.
  destruct (data !! section) as [p|] eqn:Hp; simpl; [|by eexists].
  destruct (data_summary_dicts _ _ _ _ Hs Hsection Hp) as [m ->]. by eexists.
Qed.

(** X6. On a store whose index has the dimension of the store, an addition
    fails exactly when the text summary of the snapshot cannot be made, and
    then with the exception of the summary; the embedding never makes it
    fail. When the summary can be made the snapshot is stored under the next
    id, with that summary in its metadata record. *)
Theorem add_fails_only_on_summary self data ts now :
  faiss.d (index self) = dimension self →
  (∀ e, _create_data_summary data = Raise e →
     add_portfolio_data self data ts now = Raise e)
  ∧ (∀ s, _create_data_summary data = Ok s →
       ∃ md, data_summary md = s
         ∧ add_portfolio_data self data ts now
           = Ok (length (embeddings self),
                 {| dimension := dimension self;
                    index := {| faiss.d := dimension self;
                                faiss.xb := faiss.xb (index self)
                                  ++ [_create_embeddings (dimension self) data] |};
                    embeddings := embeddings self
                      ++ [_create_embeddings (dimension self) data];
                    metadata := metadata self ++ [md];
                    is_trained := true |})).
Proof.
  intros Hd. split.
  - intros e He. unfold add_portfolio_data, make_metadata. by rewrite He.
  - intros s Hs. unfold add_portfolio_data, make_metadata. rewrite Hs. simpl.
    destruct (get_nested_Ok data s "portfolio_summary" "fund_name" (PyStr "Unknown") Hs)
      as [name ->]; [by left|].
    destruct (get_nested_Ok data s "performance_summary" "total_return" (PyNum 0) Hs)
      as [ret ->]; [by right|].
    destruct (get_nested_Ok data s "performance_summary" "volatility" (PyNum 0) Hs)
      as [vol ->]; [by right|].
    destruct (get_nested_Ok data s "portfolio_summary" "risk_level" (PyStr "Unknown") Hs)
      as [risk ->]; [by left|].
    simpl. unfold faiss.add.
    rewrite decide_True by (by rewrite create_embeddings_length).
    simpl. rewrite Hd. eexists. split; [|reflexivity]. done.
Qed.

(** *** The statistics of a store *)

(** The trained flag says whether the store holds a vector. *)
Definition trained_iff_nonempty (self : PortfolioVectorStore) : Prop :=
  is_trained self = bool_decide (embeddings self ≠ []).

Lemma step_trained self c :
  trained_iff_nonempty self → trained_iff_nonempty (step self c).2.
Proof.
  intros Ht.
  destruct (step_cases self c) as [[-> _]|(data & ts & now & md & _ & _ & ->)]; [done|].
  unfold trained_iff_nonempty. simpl. symmetry. apply bool_decide_eq_true_2.
  by intros ?%app_nil_r_inv%eq_sym%app_cons_not_nil || by destruct (embeddings self).
Qed.

Lemma run_trained self cs :
  trained_iff_nonempty self → trained_iff_nonempty (run self cs).2.
Proof.
  revert self. induction cs as [|c cs IH]; intros self Ht; [done|].
  rewrite run_cons. simpl. by apply IH, step_trained.
Qed.

(** X7. After any run of calls on a new store, of which [n] additions
    succeeded, [get_stats] reports [n] vectors, an index of [n] rows, the
    dimension the store was made with, and a trained flag that is set
    exactly when [n] is not zero. *)
Theorem stats_after_run dim cs :
  let n := length (added (run (__init__ dim) cs).1) in
  get_stats (run (__init__ dim) cs).2
  = {| total_vectors := n; stats_dimension := dim;
       stats_is_trained := bool_decide (n ≠ 0%nat); index_size := n |}.
Proof.
  intros n.
  destruct (run_added (__init__ dim) cs) as (_ & Hdim & Hemb & _).
  pose proof (run_consistent (__init__ dim) cs (init_consistent dim)) as (_ & Hxb & _).
  pose proof (run_trained (__init__ dim) cs eq_refl) as Ht.
  fold n in Hemb. simpl in Hdim, Hemb.
  assert (length (embeddings (run (__init__ dim) cs).2) = n) as Hn.
  { rewrite Hemb. by rewrite length_fmap. }
  unfold get_stats, faiss.ntotal. rewrite Hxb, Hn, Hdim, Ht. f_equal.
  apply bool_decide_ext. rewrite <-Hn. by rewrite length_zero_iff_nil.
Qed.


(** *** The context of a query *)

Lemma traverse_Raise {A B} (f : A → result B) (l : list A) (x : A) :
  x ∈ l → succeeds (f x) = false → succeeds (traverse f l) = false.
Proof.
  induction l as [|y l IH]; [by intros ?%elem_of_nil|].
  intros [->|Hx]%elem_of_cons Hf; simpl.
  - by destruct (f y).
  - destruct (f y); [|done]. simpl. specialize (IH Hx Hf).
    by destruct (traverse f l).
Qed.

Lemma bind_fails {A B} (m : result A) (k : A → result B) :
  (∀ a, succeeds (k a) = false) → succeeds (m ≫= k) = false.
Proof. intros Hk. destruct m; [apply Hk|done]. Qed.

(** X8. A question about holdings or sectors (one that mentions neither
    risk, performance nor return) reads the first three entries of
    [top_holdings]. When one of them is no dict, or a dict without its
    Asset_Name or its Weight_Percent, the whole context is given up: the
    method returns its fallback sentence, without the summary of the current
    portfolio and without the similar periods. *)
Theorem bad_holding_discards_context self query data hs h :
  let query_lower := py_lower query in
  py_contains "risk" query_lower = false →
  py_contains "performance" query_lower || py_contains "return" query_lower = false →
  py_contains "holding" query_lower || py_contains "sector" query_lower = true →
  data !! "top_holdings" = Some (PyList hs) →
  h ∈ take 3 hs →
  (∀ m, h = PyDict m → m !! "Asset_Name" = None ∨ m !! "Weight_Percent" = None) →
  get_context_for_query self query data
  = "Current portfolio data available for analysis."%string.
Proof.
  intros query_lower Hrisk Hperf Hhold Hdata Hh Hbad.
  assert (succeeds (holding_line h) = false) as Hline.
  { unfold holding_line. destruct h as [| | | |m]; try done.
    destruct (Hbad m eq_refl) as [-> | ->]; [done|]. by destruct (m !! "Asset_Name"). }
  assert (succeeds (query_context query_lower data) = false) as Hq.
  { unfold query_context. rewrite Hrisk, Hperf, Hhold, Hdata.
    pose proof (traverse_Raise holding_line (take 3 hs) h Hh Hline) as Ht.
    by destruct (traverse holding_line (take 3 hs)). }
  unfold get_context_for_query.
  assert (succeeds (get_context_for_query_try self query data) = false) as Htry.
  { unfold get_context_for_query_try. apply bind_fails. intros current.
    apply bind_fails. intros similar. fold query_lower.
    by destruct (query_context query_lower data). }
  by destruct (get_context_for_query_try self query data).
Qed.

(** X9. With nothing to search (a store that is untrained or holds no
    embedding) and a snapshot that has none of the sections
    portfolio_summary, risk_summary, performance_summary and top_holdings,
    the context of any query is the empty text, not the fallback sentence. *)
Theorem empty_context self query data :
  is_trained self = false ∨ embeddings self = [] →
  data !! "portfolio_summary" = None →
  data !! "risk_summary" = None →
  data !! "performance_summary" = None →
  data !! "top_holdings" = None →
  get_context_for_query self query data = ""%string.
Proof.
  intros Hstore Hp Hr Hperf Hh.
  assert (search_similar_portfolios self data 2 = []) as Hsearch.
  { unfold search_similar_portfolios, search_similar_portfolios_try.
    destruct Hstore as [-> | ->]; [done|]. simpl. by rewrite orb_true_r. }
  assert (query_context (py_lower query) data = Ok []) as Hq.
  { unfold query_context. rewrite Hr, Hperf, Hh. by repeat case_match. }
  unfold get_context_for_query, get_context_for_query_try.
  rewrite Hsearch, Hq, Hp. done.
Qed.

End with_runtime.

(** Two snapshots to evaluate the store on. *)
Definition snapshot_a : gmap string pyval :=
  {[ "performance_summary"%string :=
       PyDict {[ "total_return"%string := PyNum (Qc_of_Z 3);
                 "volatility"%string := PyNum (Qc_of_Z 2) ]} ]}.








(** A snapshot whose two sector values cancel out. *)
Definition cancelling_sectors : gmap string pyval :=
  {[ "Energy"%string := PyNum (Qc_of_Z (-4)); "Technology"%string := PyNum (Qc_of_Z 4) ]}.

Definition cancelling_snapshot : gmap string pyval :=
  {[ "portfolio_summary"%string :=
       PyDict {[ "total_holdings"%string := PyNum (Qc_of_Z 12) ]};
     "sector_allocation"%string := PyDict cancelling_sectors ]}.

Lemma zero_sector_total_zeroes_embedding_witness :
  @_create_embeddings example_runtime 4 cancelling_snapshot = [0; 0; 0; 0].
Proof.
  apply (@zero_sector_total_zeroes_embedding example_runtime 4
           cancelling_snapshot cancelling_sectors [(-4)%Z; 4%Z]).
  - vm_compute. reflexivity.
  - intros Heq. apply (f_equal (λ m : gmap string pyval, m !! "Energy")) in Heq.
    vm_compute in Heq. discriminate.
  - vm_compute. reflexivity.
  - reflexivity.
  - reflexivity.
Defined.


Lemma add_fails_only_on_summary_witness :
  faiss.d (index (__init__ 8)) = dimension (__init__ 8)
  ∧ succeeds (@add_portfolio_data example_runtime (__init__ 8) snapshot_a None
                "2024-01-01")
    = true.
Proof.
  split; [reflexivity|].
  destruct (@add_fails_only_on_summary example_runtime (__init__ 8) snapshot_a None
              "2024-01-01" eq_refl) as [_ Hok].
  destruct (Hok _ ltac:(vm_compute; reflexivity)) as (md & _ & ->). reflexivity.
Defined.

(** A snapshot whose first holding has no Weight_Percent. *)
Definition unweighted_holding : pyval :=
  PyDict {[ "Asset_Name"%string := PyStr "Treasury Bond" ]}.

Definition unweighted_snapshot : gmap string pyval :=
  {[ "portfolio_summary"%string := PyDict {[ "fund_name"%string := PyStr "Fund" ]};
     "top_holdings"%string := PyList [unweighted_holding] ]}.

Lemma bad_holding_discards_context_witness :
  @get_context_for_query example_runtime (__init__ 8) "Which holding is the largest?"
    unweighted_snapshot
  = "Current portfolio data available for analysis."%string.
Proof.
  apply (@bad_holding_discards_context example_runtime (__init__ 8)
           "Which holding is the largest?" unweighted_snapshot
           [unweighted_holding] unweighted_holding).
  - vm_compute. reflexivity.
  - vm_compute. reflexivity.
  - vm_compute. reflexivity.
  - vm_compute. reflexivity.
  - simpl. left.
  - intros m [= <-]. right. vm_compute. reflexivity.
Defined.

Lemma empty_context_witness :
  @get_context_for_query example_runtime (__init__ 8) "How risky is the fund?" ∅
  = ""%string.
Proof.
  apply (@empty_context example_runtime (__init__ 8) "How risky is the fund?" ∅).
  - left. reflexivity.
  - apply lookup_empty.
  - apply lookup_empty.
  - apply lookup_empty.
  - apply lookup_empty.
Defined.

End vector_store.

(** * backend/data_processor.py

    The pandas library is not part of the repository. A sheet is a
    [DataFrame]: its column names and its rows, each row a map from column
    name to cell. A cell is a number, a text, a timestamp or missing ([CNull]:
    an empty cell, NaN or NaT). The pandas operations the processor calls are
    modelled from their documentation: [to_datetime] and [to_numeric] cell by
    cell, [sort_values] ascending with missing keys last, [nlargest] by
    decreasing value with missing values last and ties in sheet order,
    [groupby(...).sum()] over the rows whose key is present, skipping missing
    values. A sum is that of the dtype of its column: int64 additions wrap
    around, float64 additions round, and the rounded sums are left to
    [PandasRuntime], which is held to give the exact sum where nothing
    rounds. Reading text as a number or as a date is left to [PandasRuntime]
    too. *)

Module data_processor.

Inductive cell :=
| CNum (x : Qc)
| CStr (s : string)
| CDate (t : Z)
| CNull.

#[global] Instance cell_eq_dec : EqDecision cell.
Proof. solve_decision. Defined.

Record DataFrame := {
  columns : list string;
  rows : list (gmap string cell);
}.

(** Whole numbers whose absolute values sum to less than 2^53. Every
    partial sum of such numbers, in any order, is a whole number below 2^53
    in absolute value, which a float64 holds; so their float64 additions
    round nothing, whatever the order the library adds them in. *)
Definition small_whole_numbers (xs : list Qc) : Prop :=
  Forall (λ x : Qc, Qden x = 1%positive) xs
  ∧ (foldr Z.add 0%Z ((λ x : Qc, Z.abs (Qnum x)) <$> xs) < 2 ^ 53)%Z.

Class PandasRuntime := {
  (** a text read as a number, [None] when it is none *)
  parse_numeric : string → option Qc;
  (** a text read as a timestamp, [None] when the parser raises *)
  parse_datetime : string → option Z;
  (** [Series.sum()] over a float64 column, given its numbers in row order
      (missing values are skipped); the result is taken to be finite *)
  series_float_sum : list Qc → Qc;
  (** the sum that [groupby(...)[col].sum()] gives for one group of a
      float64 column, given the numbers of the group in row order *)
  group_float_sum : list Qc → Qc;
  (** where no float64 addition rounds, the two are the sum *)
  series_float_sum_exact xs :
    small_whole_numbers xs → series_float_sum xs = foldr Qcplus 0 xs;
  group_float_sum_exact xs :
    small_whole_numbers xs → group_float_sum xs = foldr Qcplus 0 xs;
}.

(** [self.processed_data]: the five keys [_calculate_metrics] may set. *)
Record ProcessedData := {
  portfolio_summary : option (gmap string cell);
  top_holdings : option (list (gmap string cell));
  sector_allocation : option (list (cell * Qc));
  performance_summary : option (gmap string cell);
  risk_summary : option (gmap string cell);
}.

Definition expected_sheets : list string :=
  ["Portfolio_Overview"; "Holdings_Detail"; "Historical_Performance";
   "Benchmarks"; "Risk_Metrics"; "Cash_Flows"; "Market_Data"]%string.

(** The validation loop: the first expected sheet that is missing raises. *)
Fixpoint validate_sheets (expected : list string) (excel_data : gmap string DataFrame)
    : result unit :=
  match expected with
  | [] => Ok ()
  | sheet :: expected' =>
      match excel_data !! sheet with
      | Some _ => validate_sheets expected' excel_data
      | None => Raise (ValueError ("Missing required sheet: " +:+ sheet))
      end
  end.

(** The cell of a row under a column. *)
Definition get_cell (r : gmap string cell) (col : string) : cell :=
  default CNull (r !! col).

Definition cell_num (c : cell) : option Qc :=
  match c with CNum x => Some x | _ => None end.

Definition cell_date (c : cell) : option Z :=
  match c with CDate t => Some t | _ => None end.

(** A number or a missing value: what a numeric column holds. *)
Definition plain_number (c : cell) : bool :=
  match c with CNum _ | CNull => true | _ => false end.

(** The whole number of a cell that an int64 column can hold. *)
Definition int64_value (c : cell) : option Z :=
  match c with
  | CNum x =>
      if bool_decide (Qden x = 1%positive ∧ (- 2 ^ 63 ≤ Qnum x < 2 ^ 63)%Z)
      then Some (Qnum x) else None
  | _ => None
  end.

(** The dtype of a numeric column is int64 when every cell is a whole
    number that an int64 holds and no cell is missing; the numbers of the
    column then. Every other numeric column is float64. (A text cell that
    [pd.to_numeric] reads as a whole number counts as an integer here, as
    '5' is; a text such as '5.0', which makes the column float64, is not
    told apart from it. The two dtypes give different sums only beyond
    2^53.) *)
Definition int64_column (column : list cell) : option (list Z) :=
  mapM int64_value column.

(** The int64 that has the low 64 bits of [n]. *)
Definition wrap64 (n : Z) : Z := ((n + 2 ^ 63) `mod` 2 ^ 64 - 2 ^ 63)%Z.

(** The sum of int64 numbers: int64 additions wrap around. *)
Definition int64_sum (ns : list Z) : Z := wrap64 (foldr Z.add 0%Z ns).

Section with_pandas.
Context `{PandasRuntime}.

(** [pd.to_datetime], one cell: a text that does not parse raises; a number
    counts nanoseconds. *)
Definition to_datetime (c : cell) : result cell :=
  match c with
  | CDate t => Ok (CDate t)
  | CNull => Ok CNull
  | CNum x => Ok (CDate (Qfloor x))
  | CStr s => match parse_datetime s with
              | Some t => Ok (CDate t)
              | None => Raise (ValueError "Unknown datetime string format")
              end
  end.

(** [pd.to_numeric(errors='coerce')], one cell: what is no number becomes
    missing; a timestamp is its nanosecond count. *)
Definition to_numeric (c : cell) : result cell :=
  match c with
  | CNum x => Ok (CNum x)
  | CNull => Ok CNull
  | CDate t => Ok (CNum (Qc_of_Z t))
  | CStr s => match parse_numeric s with
              | Some x => Ok (CNum x)
              | None => Ok CNull
              end
  end.

(** [df[col] = f(df[col])]; a column the sheet does not have is a KeyError *)
Definition map_column (f : cell → result cell) (col : string) (df : DataFrame)
    : result DataFrame :=
  if decide (col ∈ columns df) then
    rows' ← traverse (λ r, c ← f (get_cell r col); Ok (<[col := c]> r)) (rows df);
    Ok {| columns := columns df; rows := rows' |}
  else Raise (KeyError col).

(** The same assignment for several columns, one after the other. *)
Fixpoint map_columns (f : cell → result cell) (cols : list string) (df : DataFrame)
    : result DataFrame :=
  match cols with
  | [] => Ok df
  | col :: cols' => df' ← map_column f col df; map_columns f cols' df'
  end.

Definition date_le (a b : gmap string cell) : Prop :=
  (default 0 (cell_date (get_cell a "Date")) ≤ default 0 (cell_date (get_cell b "Date")))%Z.

#[global] Instance date_le_dec : RelDecision date_le.
Proof. intros a b. unfold date_le. apply _. Defined.

Definition has_date (r : gmap string cell) : bool :=
  bool_decide (is_Some (cell_date (get_cell r "Date"))).

(** [df.sort_values('Date')]: ascending, rows without a date last *)
Definition sort_values_date (df : DataFrame) : DataFrame :=
  {| columns := columns df; rows := missing_last date_le has_date (rows df) |}.

(** [df.select_dtypes(include=[np.number]).columns]: the columns that hold
    numbers and missing values only *)
Definition numeric_columns (df : DataFrame) : list string :=
  filter (λ col, forallb (λ r, plain_number (get_cell r col)) (rows df) = true)
    (columns df).

Definition clean_time_series (df : DataFrame) : result DataFrame :=
  df1 ← map_column to_datetime "Date" df;
  let df2 := sort_values_date df1 in
  map_columns to_numeric (numeric_columns df2) df2.

(** [if name in self.data: self.data[name] = f(self.data[name])] *)
Definition clean_sheet (f : DataFrame → result DataFrame) (name : string)
    (data : gmap string DataFrame) : result (gmap string DataFrame) :=
  match data !! name with
  | Some df => df' ← f df; Ok (<[name := df']> data)
  | None => Ok data
  end.

Definition clean_portfolio_overview (df : DataFrame) : result DataFrame :=
  df1 ← map_columns to_datetime ["Inception_Date"; "Last_Updated"]%string df;
  map_columns to_numeric ["Total_AUM"; "Target_Return"]%string df1.

Definition clean_holdings_detail (df : DataFrame) : result DataFrame :=
  df1 ← map_column to_datetime "Purchase_Date" df;
  map_columns to_numeric
    ["Market_Value"; "Units_Held"; "Average_Cost"; "Current_Price";
     "Weight_Percent"; "Dividend_Yield"]%string df1.

Definition time_series_sheets : list string :=
  ["Historical_Performance"; "Benchmarks"; "Risk_Metrics"; "Cash_Flows";
   "Market_Data"]%string.

Fixpoint clean_sheets (f : DataFrame → result DataFrame) (names : list string)
    (data : gmap string DataFrame) : result (gmap string DataFrame) :=
  match names with
  | [] => Ok data
  | name :: names' => data' ← clean_sheet f name data; clean_sheets f names' data'
  end.

Definition _clean_data (data : gmap string DataFrame) : result (gmap string DataFrame) :=
  data1 ← clean_sheet clean_portfolio_overview "Portfolio_Overview" data;
  data2 ← clean_sheet clean_holdings_detail "Holdings_Detail" data1;
  clean_sheets clean_time_series time_series_sheets data2.


(** [row[col]] for a row of [df] *)
Definition row_get (df : DataFrame) (r : gmap string cell) (col : string) : result cell :=
  if decide (col ∈ columns df) then Ok (get_cell r col) else Raise (KeyError col).

(** [df[col]] *)
Definition column (df : DataFrame) (col : string) : result (list cell) :=
  if decide (col ∈ columns df) then Ok ((λ r, get_cell r col) <$> rows df)
  else Raise (KeyError col).

(** [df.iloc[i]] *)
Definition iloc (df : DataFrame) (i : Z) : result (gmap string cell) :=
  py_index (rows df) i.

(** [series.sum()]: missing values are skipped; an int64 column is summed
    in int64, every other column in float64. *)
Definition series_sum (column : list cell) : Qc :=
  match int64_column column with
  | Some ns => Qc_of_Z (int64_sum ns)
  | None => series_float_sum (omap cell_num column)
  end.

(** The sum of one group of [groupby(...)[col].sum()]: [group] holds the
    cells of the rows of the group, [column] those of all rows, whose dtype
    is that of the sums. *)
Definition group_sum (column group : list cell) : Qc :=
  match int64_column column with
  | Some _ => Qc_of_Z (int64_sum (omap int64_value group))
  | None => group_float_sum (omap cell_num group)
  end.

(** A dict literal [{key: row[col], ...}] *)
Definition summary_of (df : DataFrame) (r : gmap string cell)
    (fields : list (string * string)) : result (gmap string cell) :=
  kvs ← traverse (λ kc, c ← row_get df r kc.2; Ok (kc.1, c)) fields;
  Ok (list_to_map kvs).

Definition value_of (col : string) (r : gmap string cell) : option Qc :=
  cell_num (get_cell r col).

Definition value_ge (col : string) (a b : gmap string cell) : Prop :=
  default 0 (value_of col b) ≤ default 0 (value_of col a).

#[global] Instance value_ge_dec col : RelDecision (value_ge col).
Proof. intros a b. unfold value_ge. apply _. Defined.

Definition has_value (col : string) (r : gmap string cell) : bool :=
  bool_decide (is_Some (value_of col r)).

Definition is_text (c : cell) : bool :=
  match c with CStr _ => true | _ => false end.

(** [df.nlargest(n, col)]: a column of texts has no order for it (TypeError);
    rows with a value come by decreasing value, ties in sheet order, rows
    without one after them, and the first [n] are kept. *)
Definition nlargest (n : nat) (col : string) (df : DataFrame) : result DataFrame :=
  if decide (col ∈ columns df) then
    if existsb (λ r, is_text (get_cell r col)) (rows df) then Raise TypeError
    else
      Ok {| columns := columns df;
            rows := take n (missing_last (value_ge col) (has_value col) (rows df)) |}
  else Raise (KeyError col).

(** [df[cols].to_dict('records')] *)
Definition select_records (cols : list string) (df : DataFrame)
    : result (list (gmap string cell)) :=
  match filter (λ c, c ∉ columns df) cols with
  | [] => Ok ((λ r, list_to_map ((λ c, (c, get_cell r c)) <$> cols)) <$> rows df)
  | c :: _ => Raise (KeyError c)
  end.

Definition total_ge (a b : cell * Qc) : Prop := b.2 ≤ a.2.

#[global] Instance total_ge_dec : RelDecision total_ge.
Proof. intros a b. unfold total_ge. apply _. Defined.

(** The rows of a group. *)
Definition group_rows (key : string) (k : cell) (df : DataFrame)
    : list (gmap string cell) :=
  filter (λ r, get_cell r key = k) (rows df).

(** [df.groupby(key)[col].sum().sort_values(ascending=False).to_dict()]:
    one entry per key that occurs, rows with a missing key left out, by
    decreasing sum. *)
Definition groupby_sum_sorted (key col : string) (df : DataFrame)
    : result (list (cell * Qc)) :=
  if decide (key ∈ columns df) then
    if decide (col ∈ columns df) then
      let keys := remove_dups
                    (filter (λ k, k ≠ CNull) ((λ r, get_cell r key) <$> rows df)) in
      Ok (stable_sort total_ge
            ((λ k, (k, group_sum ((λ r, get_cell r col) <$> rows df)
                         ((λ r, get_cell r col) <$> group_rows key k df)))
               <$> keys))
    else Raise (KeyError col)
  else Raise (KeyError key).

Definition calc_portfolio_summary (data : gmap string DataFrame)
    : result (option (gmap string cell)) :=
  match data !! "Portfolio_Overview", data !! "Holdings_Detail" with
  | Some overview, Some holdings =>
      portfolio ← iloc overview 0;
      s1 ← summary_of overview portfolio
             [("fund_name", "Fund_Name"); ("total_aum", "Total_AUM");
              ("base_currency", "Base_Currency"); ("target_return", "Target_Return");
              ("risk_level", "Risk_Level"); ("benchmark", "Benchmark")]%string;
      values ← column holdings "Market_Value";
      inception ← row_get overview portfolio "Inception_Date";
      Ok (Some (<["inception_date" := inception]>
                 (<["total_market_value" := CNum (series_sum values)]>
                   (<["total_holdings" := CNum (Qc_of_Z (Z.of_nat (length (rows holdings))))]>
                     s1))))
  | _, _ => Ok None
  end.

Definition top_holdings_columns : list string :=
  ["Asset_Name"; "Ticker_Symbol"; "Market_Value"; "Weight_Percent"; "Sector"]%string.

Definition calc_top_holdings (data : gmap string DataFrame)
    : result (option (list (gmap string cell))) :=
  match data !! "Holdings_Detail" with
  | Some holdings =>
      largest ← nlargest 10 "Market_Value" holdings;
      records ← select_records top_holdings_columns largest;
      Ok (Some records)
  | None => Ok None
  end.

Definition calc_sector_allocation (data : gmap string DataFrame)
    : result (option (list (cell * Qc))) :=
  match data !! "Holdings_Detail" with
  | Some holdings => Some <$> groupby_sum_sorted "Sector" "Market_Value" holdings
  | None => Ok None
  end.

(** [latest = df.iloc[-1]] and the dict read off it *)
Definition calc_latest (name : string) (fields : list (string * string))
    (data : gmap string DataFrame) : result (option (gmap string cell)) :=
  match data !! name with
  | Some df => latest ← iloc df (-1); Some <$> summary_of df latest fields
  | None => Ok None
  end.

Definition performance_fields : list (string * string) :=
  [("current_value", "Portfolio_Value"); ("total_return", "Cumulative_Return");
   ("daily_return", "Daily_Return"); ("volatility", "Volatility");
   ("sharpe_ratio", "Sharpe_Ratio"); ("max_drawdown", "Max_Drawdown");
   ("active_return", "Active_Return")]%string.

Definition risk_fields : list (string * string) :=
  [("portfolio_beta", "Portfolio_Beta"); ("var_95", "VaR_95"); ("cvar_95", "CVaR_95");
   ("tracking_error", "Tracking_Error");
   ("correlation_benchmark", "Correlation_Benchmark");
   ("concentration_risk", "Concentration_Risk");
   ("liquidity_score", "Liquidity_Score")]%string.

Definition _calculate_metrics (data : gmap string DataFrame) : result ProcessedData :=
  summary ← calc_portfolio_summary data;
  top ← calc_top_holdings data;
  sectors ← calc_sector_allocation data;
  perf ← calc_latest "Historical_Performance" performance_fields data;
  risk ← calc_latest "Risk_Metrics" risk_fields data;
  Ok {| portfolio_summary := summary; top_holdings := top;
        sector_allocation := sectors; performance_summary := perf;
        risk_summary := risk |}.

(** [load_excel_file] on the sheets [pd.read_excel(..., sheet_name=None)]
    returned: the cleaned sheets ([self.data], the return value) and
    [self.processed_data]; every exception is logged and raised again. *)
Definition load_excel_file (excel_data : gmap string DataFrame)
    : result (gmap string DataFrame * ProcessedData) :=
  _ ← validate_sheets expected_sheets excel_data;
  data ← _clean_data excel_data;
  processed ← _calculate_metrics data;
  Ok (data, processed).


(** [df[cols]] for a list of labels: a label the sheet does not have is a
    KeyError; the result has the columns [cols], in that order. *)
Definition select_columns (cols : list string) (df : DataFrame) : result DataFrame :=
  match filter (λ c, c ∉ columns df) cols with
  | [] => Ok {| columns := cols;
                rows := (λ r, list_to_map ((λ c, (c, get_cell r c)) <$> cols))
                          <$> rows df |}
  | c :: _ => Raise (KeyError c)
  end.

(** [get_time_series_data]; [None] and the empty list of columns are both
    false and give the whole sheet. *)
Definition get_time_series_data (data : gmap string DataFrame) (sheet_name : string)
    (cols : option (list string)) : result DataFrame :=
  match data !! sheet_name with
  | None => Raise (ValueError ("Sheet " +:+ sheet_name +:+ " not found"))
  | Some df =>
      match cols with
      | Some (c :: cs) =>
          select_columns ("Date"%string :: filter (λ col, col ∈ columns df) (c :: cs)) df
      | _ => Ok df
      end
  end.


(** *** Sheet validation *)

Lemma validate_sheets_present expected excel_data :
  Forall (λ sheet, is_Some (excel_data !! sheet)) expected →
  validate_sheets expected excel_data = Ok ().
Proof.
  induction 1 as [|sheet expected [df Hdf] _ IH]; simpl; [done|]. by rewrite Hdf.
Qed.

Lemma validate_sheets_raises expected excel_data e :
  validate_sheets expected excel_data = Raise e →
  ∃ missing, missing ∈ expected ∧ excel_data !! missing = None
    ∧ e = ValueError ("Missing required sheet: " +:+ missing).
Proof.
  induction expected as [|sheet expected IH]; simpl; [done|].
  destruct (excel_data !! sheet) as [df|] eqn:Hsheet.
  - intros (missing & Hin & Hmissing & ->)%IH. exists missing.
    split; [by right|done].
  - intros [= <-]. exists sheet. split; [by left|done].
Qed.

Lemma validate_sheets_missing expected excel_data sheet :
  sheet ∈ expected → excel_data !! sheet = None →
  ∃ e, validate_sheets expected excel_data = Raise e.
Proof.
  induction expected as [|sheet' expected IH]; simpl; [by intros ?%elem_of_nil|].
  intros Hin Hnone. destruct (excel_data !! sheet') as [df|] eqn:Hsheet'; [|by eexists].
  apply elem_of_cons in Hin as [->|Hin]; [congruence|by apply IH].
Qed.

(** C3. [load_excel_file] raises the ValueError "Missing required sheet:
    <name>", naming a sheet that is missing, whenever one of the seven
    required sheets is absent from the workbook; the sheet validation raises
    in no other case, and a workbook with all seven sheets passes it. *)
Theorem missing_sheet_raises excel_data :
  expected_sheets
  = ["Portfolio_Overview"; "Holdings_Detail"; "Historical_Performance";
     "Benchmarks"; "Risk_Metrics"; "Cash_Flows"; "Market_Data"]%string
  ∧ (∀ sheet, sheet ∈ expected_sheets → excel_data !! sheet = None →
       ∃ missing,
         missing ∈ expected_sheets ∧ excel_data !! missing = None
         ∧ load_excel_file excel_data
           = Raise (ValueError ("Missing required sheet: " +:+ missing)))
  ∧ (∀ e, validate_sheets expected_sheets excel_data = Raise e →
       ∃ missing,
         missing ∈ expected_sheets ∧ excel_data !! missing = None
         ∧ e = ValueError ("Missing required sheet: " +:+ missing))
  ∧ (Forall (λ sheet, is_Some (excel_data !! sheet)) expected_sheets →
       validate_sheets expected_sheets excel_data = Ok ()).
Proof.
  split; [done|]. split; [|split].
  - intros sheet Hin Hnone.
    destruct (validate_sheets_missing _ _ _ Hin Hnone) as [e He].
    destruct (validate_sheets_raises _ _ _ He) as (missing & Hm & Hmnone & ->).
    exists missing. split; [done|]. split; [done|].
    unfold load_excel_file. by rewrite He.
  - apply validate_sheets_raises.
  - apply validate_sheets_present.
Qed.


(** *** Orders used by the processor *)

#[global] Instance value_ge_total col : Total (value_ge col).
Proof. intros a b. unfold value_ge. destruct (total Qcle (default 0 (value_of col a)) (default 0 (value_of col b))); auto. Qed.

#[global] Instance value_ge_trans col : Transitive (value_ge col).
Proof. intros a b c ??. unfold value_ge in *. by etrans. Qed.

#[global] Instance total_ge_total : Total total_ge.
Proof. intros a b. unfold total_ge. destruct (total Qcle a.2 b.2); auto. Qed.

#[global] Instance total_ge_trans : Transitive total_ge.
Proof. intros a b c ??. unfold total_ge in *. by etrans. Qed.

#[global] Instance date_le_total : Total date_le.
Proof. intros a b. unfold date_le. lia. Qed.

#[global] Instance date_le_trans : Transitive date_le.
Proof. intros a b c ??. unfold date_le in *. lia. Qed.

(** *** The largest holdings *)

(** [r] is not smaller than [r'] under [col]: [r'] has no value, or both
    have one and that of [r'] is at most that of [r]. *)
Definition not_smaller (col : string) (r r' : gmap string cell) : Prop :=
  value_of col r' = None
  ∨ ∃ x x', value_of col r = Some x ∧ value_of col r' = Some x' ∧ x' ≤ x.

(** The row order [nlargest] takes its first rows from. *)
Definition largest_first (col : string) (l : list (gmap string cell))
    : list (gmap string cell) :=
  missing_last (value_ge col) (has_value col) l.

Lemma largest_first_Permutation col l : largest_first col l ≡ₚ l.
Proof. apply missing_last_Permutation. Qed.

Lemma has_value_true col r : has_value col r = true → ∃ x, value_of col r = Some x.
Proof. unfold has_value. intros [x Hx]%bool_decide_eq_true. by exists x. Qed.

Lemma has_value_false col r : has_value col r = false → value_of col r = None.
Proof.
  unfold has_value. intros Hf%bool_decide_eq_false.
  destruct (value_of col r) eqn:Hv; [|done]. destruct Hf. by eexists.
Qed.

Lemma largest_first_sorted col l : StronglySorted (not_smaller col) (largest_first col l).
Proof.
  eapply StronglySorted_impl; [|apply missing_last_sorted; apply _].
  intros r r' [Hr'|(Hr & Hr' & Hge)].
  - left. by apply has_value_false.
  - apply has_value_true in Hr as [x Hx]. apply has_value_true in Hr' as [x' Hx'].
    right. exists x, x'. split; [done|]. split; [done|].
    unfold value_ge in Hge. by rewrite Hx, Hx' in Hge.
Qed.

Lemma nlargest_Ok n col df largest :
  nlargest n col df = Ok largest →
  columns largest = columns df
  ∧ rows largest = take n (largest_first col (rows df)).
Proof.
  unfold nlargest. case_decide; [|done].
  destruct (existsb _ _); [done|]. by intros [= <-].
Qed.

Lemma select_records_Ok cols df records :
  select_records cols df = Ok records →
  Forall2 (λ rec r,
      dom rec =@{gset string} list_to_set cols
      ∧ ∀ c, c ∈ cols → rec !! c = Some (get_cell r c))
    records (rows df).
Proof.
  unfold select_records. destruct (filter _ cols); [|done]. intros [= <-].
  apply Forall2_fmap_l, Forall_Forall2_diag, Forall_forall. intros r _. split.
  - rewrite dom_list_to_map_L. f_equal.
    rewrite <-list_fmap_compose.
    assert (∀ l : list string,
      (fst ∘ (λ c : string, (c, get_cell r c))) <$> l = l) as ->; [|done].
    intros l. induction l as [|c l IH]; [done|]. rewrite fmap_cons. by rewrite IH.
  - intros c Hc. apply elem_of_list_to_map_1'.
    + intros x Hx. by apply list_elem_of_fmap in Hx as (c' & [= <- ->] & _).
    + apply list_elem_of_fmap. by exists c.
Qed.


(** *** Sums

    Where the numbers are whole and small, the sums of the library are
    the sums; on an int64 column they are the sums modulo 2^64. *)

(** The number of a row under a column, when the cell holds one. *)
Definition number_of (col : string) (r : gmap string cell) : option Qc :=
  match r !! col with Some (CNum x) => Some x | _ => None end.

Lemma cell_num_get_cell col r : cell_num (get_cell r col) = number_of col r.
Proof. unfold get_cell, number_of. by destruct (r !! col) as [[]|]. Qed.

Lemma numbers_of_rows col (rs : list (gmap string cell)) :
  omap cell_num ((λ r, get_cell r col) <$> rs) = omap (number_of col) rs.
Proof.
  induction rs as [|r rs IH]; [done|].
  rewrite fmap_cons. cbn [omap list_omap]. by rewrite cell_num_get_cell, IH.
Qed.

Lemma whole_Qc (x : Qc) : Qden x = 1%positive → x = Qc_of_Z (Qnum x).
Proof.
  intros Hden. apply Qc_is_canon. unfold Qc_of_Z. cbn [this].
  destruct x as [[n d] Hx]. simpl in *. by subst d.
Qed.

Lemma Qc_of_Z_whole (n : Z) : Qnum (Qc_of_Z n) = n ∧ Qden (Qc_of_Z n) = 1%positive.
Proof.
  done.
Qed.

Lemma int64_value_Some c n :
  int64_value c = Some n → c = CNum (Qc_of_Z n) ∧ (- 2 ^ 63 ≤ n < 2 ^ 63)%Z.
Proof.
  destruct c as [x| | |]; simpl; try done. case_bool_decide as Hx; [|done].
  intros [= <-]. destruct Hx as [Hden Hrange]. split; [|done].
  by rewrite <-whole_Qc.
Qed.

Lemma int64_value_of_Z n :
  (- 2 ^ 63 ≤ n < 2 ^ 63)%Z → int64_value (CNum (Qc_of_Z n)) = Some n.
Proof.
  intros Hn. simpl. by rewrite bool_decide_eq_true_2.
Qed.

Lemma wrap64_small n : (- 2 ^ 63 ≤ n < 2 ^ 63)%Z → wrap64 n = n.
Proof. intros Hn. unfold wrap64. rewrite Z.mod_small; lia. Qed.

Lemma abs_sum (ns : list Z) :
  (Z.abs (foldr Z.add 0 ns) ≤ foldr Z.add 0 (Z.abs <$> ns))%Z.
Proof.
  induction ns as [|n ns IH]; [done|]. rewrite fmap_cons. cbn [foldr]. lia.
Qed.

Lemma sum_of_whole (ns : list Z) :
  foldr Qcplus 0 (Qc_of_Z <$> ns) = Qc_of_Z (foldr Z.add 0%Z ns).
Proof.
  induction ns as [|n ns IH]; [symmetry; apply Z2Qc_inj_0|].
  rewrite fmap_cons. cbn [foldr]. by rewrite IH, Z2Qc_inj_add.
Qed.

Lemma small_whole_of_Z (ns : list Z) :
  small_whole_numbers (Qc_of_Z <$> ns) →
  (foldr Z.add 0 (Z.abs <$> ns) < 2 ^ 53)%Z.
Proof.
  intros [_ Hsmall]. rewrite <-list_fmap_compose in Hsmall.
  erewrite (list_fmap_ext _ Z.abs) in Hsmall; [done|].
  intros i n _. unfold compose. by destruct (Qc_of_Z_whole n) as [-> _].
Qed.

(** The numbers of cells of an int64 column. *)
Lemma int64_cells (cs : list cell) (ns : list Z) :
  Forall2 (λ c n, int64_value c = Some n) cs ns →
  omap cell_num cs = Qc_of_Z <$> ns ∧ omap int64_value cs = ns.
Proof.
  induction 1 as [|c n cs ns Hc _ [IH1 IH2]]; [done|].
  cbn [omap list_omap]. rewrite Hc, IH2.
  apply int64_value_Some in Hc as [-> _]. simpl. by rewrite IH1.
Qed.

Lemma int64_column_cells (column group : list cell) (ns : list Z) :
  int64_column column = Some ns → group ⊆ column →
  ∃ ms, Forall2 (λ c n, int64_value c = Some n) group ms.
Proof.
  intros Hcolumn%mapM_Some_1 Hgroup.
  assert (is_Some (mapM int64_value group)) as [ms Hms%mapM_Some_1]; [|by exists ms].
  apply mapM_is_Some_2, Forall_forall. intros c Hc%Hgroup.
  apply list_elem_of_lookup_1 in Hc as [i Hi].
  destruct (Forall2_lookup_l _ _ _ _ _ Hcolumn Hi) as (n & _ & Hn).
  unfold compose. by rewrite Hn.
Qed.

(** On an int64 column the sum of a group is the sum of its numbers
    modulo 2^64. *)
Lemma group_sum_int64 (column group : list cell) (ns : list Z) :
  int64_column column = Some ns → group ⊆ column →
  ∃ ms, omap cell_num group = Qc_of_Z <$> ms
    ∧ group_sum column group = Qc_of_Z (wrap64 (foldr Z.add 0%Z ms)).
Proof.
  intros Hcolumn Hgroup.
  destruct (int64_column_cells _ _ _ Hcolumn Hgroup) as (ms & [Hnum Hint]%int64_cells).
  exists ms. split; [done|]. unfold group_sum, int64_sum. by rewrite Hcolumn, Hint.
Qed.

(** Where the numbers of a group are whole and small its sum is their sum. *)
Lemma group_sum_exact (column group : list cell) :
  group ⊆ column → small_whole_numbers (omap cell_num group) →
  group_sum column group = foldr Qcplus 0 (omap cell_num group).
Proof.
  intros Hgroup Hsmall.
  destruct (int64_column column) as [ns|] eqn:Hcolumn.
  - destruct (group_sum_int64 _ _ _ Hcolumn Hgroup) as (ms & Hms & ->).
    rewrite Hms in Hsmall |- *. apply small_whole_of_Z in Hsmall.
    pose proof (abs_sum ms). rewrite sum_of_whole, wrap64_small; [done|lia].
  - unfold group_sum. rewrite Hcolumn. by apply group_float_sum_exact.
Qed.

Lemma series_sum_exact (column : list cell) :
  small_whole_numbers (omap cell_num column) →
  series_sum column = foldr Qcplus 0 (omap cell_num column).
Proof.
  intros Hsmall. unfold series_sum.
  destruct (int64_column column) as [ns|] eqn:Hcolumn.
  - apply mapM_Some_1, int64_cells in Hcolumn as [Hnum _].
    rewrite Hnum in Hsmall |- *. apply small_whole_of_Z in Hsmall.
    pose proof (abs_sum ns). unfold int64_sum.
    rewrite sum_of_whole, wrap64_small; [done|lia].
  - by apply series_float_sum_exact.
Qed.

(** *** Sums by sector *)

Lemma groupby_sum_sorted_Ok key col df alloc :
  groupby_sum_sorted key col df = Ok alloc →
  NoDup alloc.*1
  ∧ (∀ k, k ∈ alloc.*1 ↔ k ≠ CNull ∧ ∃ r, r ∈ rows df ∧ get_cell r key = k)
  ∧ (∀ k total, (k, total) ∈ alloc →
       total = group_sum ((λ r, get_cell r col) <$> rows df)
                 ((λ r, get_cell r col) <$> group_rows key k df))
  ∧ StronglySorted total_ge alloc.
Proof.
  unfold groupby_sum_sorted. case_decide; [|done]. case_decide; [|done].
  intros [= <-].
  set (keys := remove_dups (filter (λ k, k ≠ CNull) ((λ r, get_cell r key) <$> rows df))).
  set (entry := λ k, (k, group_sum ((λ r, get_cell r col) <$> rows df)
                          ((λ r, get_cell r col) <$> group_rows key k df))).
  assert ((entry <$> keys).*1 = keys) as Hkeys.
  { rewrite <-list_fmap_compose. clear. induction keys as [|k keys IH]; [done|].
    rewrite fmap_cons. by rewrite IH. }
  split; [|split; [|split]].
  - rewrite stable_sort_Permutation, Hkeys. apply NoDup_remove_dups.
  - intros k. rewrite stable_sort_Permutation, Hkeys. unfold keys.
    rewrite elem_of_remove_dups, list_elem_of_filter, list_elem_of_fmap.
    split; intros [Hk (r & Hr1 & Hr2)]; (split; [done|]); by exists r.
  - intros k total. rewrite stable_sort_Permutation.
    by intros (k' & [= -> ->] & _)%list_elem_of_fmap.
  - apply stable_sort_StronglySorted; apply _.
Qed.

Lemma group_cells_of_column key col k df :
  (λ r, get_cell r col) <$> group_rows key k df ⊆ (λ r, get_cell r col) <$> rows df.
Proof.
  intros c (r & -> & [_ Hr]%list_elem_of_filter)%list_elem_of_fmap.
  apply list_elem_of_fmap. by exists r.
Qed.

(** *** Cleaning keeps the sheets *)

Lemma clean_sheet_keeps f name data data' k :
  clean_sheet f name data = Ok data' → is_Some (data !! k) → is_Some (data' !! k).
Proof.
  unfold clean_sheet. destruct (data !! name) as [df|] eqn:Hname.
  - intros (df' & _ & [= <-])%bind_Ok Hk. rewrite lookup_insert_is_Some. 
    destruct (decide (name = k)); auto.
  - by intros [= <-].
Qed.

Lemma clean_sheets_keeps f names data data' k :
  clean_sheets f names data = Ok data' → is_Some (data !! k) → is_Some (data' !! k).
Proof.
  revert data. induction names as [|name names IH]; intros data; simpl.
  - by intros [= <-].
  - intros (data1 & Hclean & Hrest)%bind_Ok Hk.
    eapply IH; [done|]. by eapply clean_sheet_keeps.
Qed.

Lemma clean_data_keeps data data' k :
  _clean_data data = Ok data' → is_Some (data !! k) → is_Some (data' !! k).
Proof.
  unfold _clean_data. intros (data1 & H1 & Hrest)%bind_Ok.
  apply bind_Ok in Hrest as (data2 & H2 & H3). intros Hk.
  eapply clean_sheets_keeps; [done|].
  eapply clean_sheet_keeps; [done|]. by eapply clean_sheet_keeps.
Qed.

Lemma validate_sheets_Ok expected excel_data :
  validate_sheets expected excel_data = Ok () →
  Forall (λ sheet, is_Some (excel_data !! sheet)) expected.
Proof.
  induction expected as [|sheet expected IH]; simpl; [constructor|].
  destruct (excel_data !! sheet) as [df|] eqn:Hsheet; [|done].
  intros Hrest. constructor; [by rewrite Hsheet|by apply IH].
Qed.

(** A successful load: the sheets it returns hold all the required ones,
    and the aggregates were computed from them. *)
Lemma load_excel_file_Ok excel_data data processed :
  load_excel_file excel_data = Ok (data, processed) →
  _clean_data excel_data = Ok data
  ∧ _calculate_metrics data = Ok processed
  ∧ Forall (λ sheet, is_Some (data !! sheet)) expected_sheets.
Proof.
  unfold load_excel_file. intros ([] & Hvalid & Hrest)%bind_Ok.
  apply bind_Ok in Hrest as (data' & Hclean & Hrest).
  apply bind_Ok in Hrest as (processed' & Hcalc & [= <- <-]).
  split; [done|]. split; [done|].
  eapply Forall_impl; [by apply validate_sheets_Ok|].
  intros sheet. by apply clean_data_keeps.
Qed.

Lemma calculate_metrics_Ok data processed :
  _calculate_metrics data = Ok processed →
  calc_portfolio_summary data = Ok (portfolio_summary processed)
  ∧ calc_top_holdings data = Ok (top_holdings processed)
  ∧ calc_sector_allocation data = Ok (sector_allocation processed)
  ∧ calc_latest "Historical_Performance" performance_fields data
    = Ok (performance_summary processed)
  ∧ calc_latest "Risk_Metrics" risk_fields data = Ok (risk_summary processed).
Proof.
  unfold _calculate_metrics. intros (summary & H1 & Hrest)%bind_Ok.
  apply bind_Ok in Hrest as (top & H2 & Hrest).
  apply bind_Ok in Hrest as (sectors & H3 & Hrest).
  apply bind_Ok in Hrest as (perf & H4 & Hrest).
  apply bind_Ok in Hrest as (risk & H5 & [= <-]). done.
Qed.

(** C4, as the code has it. After a successful load, [top_holdings] has the
    records of the 10 rows of the Holdings_Detail sheet with the largest
    Market_Value (of all rows when there are fewer than 10; a row without a
    value counts as smaller than every row with one), each record carrying
    exactly the Asset_Name, Ticker_Symbol, Market_Value, Weight_Percent and
    Sector cells of its row; [sector_allocation] has one entry per Sector
    that occurs. Where the Market_Value figures of the rows of a Sector are
    whole numbers whose absolute values add up to less than 2^53, the value
    of that Sector is their sum. (Beyond that the sum of an int64 column
    wraps around and the sum of a float64 column is rounded:
    [sector_total_wraps] below.) *)
Theorem top_holdings_and_sector_allocation excel_data data processed :
  load_excel_file excel_data = Ok (data, processed) →
  ∃ holdings top alloc,
    data !! "Holdings_Detail" = Some holdings
    ∧ top_holdings processed = Some top
    ∧ sector_allocation processed = Some alloc
    ∧ length top = (10 `min` length (rows holdings))%nat
    ∧ (∃ picked rest,
         rows holdings ≡ₚ picked ++ rest
         ∧ Forall2 (λ rec r,
               dom rec =@{gset string}
                 {["Asset_Name"; "Ticker_Symbol"; "Market_Value"; "Weight_Percent";
                   "Sector"]}%string
               ∧ ∀ c, c ∈ top_holdings_columns → rec !! c = Some (get_cell r c))
             top picked
         ∧ ∀ r r', r ∈ picked → r' ∈ rest → not_smaller "Market_Value" r r')
    ∧ NoDup alloc.*1
    ∧ (∀ s, s ∈ alloc.*1 ↔
         s ≠ CNull ∧ ∃ r, r ∈ rows holdings ∧ get_cell r "Sector" = s)
    ∧ (∀ s total, (s, total) ∈ alloc →
         let values :=
           omap (λ r : gmap string cell,
                   match r !! "Market_Value" with Some (CNum x) => Some x | _ => None end)
             (filter (λ r, get_cell r "Sector" = s) (rows holdings)) in
         Forall (λ x : Qc, Qden x = 1%positive) values →
         (foldr Z.add 0%Z ((λ x : Qc, Z.abs (Qnum x)) <$> values) < 2 ^ 53)%Z →
         total = foldr Qcplus 0 values).
Proof.
  intros (_ & Hcalc & Hsheets)%load_excel_file_Ok.
  apply calculate_metrics_Ok in Hcalc as (_ & Htop & Halloc & _).
  assert (is_Some (data !! "Holdings_Detail")) as [holdings Hh].
  { rewrite Forall_forall in Hsheets. apply Hsheets. set_solver. }
  unfold calc_top_holdings, calc_sector_allocation in *. rewrite Hh in Htop, Halloc.
  apply bind_Ok in Htop as (largest & Hlargest & Hrecords).
  apply bind_Ok in Hrecords as (records & Hrecords & [= Htop]).
  destruct (groupby_sum_sorted "Sector" "Market_Value" holdings) as [alloc|]
    eqn:Hgroup; [|done].
  injection Halloc as Halloc.
  apply nlargest_Ok in Hlargest as [_ Hrows].
  apply select_records_Ok in Hrecords. rewrite Hrows in Hrecords.
  apply groupby_sum_sorted_Ok in Hgroup as (Hnodup & Hkeys & Hsum & _).
  exists holdings, records, alloc. split; [done|]. split; [done|]. split; [done|].
  split; [|split; [|split; [done|split; [done|]]]].
  - rewrite (Forall2_length _ _ _ Hrecords), length_take.
    by rewrite largest_first_Permutation.
  - exists (take 10 (largest_first "Market_Value" (rows holdings))),
      (drop 10 (largest_first "Market_Value" (rows holdings))).
    split; [by rewrite take_drop, largest_first_Permutation|]. split.
    + eapply Forall2_impl; [exact Hrecords|]. intros rec r [Hdom Hcells].
      split; [|done]. rewrite Hdom. unfold top_holdings_columns. set_solver.
    + intros r r' Hr Hr'.
      pose proof (largest_first_sorted "Market_Value" (rows holdings)) as Hs.
      rewrite <-(take_drop 10) in Hs.
      by eapply StronglySorted_app_1_elem_of.
  - intros s total Hin. cbv zeta. intros Hwhole Hsmall. rewrite (Hsum _ _ Hin).
    rewrite group_sum_exact.
    + by rewrite numbers_of_rows.
    + apply group_cells_of_column.
    + rewrite numbers_of_rows. by split.
Qed.


(** *** The row the summaries read *)

Lemma py_index_last {A} (l : list A) (x : A) : py_index (l ++ [x]) (-1) = Ok x.
Proof.
  unfold py_index. rewrite length_app. simpl.
  destruct (decide (0 ≤ -1)%Z) as [Hneg|_]; [lia|].
  destruct (decide (0 ≤ Z.of_nat (length l + 1) + -1)%Z) as [_|Hneg]; [|lia].
  replace (Z.to_nat (Z.of_nat (length l + 1) + -1)) with (length l) by lia.
  by rewrite list_lookup_middle.
Qed.

(** When every row of a sheet is dated, the last row of the sheet sorted by
    [sort_values_date] is a row of the sheet and no row is dated later. *)
Lemma last_sorted_row_is_latest df latest :
  Forall (λ r, has_date r = true) (rows df) →
  iloc (sort_values_date df) (-1) = Ok latest →
  latest ∈ rows df ∧ ∀ r, r ∈ rows df → date_le r latest.
Proof.
  intros Hdated. unfold iloc, sort_values_date. simpl.
  rewrite missing_last_all_present by done.
  pose proof (stable_sort_StronglySorted date_le (rows df)) as Hs.
  pose proof (stable_sort_Permutation date_le (rows df)) as Hp.
  destruct (stable_sort date_le (rows df)) as [|r0 sorted] eqn:Hsorted
    using rev_ind; [done|].
  rewrite py_index_last. intros [= ->]. split.
  - rewrite <-Hp. apply elem_of_app. right. by left.
  - intros r Hr. rewrite <-Hp in Hr. apply elem_of_app in Hr as [Hr|Hr].
    + eapply StronglySorted_app_1_elem_of; [exact Hs|done|by left].
    + apply list_elem_of_singleton in Hr as ->. unfold date_le. lia.
Qed.


(** *** Cleaning a time series *)

(** Two rows with the same cell under every column. *)
Definition same_cells (r r' : gmap string cell) : Prop :=
  ∀ k, get_cell r' k = get_cell r k.

(** A column of [rs] that holds numbers and missing values only. *)
Definition plain_column (col : string) (rs : list (gmap string cell)) : Prop :=
  Forall (λ r, plain_number (get_cell r col) = true) rs.

Lemma to_numeric_plain c : plain_number c = true → to_numeric c = Ok c.
Proof. by destruct c. Qed.

Lemma same_cells_insert r col : same_cells r (<[col := get_cell r col]> r).
Proof.
  intros k. unfold get_cell. destruct (decide (col = k)) as [->|Hne].
  - by rewrite lookup_insert_eq.
  - by rewrite lookup_insert_ne.
Qed.

Lemma plain_column_same_cells col rs rs' :
  Forall2 same_cells rs rs' → plain_column col rs → plain_column col rs'.
Proof.
  unfold plain_column. induction 1 as [|r r' rs rs' Hr _ IH]; [done|].
  intros [Hplain Hrest]%Forall_cons. constructor; [|by apply IH].
  by rewrite Hr.
Qed.

Lemma map_column_plain col df df' :
  plain_column col (rows df) → map_column to_numeric col df = Ok df' →
  columns df' = columns df ∧ Forall2 same_cells (rows df) (rows df').
Proof.
  intros Hplain. unfold map_column. case_decide; [|done].
  intros (rows' & Hrows & [= <-])%bind_Ok. split; [done|]. simpl.
  apply traverse_Forall2 in Hrows. unfold plain_column in Hplain.
  induction Hrows as [|r r' rs rs' Hr _ IH]; [constructor|].
  apply Forall_cons in Hplain as [Hc Hplain]. constructor; [|by apply IH].
  rewrite (to_numeric_plain _ Hc) in Hr. injection Hr as <-.
  apply same_cells_insert.
Qed.

Lemma map_columns_plain cols df df' :
  Forall (λ col, plain_column col (rows df)) cols →
  map_columns to_numeric cols df = Ok df' →
  columns df' = columns df ∧ Forall2 same_cells (rows df) (rows df').
Proof.
  revert df. induction cols as [|col cols IH]; intros df Hcols; simpl.
  - intros [= <-]. split; [done|]. apply Forall_Forall2_diag, Forall_forall.
    by intros r _ k.
  - apply Forall_cons in Hcols as [Hcol Hcols].
    intros (df1 & [Hc1 Hr1]%map_column_plain & Hrest)%bind_Ok; [|done].
    apply IH in Hrest as [Hc' Hr'].
    + split; [by rewrite Hc'|].
      eapply Forall2_chain; [|exact Hr1|exact Hr'].
      intros r r1 r' H1 H2 k. by rewrite H2, H1.
    + eapply Forall_impl; [exact Hcols|]. intros c.
      by apply plain_column_same_cells.
Qed.

Lemma numeric_columns_plain df :
  Forall (λ col, plain_column col (rows df)) (numeric_columns df).
Proof.
  apply Forall_forall. intros col [Hcol _]%list_elem_of_filter.
  apply Forall_forall. intros r Hr. rewrite forallb_forall in Hcol.
  by apply Hcol, list_elem_of_In.
Qed.

(** The order of a cleaned time series: undated rows last, dated rows by
    increasing date. *)
Definition by_date : relation (gmap string cell) := missing_last_order date_le has_date.

Lemma by_date_same_cells a b a' b' :
  same_cells a a' → same_cells b b' → by_date a b → by_date a' b'.
Proof.
  intros Ha Hb. unfold by_date, missing_last_order, has_date, date_le.
  by rewrite !Ha, !Hb.
Qed.

Lemma clean_time_series_sorted df sheet :
  clean_time_series df = Ok sheet → StronglySorted by_date (rows sheet).
Proof.
  unfold clean_time_series. intros (df1 & _ & Hnum)%bind_Ok.
  apply map_columns_plain in Hnum as [_ Hrows]; [|apply numeric_columns_plain].
  eapply StronglySorted_Forall2; [|exact Hrows|].
  - intros a b a' b'. apply by_date_same_cells.
  - simpl. apply missing_last_sorted; apply _.
Qed.

(** After the loop over [names], the sheet under one of the names is the
    cleaned form of a sheet. *)
Lemma clean_sheets_other f names data data' name :
  name ∉ names → clean_sheets f names data = Ok data' → data' !! name = data !! name.
Proof.
  revert data. induction names as [|n names IH]; intros data Hname; simpl.
  - by intros [= <-].
  - apply not_elem_of_cons in Hname as [Hne Hname].
    intros (data1 & Hclean & Hrest)%bind_Ok. rewrite (IH _ Hname Hrest).
    unfold clean_sheet in Hclean. destruct (data !! n) as [df|].
    + apply bind_Ok in Hclean as (df' & _ & [= <-]). by rewrite lookup_insert_ne.
    + by injection Hclean as <-.
Qed.

Lemma clean_sheets_cleaned f names data data' name sheet :
  NoDup names → name ∈ names → clean_sheets f names data = Ok data' →
  data' !! name = Some sheet → ∃ df, f df = Ok sheet.
Proof.
  revert data. induction names as [|n names IH]; intros data Hnodup Hname; simpl.
  - by apply elem_of_nil in Hname.
  - apply NoDup_cons in Hnodup as [Hn Hnodup].
    intros (data1 & Hclean & Hrest)%bind_Ok Hsheet.
    apply elem_of_cons in Hname as [->|Hname]; [|by eapply IH].
    rewrite (clean_sheets_other _ _ _ _ _ Hn Hrest) in Hsheet.
    unfold clean_sheet in Hclean. destruct (data !! n) as [df|] eqn:Hdf.
    + apply bind_Ok in Hclean as (df' & Hf & [= <-]).
      rewrite lookup_insert_eq in Hsheet. injection Hsheet as <-. by exists df.
    + injection Hclean as <-. congruence.
Qed.

Lemma time_series_sheets_NoDup : NoDup time_series_sheets.
Proof. apply (bool_decide_unpack _). by vm_compute. Qed.

Lemma clean_data_time_series data data' name sheet :
  name ∈ time_series_sheets → _clean_data data = Ok data' →
  data' !! name = Some sheet → StronglySorted by_date (rows sheet).
Proof.
  intros Hname. unfold _clean_data. intros (data1 & _ & Hrest)%bind_Ok.
  apply bind_Ok in Hrest as (data2 & _ & Hrest). intros Hsheet.
  destruct (clean_sheets_cleaned _ _ _ _ _ _ time_series_sheets_NoDup
              Hname Hrest Hsheet) as [df Hdf].
  by eapply clean_time_series_sorted.
Qed.


(** *** Cleaning keeps the shape of the sheets *)

(** Two sheets with the same columns and as many rows. *)
Definition same_shape (df df' : DataFrame) : Prop :=
  columns df' = columns df ∧ length (rows df') = length (rows df).

Lemma same_shape_refl df : same_shape df df.
Proof. done. Qed.

Lemma same_shape_trans df1 df2 df3 :
  same_shape df1 df2 → same_shape df2 df3 → same_shape df1 df3.
Proof. intros [??] [??]. split; congruence. Qed.

Lemma map_column_shape f col df df' : map_column f col df = Ok df' → same_shape df df'.
Proof.
  unfold map_column. case_decide; [|done].
  intros (rows' & Hrows%traverse_length & [= <-])%bind_Ok. by split.
Qed.

Lemma map_columns_shape f cols df df' : map_columns f cols df = Ok df' → same_shape df df'.
Proof.
  revert df. induction cols as [|col cols IH]; intros df; simpl.
  - intros [= <-]. apply same_shape_refl.
  - intros (df1 & H1%map_column_shape & Hrest%IH)%bind_Ok. by eapply same_shape_trans.
Qed.

Lemma sort_values_date_shape df : same_shape df (sort_values_date df).
Proof. split; [done|]. simpl. by rewrite missing_last_Permutation. Qed.

Lemma clean_time_series_shape df df' : clean_time_series df = Ok df' → same_shape df df'.
Proof.
  unfold clean_time_series. intros (df1 & H1%map_column_shape & H2%map_columns_shape)%bind_Ok.
  eapply same_shape_trans; [exact H1|].
  eapply same_shape_trans; [apply sort_values_date_shape|exact H2].
Qed.

Lemma clean_portfolio_overview_shape df df' :
  clean_portfolio_overview df = Ok df' → same_shape df df'.
Proof.
  unfold clean_portfolio_overview.
  intros (df1 & H1%map_columns_shape & H2%map_columns_shape)%bind_Ok.
  by eapply same_shape_trans.
Qed.

Lemma clean_holdings_detail_shape df df' :
  clean_holdings_detail df = Ok df' → same_shape df df'.
Proof.
  unfold clean_holdings_detail.
  intros (df1 & H1%map_column_shape & H2%map_columns_shape)%bind_Ok.
  by eapply same_shape_trans.
Qed.

(** The sheets of [data'] are those of [data], each in the same shape, and
    the sheets under the names [untouched] are the same. *)
Definition reshaped (untouched : string → Prop) (data data' : gmap string DataFrame)
    : Prop :=
  ∀ name,
    match data !! name, data' !! name with
    | Some df, Some df' => same_shape df df' ∧ (untouched name → df' = df)
    | None, None => True
    | _, _ => False
    end.

Lemma reshaped_refl untouched data : reshaped untouched data data.
Proof. intros name. by destruct (data !! name). Qed.

Lemma reshaped_trans untouched data1 data2 data3 :
  reshaped untouched data1 data2 → reshaped untouched data2 data3 →
  reshaped untouched data1 data3.
Proof.
  intros H12 H23 name. specialize (H12 name). specialize (H23 name).
  destruct (data1 !! name), (data2 !! name), (data3 !! name); try done.
  destruct H12 as [Hs12 Hu12], H23 as [Hs23 Hu23]. split.
  - by eapply same_shape_trans.
  - intros Hu. by rewrite (Hu23 Hu), (Hu12 Hu).
Qed.

Lemma clean_sheet_reshaped (untouched : string → Prop) f name data data' :
  (∀ df df', f df = Ok df' → same_shape df df') →
  ¬ untouched name →
  clean_sheet f name data = Ok data' → reshaped untouched data data'.
Proof.
  intros Hf Hname. unfold clean_sheet. destruct (data !! name) as [df|] eqn:Hdf.
  - intros (df' & Hdf'%Hf & [= <-])%bind_Ok name'.
    destruct (decide (name = name')) as [<-|Hne].
    + by rewrite Hdf, lookup_insert_eq.
    + rewrite lookup_insert_ne by done. by destruct (data !! name').
  - intros [= <-]. apply reshaped_refl.
Qed.

Lemma clean_sheets_reshaped (untouched : string → Prop) f names data data' :
  (∀ df df', f df = Ok df' → same_shape df df') →
  Forall (λ name, ¬ untouched name) names →
  clean_sheets f names data = Ok data' → reshaped untouched data data'.
Proof.
  intros Hf. revert data. induction names as [|name names IH]; intros data Hnames; simpl.
  - intros [= <-]. apply reshaped_refl.
  - apply Forall_cons in Hnames as [Hname Hnames].
    intros (data1 & H1 & Hrest)%bind_Ok.
    eapply reshaped_trans; [by eapply clean_sheet_reshaped|by apply IH].
Qed.

(** The sheets [_clean_data] works on. *)
Definition cleaned_sheets : list string :=
  "Portfolio_Overview"%string :: "Holdings_Detail"%string :: time_series_sheets.

Lemma clean_data_reshaped data data' :
  _clean_data data = Ok data' → reshaped (λ name, name ∉ cleaned_sheets) data data'.
Proof.
  unfold _clean_data. intros (data1 & H1 & Hrest)%bind_Ok.
  apply bind_Ok in Hrest as (data2 & H2 & H3).
  eapply reshaped_trans; [|eapply reshaped_trans].
  - eapply clean_sheet_reshaped; [apply clean_portfolio_overview_shape| |exact H1].
    intros Hn. apply Hn. unfold cleaned_sheets. set_solver.
  - eapply clean_sheet_reshaped; [apply clean_holdings_detail_shape| |exact H2].
    intros Hn. apply Hn. unfold cleaned_sheets. set_solver.
  - eapply clean_sheets_reshaped; [apply clean_time_series_shape| |exact H3].
    apply Forall_forall. intros name Hname Hn. apply Hn.
    unfold cleaned_sheets. set_solver.
Qed.

Lemma load_keeps_shape_aux excel_data data processed :
  load_excel_file excel_data = Ok (data, processed) →
  ∀ name df, excel_data !! name = Some df →
    ∃ df', data !! name = Some df' ∧ length (rows df') = length (rows df).
Proof.
  intros (Hclean%clean_data_reshaped & _ & _)%load_excel_file_Ok name df Hdf.
  specialize (Hclean name). rewrite Hdf in Hclean.
  destruct (data !! name) as [df'|]; [|done]. destruct Hclean as [[??] _].
  by exists df'.
Qed.

(** X10. The sheets a successful load returns are the sheets of the
    workbook: the same sheet names, each sheet with the columns and the
    number of rows it had; a sheet that is none of the seven expected ones
    is returned as it was read. *)
Theorem load_keeps_shape excel_data data processed :
  load_excel_file excel_data = Ok (data, processed) →
  dom data = dom excel_data
  ∧ (∀ name df, excel_data !! name = Some df →
       ∃ df', data !! name = Some df'
         ∧ columns df' = columns df ∧ length (rows df') = length (rows df))
  ∧ (∀ name, name ∉ expected_sheets → data !! name = excel_data !! name).
Proof.
  intros (Hclean%clean_data_reshaped & _ & _)%load_excel_file_Ok.
  split; [|split].
  - apply set_eq. intros name. rewrite !elem_of_dom. specialize (Hclean name).
    destruct (excel_data !! name), (data !! name); try done;
      split; intros [? ?]; done.
  - intros name df Hdf. specialize (Hclean name). rewrite Hdf in Hclean.
    destruct (data !! name) as [df'|]; [|done]. destruct Hclean as [[??] _].
    by exists df'.
  - intros name Hname. specialize (Hclean name).
    destruct (excel_data !! name), (data !! name); try done.
    destruct Hclean as [_ ->]; [done|].
    cbv beta. intros Hin. by apply Hname.
Qed.

(** *** Sheets without rows *)

Lemma py_index_nil {A} (i : Z) : succeeds (py_index (@nil A) i) = false.
Proof. unfold py_index. simpl. by repeat case_decide. Qed.

Lemma calc_latest_rows name fields data perf df :
  calc_latest name fields data = Ok perf → data !! name = Some df → rows df ≠ [].
Proof.
  unfold calc_latest. intros Hcalc Hdf Hrows. rewrite Hdf in Hcalc.
  unfold iloc in Hcalc. rewrite Hrows in Hcalc.
  pose proof (@py_index_nil (gmap string cell) (-1)) as Hnil.
  by destruct (py_index [] (-1)).
Qed.

(** X11. A workbook is only accepted when its Portfolio_Overview,
    Historical_Performance and Risk_Metrics sheets each have a row: the
    summaries read the first row of the one and the last row of the other
    two, and on a sheet without rows that raises. *)
Theorem load_needs_rows excel_data data processed name df :
  load_excel_file excel_data = Ok (data, processed) →
  name ∈ ["Portfolio_Overview"; "Historical_Performance"; "Risk_Metrics"]%string →
  excel_data !! name = Some df →
  rows df ≠ [].
Proof.
  intros Hload Hname Hdf.
  destruct (load_keeps_shape_aux excel_data data processed Hload name df Hdf)
    as (df' & Hdf' & Hlen).
  assert (rows df' ≠ []) as Hrows'.
  { apply load_excel_file_Ok in Hload as (_ & Hcalc & Hsheets).
    apply calculate_metrics_Ok in Hcalc as (Hsum & _ & _ & Hperf & Hrisk).
    apply elem_of_cons in Hname as [->|Hname].
    - unfold calc_portfolio_summary in Hsum. rewrite Hdf' in Hsum.
      assert (is_Some (data !! "Holdings_Detail")) as [holdings Hh].
      { rewrite Forall_forall in Hsheets. apply Hsheets.
        unfold expected_sheets. set_solver. }
      rewrite Hh in Hsum. apply bind_Ok in Hsum as (portfolio & Hp & _).
      intros Hrows. unfold iloc in Hp. rewrite Hrows in Hp.
      pose proof (@py_index_nil (gmap string cell) 0) as Hnil.
      by destruct (py_index [] 0).
    - apply elem_of_cons in Hname as [->|Hname].
      + exact (calc_latest_rows _ _ _ _ _ Hperf Hdf').
      + apply list_elem_of_singleton in Hname as ->.
        exact (calc_latest_rows _ _ _ _ _ Hrisk Hdf'). }
  intros Hrows. apply Hrows'. apply length_zero_iff_nil.
  by rewrite Hlen, Hrows.
Qed.


(** *** Time series after a load *)

(** A timestamp or a missing value: what a Date cell is after cleaning. *)
Definition date_or_null (c : cell) : Prop := c = CNull ∨ ∃ t, c = CDate t.

Lemma to_datetime_Ok c c' : to_datetime c = Ok c' → date_or_null c'.
Proof.
  destruct c as [x|s|t|]; simpl.
  - intros [= <-]. right. by eexists.
  - destruct (parse_datetime s); [|done]. intros [= <-]. right. by eexists.
  - intros [= <-]. right. by eexists.
  - intros [= <-]. by left.
Qed.

Lemma map_column_to_datetime col df df' :
  map_column to_datetime col df = Ok df' →
  Forall (λ r, date_or_null (get_cell r col)) (rows df').
Proof.
  unfold map_column. case_decide; [|done].
  intros (rows' & Hrows%traverse_Forall2 & [= <-])%bind_Ok. simpl.
  induction Hrows as [|r r' rs rs' Hr _ IH]; constructor; [|done].
  apply bind_Ok in Hr as (c & Hc%to_datetime_Ok & [= <-]).
  unfold get_cell. by rewrite lookup_insert_eq.
Qed.

Lemma clean_time_series_dates df sheet :
  clean_time_series df = Ok sheet →
  Forall (λ r, date_or_null (get_cell r "Date")) (rows sheet).
Proof.
  unfold clean_time_series. intros (df1 & Hdates%map_column_to_datetime & Hnum)%bind_Ok.
  apply map_columns_plain in Hnum as [_ Hrows]; [|apply numeric_columns_plain].
  simpl in Hrows.
  assert (Forall (λ r, date_or_null (get_cell r "Date"))
            (missing_last date_le has_date (rows df1))) as Hsorted.
  { by rewrite missing_last_Permutation. }
  induction Hrows as [|r r' rs rs' Hr _ IH]; [constructor|].
  apply Forall_cons in Hsorted as [Hd Hsorted]. constructor; [|by apply IH].
  by rewrite Hr.
Qed.

Lemma clean_data_dates data data' name sheet :
  name ∈ time_series_sheets → _clean_data data = Ok data' →
  data' !! name = Some sheet →
  Forall (λ r, date_or_null (get_cell r "Date")) (rows sheet).
Proof.
  intros Hname. unfold _clean_data. intros (data1 & _ & Hrest)%bind_Ok.
  apply bind_Ok in Hrest as (data2 & _ & Hrest). intros Hsheet.
  destruct (clean_sheets_cleaned _ _ _ _ _ _ time_series_sheets_NoDup
              Hname Hrest Hsheet) as [df Hdf].
  by eapply clean_time_series_dates.
Qed.

(** X12. After a successful load each of the five time-series sheets
    (Historical_Performance, Benchmarks, Risk_Metrics, Cash_Flows,
    Market_Data) is returned in date order: every Date cell is a timestamp
    or missing, rows with a date come by increasing date, and the rows
    without one come after them. *)
Theorem load_sorts_time_series excel_data data processed name :
  load_excel_file excel_data = Ok (data, processed) →
  name ∈ time_series_sheets →
  ∃ sheet,
    data !! name = Some sheet
    ∧ Forall (λ r, date_or_null (get_cell r "Date")) (rows sheet)
    ∧ StronglySorted by_date (rows sheet).
Proof.
  intros (Hclean & _ & Hsheets)%load_excel_file_Ok Hname.
  assert (is_Some (data !! name)) as [sheet Hsheet].
  { rewrite Forall_forall in Hsheets. apply Hsheets. revert Hname.
    unfold time_series_sheets, expected_sheets. set_solver. }
  exists sheet. split; [done|]. split.
  - by eapply clean_data_dates.
  - by eapply clean_data_time_series.
Qed.

(** *** The row a summary is read from *)

Lemma py_index_last_Ok {A} (l : list A) (x : A) :
  py_index l (-1) = Ok x → last l = Some x.
Proof.
  destruct l as [|y l] using rev_ind.
  - intros Hx. pose proof (@py_index_nil A (-1)) as Hnil. by rewrite Hx in Hnil.
  - rewrite py_index_last. intros [= <-]. apply last_snoc.
Qed.

Lemma summary_of_Ok df r fields s :
  NoDup fields.*1 → summary_of df r fields = Ok s →
  ∀ key col, (key, col) ∈ fields → s !! key = Some (get_cell r col).
Proof.
  intros Hnodup. unfold summary_of.
  intros (kvs & Hkvs%traverse_Forall2 & [= <-])%bind_Ok key col Hin.
  assert (kvs.*1 = fields.*1) as Hkeys.
  { clear Hnodup Hin. induction Hkvs as [|kc kv fs kvs Hkv _ IH]; [done|].
    apply bind_Ok in Hkv as (c & _ & [= <-]). rewrite !fmap_cons. by rewrite IH. }
  apply elem_of_list_to_map_1; [by rewrite Hkeys|].
  clear Hnodup Hkeys. induction Hkvs as [|kc kv fs kvs Hkv _ IH].
  - by apply elem_of_nil in Hin.
  - apply elem_of_cons in Hin as [<-|Hin]; [|right; by apply IH].
    apply bind_Ok in Hkv as (c & Hc & [= <-]). simpl in *.
    unfold row_get in Hc. case_decide; [|done]. injection Hc as <-. by left.
Qed.

(** The summary is the record of the last row of the sheet. When every row
    is dated no row is dated later than that one; when some row is undated
    that row is undated. *)
Definition reads_last_row (sheet : option DataFrame) (fields : list (string * string))
    (summary : option (gmap string cell)) : Prop :=
  ∃ df latest s,
    sheet = Some df ∧ summary = Some s ∧ last (rows df) = Some latest
    ∧ (∀ key col, (key, col) ∈ fields → s !! key = Some (get_cell latest col))
    ∧ (Forall (λ r, has_date r = true) (rows df) →
         ∀ r, r ∈ rows df → date_le r latest)
    ∧ (Exists (λ r, has_date r = false) (rows df) → has_date latest = false).

Lemma last_of_sorted (l : list (gmap string cell)) latest :
  StronglySorted by_date l → last l = Some latest →
  (Forall (λ r, has_date r = true) l → ∀ r, r ∈ l → date_le r latest)
  ∧ (Exists (λ r, has_date r = false) l → has_date latest = false).
Proof.
  intros Hs Hlast. apply last_Some in Hlast as [l' ->].
  assert (∀ r, r ∈ l' → by_date r latest) as Hbefore.
  { intros r Hr. eapply StronglySorted_app_1_elem_of; [exact Hs|done|by left]. }
  split.
  - intros Hall r [Hr|Hr%list_elem_of_singleton]%elem_of_app.
    + destruct (Hbefore r Hr) as [Hno|(_ & _ & Hle)]; [|done].
      rewrite Forall_app, Forall_singleton in Hall. destruct Hall as [_ Hyes].
      congruence.
    + subst r. unfold date_le. lia.
  - intros (r & Hr & Hno)%Exists_exists.
    apply elem_of_app in Hr as [Hr|Hr%list_elem_of_singleton]; [|by subst r].
    destruct (Hbefore r Hr) as [Hlatest|(Hyes & _)]; [done|congruence].
Qed.

Lemma calc_latest_reads name fields data0 data summary :
  name ∈ time_series_sheets → NoDup fields.*1 →
  _clean_data data0 = Ok data → is_Some (data !! name) →
  calc_latest name fields data = Ok summary →
  reads_last_row (data !! name) fields summary.
Proof.
  intros Hname Hnodup Hclean [df Hdf]. unfold calc_latest. rewrite Hdf.
  intros (latest & Hlatest%py_index_last_Ok & Hsum)%bind_Ok.
  destruct (summary_of df latest fields) as [s|] eqn:Hs; [|done]. injection Hsum as <-.
  exists df, latest, s. split; [done|]. split; [done|]. split; [done|].
  split; [by apply (summary_of_Ok df)|].
  apply last_of_sorted; [|done]. by eapply clean_data_time_series.
Qed.

Lemma performance_fields_NoDup : NoDup performance_fields.*1.
Proof. apply (bool_decide_unpack _). by vm_compute. Qed.

Lemma risk_fields_NoDup : NoDup risk_fields.*1.
Proof. apply (bool_decide_unpack _). by vm_compute. Qed.

(** X13. After a successful load, [performance_summary] and
    [risk_summary] hold the cells of the last row of the returned
    Historical_Performance and Risk_Metrics sheets, under the keys of the
    summary. When every row of the sheet is dated, no row is dated later
    than the one read; as soon as one row is undated, the row read is an
    undated one. *)
Theorem summaries_read_last_row excel_data data processed :
  load_excel_file excel_data = Ok (data, processed) →
  reads_last_row (data !! "Historical_Performance") performance_fields
    (performance_summary processed)
  ∧ reads_last_row (data !! "Risk_Metrics") risk_fields (risk_summary processed).
Proof.
  intros (Hclean & Hcalc & Hsheets)%load_excel_file_Ok.
  apply calculate_metrics_Ok in Hcalc as (_ & _ & _ & Hperf & Hrisk).
  rewrite Forall_forall in Hsheets. split.
  - eapply calc_latest_reads; [|apply performance_fields_NoDup|done| |done].
    + unfold time_series_sheets. set_solver.
    + apply Hsheets. unfold expected_sheets. set_solver.
  - eapply calc_latest_reads; [|apply risk_fields_NoDup|done| |done].
    + unfold time_series_sheets. set_solver.
    + apply Hsheets. unfold expected_sheets. set_solver.
Qed.

(** *** The order of the aggregates *)

Lemma StronglySorted_take {A} (R : relation A) (n : nat) (l : list A) :
  StronglySorted R l → StronglySorted R (take n l).
Proof.
  intros Hs. rewrite <-(take_drop n l) in Hs. by apply StronglySorted_app_1_l in Hs.
Qed.

(** X14. After a successful load, [top_holdings] lists its records by
    decreasing Market_Value (records without a value last) and
    [sector_allocation] lists the sectors by decreasing total. *)
Theorem aggregates_are_ordered excel_data data processed :
  load_excel_file excel_data = Ok (data, processed) →
  ∃ top alloc,
    top_holdings processed = Some top
    ∧ sector_allocation processed = Some alloc
    ∧ StronglySorted (not_smaller "Market_Value") top
    ∧ StronglySorted (λ a b, b.2 ≤ a.2) alloc.
Proof.
  intros (_ & Hcalc & Hsheets)%load_excel_file_Ok.
  apply calculate_metrics_Ok in Hcalc as (_ & Htop & Halloc & _).
  assert (is_Some (data !! "Holdings_Detail")) as [holdings Hh].
  { rewrite Forall_forall in Hsheets. apply Hsheets. set_solver. }
  unfold calc_top_holdings, calc_sector_allocation in *. rewrite Hh in Htop, Halloc.
  apply bind_Ok in Htop as (largest & Hlargest & Hrecords).
  apply bind_Ok in Hrecords as (records & Hrecords & [= Htop]).
  destruct (groupby_sum_sorted "Sector" "Market_Value" holdings) as [alloc|]
    eqn:Hgroup; [|done].
  injection Halloc as Halloc.
  apply nlargest_Ok in Hlargest as [_ Hrows].
  apply select_records_Ok in Hrecords. rewrite Hrows in Hrecords.
  apply groupby_sum_sorted_Ok in Hgroup as (_ & _ & _ & Hsorted).
  exists records, alloc. split; [done|]. split; [done|]. split; [|done].
  eapply (StronglySorted_Forall2
            (λ r rec, value_of "Market_Value" rec = value_of "Market_Value" r)
            (not_smaller "Market_Value") (not_smaller "Market_Value")).
  - intros a b a' b' Ha Hb. unfold not_smaller. by rewrite Ha, Hb.
  - apply Forall2_flip. eapply Forall2_impl; [exact Hrecords|].
    intros rec r [_ Hcells]. unfold value_of, get_cell.
    rewrite (Hcells "Market_Value"); [done|]. unfold top_holdings_columns. set_solver.
  - apply StronglySorted_take, largest_first_sorted.
Qed.


(** *** The sector totals add up *)

Lemma sum_permutation (l l' : list Qc) :
  l ≡ₚ l' → foldr Qcplus 0 l = foldr Qcplus 0 l'.
Proof.
  induction 1 as [|x l l' _ IH|x y l|l l' l'' _ IH1 _ IH2]; simpl.
  - done.
  - by rewrite IH.
  - ring.
  - congruence.
Qed.

Lemma filter_ext_in {A} (P Q : A → Prop) `{!∀ x, Decision (P x), !∀ x, Decision (Q x)}
    (l : list A) :
  (∀ x, x ∈ l → P x ↔ Q x) → filter P l = filter Q l.
Proof.
  induction l as [|x l IH]; intros HPQ; [done|].
  rewrite !filter_cons. rewrite IH by (intros y Hy; apply HPQ; by right).
  destruct (decide (P x)) as [HP|HP], (decide (Q x)) as [HQ|HQ]; try done.
  - destruct HQ. apply HPQ; [by left|done].
  - destruct HP. apply HPQ; [by left|done].
Qed.

(** The numbers under [col] of the rows [rs], added up exactly. *)
Definition exact_sum (col : string) (rs : list (gmap string cell)) : Qc :=
  foldr Qcplus 0 (omap (number_of col) rs).

Lemma exact_sum_cons col r rs :
  exact_sum col (r :: rs) = default 0 (number_of col r) + exact_sum col rs.
Proof.
  unfold exact_sum. cbn [omap list_omap].
  destruct (number_of col r); cbn [default foldr].
  - done.
  - by rewrite Qcplus_0_l.
Qed.

(** The numbers under [col] of the rows whose [key] is one of [ks], summed
    key by key and summed at once. *)
Lemma group_sums_add_up key col (ks : list cell) (rs : list (gmap string cell)) :
  NoDup ks →
  foldr Qcplus 0
    ((λ k, exact_sum col (filter (λ r, get_cell r key = k) rs)) <$> ks)
  = exact_sum col (filter (λ r, get_cell r key ∈ ks) rs).
Proof.
  induction 1 as [|k ks Hk _ IH].
  - simpl. induction rs as [|r rs IHrs]; [done|].
    rewrite filter_cons_False by (by intros ?%elem_of_nil). done.
  - rewrite fmap_cons. cbn [foldr]. rewrite IH. clear IH.
    induction rs as [|r rs IHrs]; [unfold exact_sum; simpl; ring|].
    rewrite !filter_cons.
    destruct (decide (get_cell r key = k)) as [Heq|Hne],
      (decide (get_cell r key ∈ ks)) as [Hin|Hnin],
      (decide (get_cell r key ∈ k :: ks)) as [Hin'|Hnin'];
      rewrite ?exact_sum_cons, <-?IHrs; try ring.
    + destruct Hk. by rewrite <-Heq.
    + destruct Hk. by rewrite <-Heq.
    + destruct Hnin'. rewrite Heq. by left.
    + destruct Hnin'. by right.
    + by apply elem_of_cons in Hin' as [?|?].
Qed.

(** Fewer rows hold smaller numbers. *)
Lemma small_whole_filter (P : gmap string cell → Prop) `{!∀ r, Decision (P r)}
    col (rs : list (gmap string cell)) :
  small_whole_numbers (omap (number_of col) rs) →
  small_whole_numbers (omap (number_of col) (filter P rs)).
Proof.
  unfold small_whole_numbers. intros [Hwhole Hsmall]. split.
  - clear Hsmall. induction rs as [|r rs IH]; [done|].
    cbn [omap list_omap] in Hwhole. rewrite filter_cons.
    destruct (decide (P r)); cbn [omap list_omap];
      destruct (number_of col r); try apply Forall_cons in Hwhole as [? ?]; auto.
  - eapply Z.le_lt_trans; [|exact Hsmall]. clear.
    induction rs as [|r rs IH]; [done|].
    rewrite filter_cons.
    destruct (decide (P r)); cbn [omap list_omap];
      destruct (number_of col r); rewrite ?fmap_cons; cbn [foldr]; lia.
Qed.

Lemma groupby_sum_total key col df alloc :
  small_whole_numbers (omap (number_of col) (rows df)) →
  groupby_sum_sorted key col df = Ok alloc →
  foldr Qcplus 0 alloc.*2
  = exact_sum col (filter (λ r, get_cell r key ≠ CNull) (rows df)).
Proof.
  intros Hsmall. unfold groupby_sum_sorted. case_decide; [|done]. case_decide; [|done].
  intros [= <-].
  set (keys := remove_dups (filter (λ k, k ≠ CNull) ((λ r, get_cell r key) <$> rows df))).
  rewrite (sum_permutation _ _ (fmap_Permutation snd _ _ (stable_sort_Permutation _ _))).
  rewrite <-list_fmap_compose.
  rewrite (list_fmap_ext _
             (λ k, exact_sum col (filter (λ r, get_cell r key = k) (rows df)))).
  - rewrite group_sums_add_up by apply NoDup_remove_dups.
    f_equal. apply filter_ext_in. intros r Hr. unfold keys.
    rewrite elem_of_remove_dups, list_elem_of_filter, list_elem_of_fmap.
    split; [by intros [? _]|]. intros Hne. split; [done|]. by exists r.
  - intros _ k _. unfold compose. cbn [snd]. rewrite group_sum_exact.
    + unfold exact_sum, group_rows. by rewrite numbers_of_rows.
    + apply group_cells_of_column.
    + rewrite numbers_of_rows. by apply small_whole_filter.
Qed.

(** X15. After a successful load [total_holdings] is the number of rows of
    the Holdings_Detail sheet. Where the Market_Value figures of the sheet
    are whole numbers whose absolute values add up to less than 2^53, the
    totals of [sector_allocation] add up to the Market_Value of the holdings
    that have a sector and [total_market_value] is the Market_Value of all
    holdings; so when moreover every holding has a sector the sector totals
    add up to [total_market_value]. *)
Theorem sector_totals_add_up excel_data data processed :
  load_excel_file excel_data = Ok (data, processed) →
  ∃ holdings alloc summary,
    data !! "Holdings_Detail" = Some holdings
    ∧ sector_allocation processed = Some alloc
    ∧ portfolio_summary processed = Some summary
    ∧ summary !! "total_holdings"
      = Some (CNum (Qc_of_Z (Z.of_nat (length (rows holdings)))))
    ∧ (let market_values :=
         omap (λ r : gmap string cell,
                 match r !! "Market_Value" with Some (CNum x) => Some x | _ => None end) in
       Forall (λ x : Qc, Qden x = 1%positive) (market_values (rows holdings)) →
       (foldr Z.add 0%Z ((λ x : Qc, Z.abs (Qnum x)) <$> market_values (rows holdings))
        < 2 ^ 53)%Z →
       foldr Qcplus 0 alloc.*2
       = foldr Qcplus 0
           (market_values (filter (λ r, get_cell r "Sector" ≠ CNull) (rows holdings)))
       ∧ summary !! "total_market_value"
         = Some (CNum (foldr Qcplus 0 (market_values (rows holdings))))
       ∧ (Forall (λ r, get_cell r "Sector" ≠ CNull) (rows holdings) →
            summary !! "total_market_value" = Some (CNum (foldr Qcplus 0 alloc.*2)))).
Proof.
  intros (_ & Hcalc & Hsheets)%load_excel_file_Ok.
  apply calculate_metrics_Ok in Hcalc as (Hsum & _ & Halloc & _).
  rewrite Forall_forall in Hsheets.
  assert (is_Some (data !! "Holdings_Detail")) as [holdings Hh].
  { apply Hsheets. set_solver. }
  assert (is_Some (data !! "Portfolio_Overview")) as [overview Ho].
  { apply Hsheets. set_solver. }
  unfold calc_portfolio_summary, calc_sector_allocation in *.
  rewrite Hh in Halloc. rewrite Ho, Hh in Hsum.
  destruct (groupby_sum_sorted "Sector" "Market_Value" holdings) as [alloc|]
    eqn:Hgroup; [|done].
  injection Halloc as Halloc.
  apply bind_Ok in Hsum as (portfolio & _ & Hsum).
  apply bind_Ok in Hsum as (s1 & _ & Hsum).
  apply bind_Ok in Hsum as (values & Hvalues & Hsum).
  apply bind_Ok in Hsum as (inception & _ & [= Hsum]).
  unfold column in Hvalues. case_decide; [|done]. injection Hvalues as <-.
  eexists holdings, alloc, _. split; [done|]. split; [done|]. split; [done|].
  split.
  { rewrite lookup_insert_ne by done. rewrite lookup_insert_ne by done.
    by rewrite lookup_insert_eq. }
  cbv zeta. intros Hwhole Hsmall.
  assert (small_whole_numbers (omap (number_of "Market_Value") (rows holdings)))
    as Hnumbers by (by split).
  apply (groupby_sum_total _ _ _ _ Hnumbers) in Hgroup.
  assert (<["inception_date":=inception]>
            (<["total_market_value":=
                 CNum (series_sum ((λ r, get_cell r "Market_Value") <$> rows holdings))]>
               (<["total_holdings":=
                    CNum (Qc_of_Z (Z.of_nat (length (rows holdings))))]> s1))
            !! "total_market_value"
          = Some (CNum (exact_sum "Market_Value" (rows holdings))))
    as Htotal.
  { rewrite lookup_insert_ne by done. rewrite lookup_insert_eq.
    rewrite series_sum_exact; rewrite numbers_of_rows; done. }
  split; [exact Hgroup|]. split; [exact Htotal|].
  intros Hall. rewrite Htotal, Hgroup. do 3 f_equal.
  symmetry. clear -Hall. induction Hall as [|r rs Hr _ IH]; [done|].
  rewrite filter_cons_True by done. by rewrite IH.
Qed.


(** *** Series for the charts *)

Lemma clean_time_series_has_date df sheet :
  clean_time_series df = Ok sheet → "Date"%string ∈ columns sheet.
Proof.
  intros Hclean. destruct (clean_time_series_shape _ _ Hclean) as [-> _].
  unfold clean_time_series, map_column in Hclean. by case_decide.
Qed.

Lemma select_columns_Ok cols df :
  Forall (λ c, c ∈ columns df) cols →
  ∃ out, select_columns cols df = Ok out
    ∧ columns out = cols
    ∧ Forall2 (λ r r', ∀ col,
          get_cell r' col = if decide (col ∈ cols) then get_cell r col else CNull)
        (rows df) (rows out).
Proof.
  intros Hcols. unfold select_columns.
  assert (filter (λ c, c ∉ columns df) cols = []) as ->.
  { induction Hcols as [|c cs Hc _ IH]; [done|].
    by rewrite filter_cons_False by (by intros Hn). }
  eexists. split; [done|]. split; [done|]. simpl.
  apply Forall2_fmap_r, Forall_Forall2_diag, Forall_forall. intros r _ col.
  unfold get_cell at 1. case_decide as Hcol.
  - erewrite elem_of_list_to_map_1'; [done| |].
    + intros x Hx. by apply list_elem_of_fmap in Hx as (c' & [= <- ->] & _).
    + apply list_elem_of_fmap. by exists col.
  - rewrite (not_elem_of_list_to_map_1 _ col); [done|].
    rewrite <-list_fmap_compose. intros (c & -> & Hc)%list_elem_of_fmap. done.
Qed.

(** X16. After a successful load, [get_time_series_data] succeeds on each
    of the five time-series sheets whatever columns are asked for. Without
    columns (or with an empty list) it returns the sheet. With columns it
    returns Date followed by the requested columns the sheet has, in the
    order asked; the columns the sheet lacks are dropped without an error;
    the rows are those of the sheet, in its order, cut down to these
    columns. *)
Theorem time_series_data_after_load excel_data data processed name cols :
  load_excel_file excel_data = Ok (data, processed) →
  name ∈ time_series_sheets →
  ∃ sheet out,
    data !! name = Some sheet
    ∧ get_time_series_data data name cols = Ok out
    ∧ (cols = None ∨ cols = Some [] → out = sheet)
    ∧ (∀ c cs, cols = Some (c :: cs) →
         columns out = "Date"%string :: filter (λ col, col ∈ columns sheet) (c :: cs)
         ∧ Forall2 (λ r r', ∀ col,
               get_cell r' col
               = if decide (col ∈ columns out) then get_cell r col else CNull)
             (rows sheet) (rows out)).
Proof.
  intros Hload Hname.
  pose proof Hload as (Hclean & _ & Hsheets)%load_excel_file_Ok.
  assert (is_Some (data !! name)) as [sheet Hsheet].
  { rewrite Forall_forall in Hsheets. apply Hsheets. revert Hname.
    unfold time_series_sheets, expected_sheets. set_solver. }
  assert ("Date"%string ∈ columns sheet) as Hdate.
  { unfold _clean_data in Hclean. apply bind_Ok in Hclean as (data1 & _ & Hrest).
    apply bind_Ok in Hrest as (data2 & _ & Hrest).
    destruct (clean_sheets_cleaned _ _ _ _ _ _ time_series_sheets_NoDup
                Hname Hrest Hsheet) as [df Hdf].
    by eapply clean_time_series_has_date. }
  exists sheet. unfold get_time_series_data. rewrite Hsheet.
  destruct cols as [[|c cs]|].
  - exists sheet. split; [done|]. split; [done|]. split; [done|]. by intros ?? [=].
  - destruct (select_columns_Ok
                ("Date"%string :: filter (λ col, col ∈ columns sheet) (c :: cs)) sheet)
      as (out & Hout & Hcols & Hrows).
    { constructor; [done|]. apply Forall_forall.
      by intros col [? _]%list_elem_of_filter. }
    exists out. split; [done|]. split; [done|]. split.
    + by intros [[=]|[=]].
    + intros c' cs' [= <- <-]. split; [done|]. by rewrite Hcols.
  - exists sheet. split; [done|]. split; [done|]. split; [done|]. by intros ?? [=].
Qed.

End with_pandas.


(** ** Workbooks to evaluate the processor on *)

(** A runtime to evaluate examples with: no text reads as a number or as
    a date, and float64 sums are the sums (the examples add small whole
    numbers). *)
Definition example_pandas : PandasRuntime :=
  {| parse_numeric := λ _, None;
     parse_datetime := λ _, None;
     series_float_sum := foldr Qcplus 0;
     group_float_sum := foldr Qcplus 0;
     series_float_sum_exact := λ _ _, eq_refl;
     group_float_sum_exact := λ _ _, eq_refl |}.

(** A sheet from its header line and its lines of cells. *)
Definition frame (cols : list string) (lines : list (list cell)) : DataFrame :=
  {| columns := cols; rows := (λ cs, list_to_map (zip cols cs)) <$> lines |}.

Definition num (n : Z) : cell := CNum (Qc_of_Z n).

Definition overview_sheet : DataFrame :=
  frame ["Fund_Name"; "Total_AUM"; "Base_Currency"; "Target_Return"; "Risk_Level";
         "Benchmark"; "Inception_Date"; "Last_Updated"]%string
        [[CStr "Sovereign Fund"; num 5000; CStr "USD"; num 7; CStr "Moderate";
          CStr "MSCI World"; CDate 100; CDate 900]].

Definition holdings_columns : list string :=
  ["Asset_Name"; "Ticker_Symbol"; "Market_Value"; "Weight_Percent"; "Sector";
   "Purchase_Date"; "Units_Held"; "Average_Cost"; "Current_Price";
   "Dividend_Yield"]%string.

Definition holding_line (name sector : string) (value : Z) : list cell :=
  [CStr name; CStr name; num value; num 1; CStr sector; CDate 50; num 10; num 3;
   num 4; num 0].

(** Twelve holdings in three sectors. *)
Definition holdings_sheet : DataFrame :=
  frame holdings_columns
    [holding_line "A" "Tech" 40; holding_line "B" "Energy" 10;
     holding_line "C" "Tech" 95; holding_line "D" "Health" 20;
     holding_line "E" "Energy" 70; holding_line "F" "Tech" 5;
     holding_line "G" "Health" 60; holding_line "H" "Tech" 30;
     holding_line "I" "Energy" 80; holding_line "J" "Health" 15;
     holding_line "K" "Tech" 50; holding_line "L" "Energy" 25].

Definition performance_columns : list string :=
  ["Date"; "Portfolio_Value"; "Cumulative_Return"; "Daily_Return"; "Volatility";
   "Sharpe_Ratio"; "Max_Drawdown"; "Active_Return"]%string.

Definition performance_line (date : cell) (cumulative : Z) : list cell :=
  [date; num 5000; num cumulative; num 0; num 2; num 1; num (-3); num 0].

Definition risk_columns : list string :=
  ["Date"; "Portfolio_Beta"; "VaR_95"; "CVaR_95"; "Tracking_Error";
   "Correlation_Benchmark"; "Concentration_Risk"; "Liquidity_Score"]%string.

Definition risk_sheet : DataFrame :=
  frame risk_columns
    [[CDate 3; num 1; num 30; num 40; num 2; num 1; num 5; num 8];
     [CDate 1; num 2; num 10; num 20; num 2; num 1; num 5; num 8]].

Definition dates_only : DataFrame := frame ["Date"%string] [[CDate 1]; [CDate 2]].

Definition workbook_with (performance : DataFrame) : gmap string DataFrame :=
  list_to_map
    [("Portfolio_Overview", overview_sheet); ("Holdings_Detail", holdings_sheet);
     ("Historical_Performance", performance); ("Benchmarks", dates_only);
     ("Risk_Metrics", risk_sheet); ("Cash_Flows", dates_only);
     ("Market_Data", dates_only)]%string.

(** Every row of the performance sheet is dated; the sheet is not in date
    order. *)
Definition dated_workbook : gmap string DataFrame :=
  workbook_with
    (frame performance_columns
       [performance_line (CDate 2) 20; performance_line (CDate 3) 30;
        performance_line (CDate 1) 10]).

(** The same sheet with one more line whose Date cell is empty. *)
Definition undated_row_workbook : gmap string DataFrame :=
  workbook_with
    (frame performance_columns
       [performance_line (CDate 2) 20; performance_line CNull 99;
        performance_line (CDate 3) 30; performance_line (CDate 1) 10]).


(** What a load returned, for a workbook it succeeds on. *)
Definition loaded (excel_data : gmap string DataFrame)
    : gmap string DataFrame * ProcessedData :=
  match @load_excel_file example_pandas excel_data with
  | Ok r => r
  | Raise _ =>
      (∅, {| portfolio_summary := None; top_holdings := None;
             sector_allocation := None; performance_summary := None;
             risk_summary := None |})
  end.

Lemma loaded_Ok excel_data :
  succeeds (@load_excel_file example_pandas excel_data) = true →
  @load_excel_file example_pandas excel_data
  = Ok ((loaded excel_data).1, (loaded excel_data).2).
Proof.
  unfold loaded. by destruct (@load_excel_file example_pandas excel_data) as [[d p]|].
Qed.

Lemma top_holdings_and_sector_allocation_witness :
  @load_excel_file example_pandas dated_workbook
  = Ok ((loaded dated_workbook).1, (loaded dated_workbook).2)
  ∧ ∃ holdings top,
      (loaded dated_workbook).1 !! "Holdings_Detail" = Some holdings
      ∧ top_holdings (loaded dated_workbook).2 = Some top
      ∧ length top = (10 `min` length (rows holdings))%nat.
Proof.
  assert (@load_excel_file example_pandas dated_workbook
          = Ok ((loaded dated_workbook).1, (loaded dated_workbook).2)) as Hload.
  { apply loaded_Ok. vm_compute. reflexivity. }
  split; [exact Hload|].
  destruct (@top_holdings_and_sector_allocation example_pandas
              dated_workbook _ _ Hload)
    as (holdings & top & alloc & Hh & Htop & _ & Hlen & _).
  exists holdings, top. split; [exact Hh|]. split; [exact Htop|exact Hlen].
Defined.

(** The twelve holdings of [dated_workbook]: the ten largest are kept, in
    decreasing order of Market_Value, and the three sectors are summed. *)
Example dated_workbook_aggregates :
  (λ rec, get_cell rec "Asset_Name")
    <$> default [] (top_holdings (loaded dated_workbook).2)
  = [CStr "C"; CStr "I"; CStr "E"; CStr "G"; CStr "K"; CStr "A"; CStr "H";
     CStr "L"; CStr "D"; CStr "J"]
  ∧ (λ entry, (entry.1, this entry.2))
      <$> default [] (sector_allocation (loaded dated_workbook).2)
    = [(CStr "Tech", inject_Z 220); (CStr "Energy", inject_Z 185);
       (CStr "Health", inject_Z 95)].
Proof. split; vm_compute; reflexivity. Qed.

(** Two holdings of 2^62 each in one sector. *)
Definition large_holdings_workbook : gmap string DataFrame :=
  <["Holdings_Detail" :=
      frame holdings_columns
        [holding_line "A" "Tech" (2 ^ 62); holding_line "B" "Tech" (2 ^ 62)]]>
    dated_workbook.

(** C4, counterexample. The workbook [large_holdings_workbook] has every
    required sheet and column; its two holdings are of one sector and their
    Market_Value cells hold the whole number 2^62, so the column is an int64
    column. The load succeeds and [sector_allocation] maps the sector to
    -2^63, which is not the sum 2^63 of the two figures: the int64 sum
    wrapped around. *)
Lemma sector_total_wraps :
  let data := (loaded large_holdings_workbook).1 in
  let processed := (loaded large_holdings_workbook).2 in
  let holdings := default (frame [] []) (data !! "Holdings_Detail") in
  @load_excel_file example_pandas large_holdings_workbook = Ok (data, processed)
  ∧ data !! "Holdings_Detail" = Some holdings
  ∧ (λ r, (get_cell r "Sector", get_cell r "Market_Value")) <$> rows holdings
    = [(CStr "Tech", num (2 ^ 62)); (CStr "Tech", num (2 ^ 62))]
  ∧ sector_allocation processed = Some [(CStr "Tech", Qc_of_Z (- 2 ^ 63))]
  ∧ Qc_of_Z (- 2 ^ 63) ≠ Qc_of_Z (2 ^ 62) + Qc_of_Z (2 ^ 62).
Proof.
  split; [apply loaded_Ok; vm_compute; reflexivity|].
  split; [vm_compute; reflexivity|]. split; [vm_compute; reflexivity|].
  split; [vm_compute; reflexivity|].
  intros Heq. apply (f_equal this) in Heq. vm_compute in Heq. discriminate.
Qed.

(** C5, on a sheet with an undated row. The workbook
    [undated_row_workbook] has every required sheet and column; one row of
    its Historical_Performance sheet has an empty Date cell. The load
    succeeds. The cleaned sheet is in date order with the undated row last,
    and [performance_summary] is read off that row (total_return 99), not off
    the row with the latest date (date 3, total_return 30). *)
Theorem summary_reads_undated_row :
  let data := (loaded undated_row_workbook).1 in
  let processed := (loaded undated_row_workbook).2 in
  let sheet := default (frame [] []) (data !! "Historical_Performance") in
  let perf := default ∅ (performance_summary processed) in
  @load_excel_file example_pandas undated_row_workbook = Ok (data, processed)
  ∧ data !! "Historical_Performance" = Some sheet
  ∧ (λ r, get_cell r "Date") <$> rows sheet = [CDate 1; CDate 2; CDate 3; CNull]
  ∧ (λ r, get_cell r "Cumulative_Return") <$> rows sheet
    = [num 10; num 20; num 30; num 99]
  ∧ performance_summary processed = Some perf
  ∧ perf !! "total_return" = Some (num 99).
Proof.
  split; [apply loaded_Ok; vm_compute; reflexivity|].
  repeat split; vm_compute; reflexivity.
Qed.


(** ** The load of [dated_workbook], property by property *)

Lemma dated_workbook_loads :
  @load_excel_file example_pandas dated_workbook
  = Ok ((loaded dated_workbook).1, (loaded dated_workbook).2).
Proof. apply loaded_Ok. vm_compute. reflexivity. Qed.

Lemma load_keeps_shape_witness :
  dom (loaded dated_workbook).1 = dom dated_workbook.
Proof.
  exact (proj1 (@load_keeps_shape example_pandas dated_workbook _ _
                  dated_workbook_loads)).
Defined.

Lemma load_needs_rows_witness : rows risk_sheet ≠ [].
Proof.
  apply (@load_needs_rows example_pandas dated_workbook _ _ "Risk_Metrics" risk_sheet
           dated_workbook_loads).
  - repeat constructor.
  - vm_compute. reflexivity.
Defined.

Lemma load_sorts_time_series_witness :
  ∃ sheet,
    (loaded dated_workbook).1 !! "Historical_Performance" = Some sheet
    ∧ Forall (λ r, date_or_null (get_cell r "Date")) (rows sheet)
    ∧ StronglySorted by_date (rows sheet).
Proof.
  apply (@load_sorts_time_series example_pandas dated_workbook _ _
           "Historical_Performance" dated_workbook_loads).
  repeat constructor.
Defined.

Lemma summaries_read_last_row_witness :
  reads_last_row
    ((loaded dated_workbook).1 !! "Historical_Performance") performance_fields
    (performance_summary (loaded dated_workbook).2).
Proof.
  exact (proj1 (@summaries_read_last_row example_pandas dated_workbook _ _
                  dated_workbook_loads)).
Defined.

Lemma aggregates_are_ordered_witness :
  ∃ top alloc,
    top_holdings (loaded dated_workbook).2 = Some top
    ∧ sector_allocation (loaded dated_workbook).2 = Some alloc
    ∧ StronglySorted (not_smaller "Market_Value") top
    ∧ StronglySorted (λ a b, b.2 ≤ a.2) alloc.
Proof.
  exact (@aggregates_are_ordered example_pandas dated_workbook _ _
           dated_workbook_loads).
Defined.

Lemma sector_totals_add_up_witness :
  ∃ alloc summary,
    sector_allocation (loaded dated_workbook).2 = Some alloc
    ∧ portfolio_summary (loaded dated_workbook).2 = Some summary
    ∧ summary !! "total_holdings" = Some (num 12)
    ∧ summary !! "total_market_value" = Some (CNum (foldr Qcplus 0 alloc.*2)).
Proof.
  destruct (@sector_totals_add_up example_pandas dated_workbook _ _
              dated_workbook_loads)
    as (holdings & alloc & summary & Hh & Halloc & Hsummary & Hcount & Hsums).
  assert ((loaded dated_workbook).1 !! "Holdings_Detail" = Some holdings_sheet)
    as Hsheet by (vm_compute; reflexivity).
  rewrite Hsheet in Hh. injection Hh as <-.
  exists alloc, summary. split; [exact Halloc|]. split; [exact Hsummary|].
  split; [exact Hcount|].
  apply Hsums.
  - repeat constructor.
  - vm_compute. reflexivity.
  - apply (bool_decide_unpack _). vm_compute. reflexivity.
Defined.

Lemma time_series_data_after_load_witness :
  ∃ out,
    get_time_series_data (loaded dated_workbook).1 "Historical_Performance"
      (Some ["Volatility"; "Turnover"; "Sharpe_Ratio"]%string)
    = Ok out.
Proof.
  destruct (@time_series_data_after_load example_pandas dated_workbook _ _
              "Historical_Performance"
              (Some ["Volatility"; "Turnover"; "Sharpe_Ratio"]%string)
              dated_workbook_loads ltac:(repeat constructor))
    as (sheet & out & _ & Hout & _).
  exists out. exact Hout.
Defined.

End data_processor.

(** * backend/ai_engine.py: [_parse_recommendations] *)

Module ai_engine.

(** [str.isspace] on ASCII: tab, line feed, vertical tab, form feed,
    carriage return, the four separators 28..31 and the space *)
Definition is_space (c : ascii) : bool :=
  let n := nat_of_ascii c in bool_decide (9 ≤ n ≤ 13 ∨ 28 ≤ n ≤ 32)%nat.

(** [str.isdigit] on ASCII *)
Definition is_digit (c : ascii) : bool :=
  let n := nat_of_ascii c in bool_decide (48 ≤ n ≤ 57)%nat.

Fixpoint lstrip (s : string) : string :=
  match s with
  | EmptyString => EmptyString
  | String c s' => if is_space c then lstrip s' else s
  end.

Fixpoint rstrip (s : string) : string :=
  match s with
  | EmptyString => EmptyString
  | String c s' =>
      match rstrip s' with
      | EmptyString => if is_space c then EmptyString else String c EmptyString
      | r => String c r
      end
  end.

(** [s.strip()] *)
Definition py_strip (s : string) : string := rstrip (lstrip s).

(** [s.split(sep)] for a separator of one character *)
Fixpoint split_on (sep : ascii) (s : string) : list string :=
  match s with
  | EmptyString => [EmptyString]
  | String c s' =>
      if bool_decide (c = sep) then EmptyString :: split_on sep s'
      else match split_on sep s' with
           | head :: tail => String c head :: tail
           | [] => [String c EmptyString]
           end
  end.

(** [s.split(sep, 1)] for a separator of one character *)
Fixpoint split_once (sep : ascii) (s : string) : list string :=
  match s with
  | EmptyString => [EmptyString]
  | String c s' =>
      if bool_decide (c = sep) then [EmptyString; s']
      else match split_once sep s' with
           | head :: tail => String c head :: tail
           | [] => [String c EmptyString]
           end
  end.

(** [s[:n]] *)
Fixpoint str_take (n : nat) (s : string) : string :=
  match n, s with
  | S n', String c s' => String c (str_take n' s')
  | _, _ => EmptyString
  end.

(** One recommendation dict. *)
Record Recommendation := {
  title : string;
  description : string;
  priority : string;
  rationale : string;
  impact : string;
}.

Definition new_recommendation (title : string) : Recommendation :=
  {| title := title; description := ""; priority := "Medium"; rationale := "";
     impact := "" |}.

Definition set_priority (p : string) (rec : Recommendation) : Recommendation :=
  {| title := title rec; description := description rec; priority := p;
     rationale := rationale rec; impact := impact rec |}.

(** [rec['description'] += ' ' + line; rec['rationale'] += ' ' + line] *)
Definition add_text (line : string) (rec : Recommendation) : Recommendation :=
  {| title := title rec;
     description := description rec +:+ " " +:+ line;
     priority := priority rec;
     rationale := rationale rec +:+ " " +:+ line;
     impact := impact rec |}.

(** The state of the parsing loop: [recommendations] and [current_rec]
    ([None] is the empty dict, which is false). *)
Definition parser_state : Type := list Recommendation * option Recommendation.

(** [if current_rec: recommendations.append(current_rec)] *)
Definition flush (st : parser_state) : list Recommendation :=
  match st.2 with
  | Some current_rec => st.1 ++ [current_rec]
  | None => st.1
  end.

(** One turn of the [for line in lines] loop: the state after it, and the
    exception if one was raised (the list keeps what was appended before). *)
Definition parse_line (st : parser_state) (raw : string) : parser_state * option exn :=
  let line := py_strip raw in
  match line with
  | EmptyString => (st, None)
  | String c _ =>
      if is_digit c && py_contains "." (str_take 3 line) then
        match py_index (split_once "." line) 1 with
        | Ok rest => ((flush st, Some (new_recommendation (py_strip rest))), None)
        | Raise e => ((flush st, st.2), Some e)
        end
      else
        match st.2 with
        | Some current_rec =>
            let lowered := py_lower line in
            if py_contains "priority" lowered then
              if py_contains "high" lowered
              then ((st.1, Some (set_priority "High" current_rec)), None)
              else if py_contains "low" lowered
              then ((st.1, Some (set_priority "Low" current_rec)), None)
              else (st, None)
            else ((st.1, Some (add_text line current_rec)), None)
        | None => (st, None)
        end
  end.

Fixpoint parse_lines (st : parser_state) (lines : list string)
    : parser_state * option exn :=
  match lines with
  | [] => (st, None)
  | raw :: lines' =>
      match parse_line st raw with
      | (st', None) => parse_lines st' lines'
      | (st', Some e) => (st', Some e)
      end
  end.

(** The clean-up loop, one record. *)
Definition clean_up (rec : Recommendation) : Recommendation :=
  let d := py_strip (description rec) in
  let d := if bool_decide (d = EmptyString) then title rec else d in
  let r := py_strip (rationale rec) in
  let r := if bool_decide (r = EmptyString) then d else r in
  {| title := title rec; description := d; priority := priority rec;
     rationale := r; impact := impact rec |}.

(** One record of the handler's "basic parsed version". *)
Definition basic_recommendation (i : nat) (line : string) : option Recommendation :=
  if bool_decide (line = EmptyString) then None
  else Some {| title := "Recommendation " +:+ pretty (i + 1)%nat;
               description := line; priority := "Medium"; rationale := line;
               impact := "Portfolio optimization" |}.

Definition _parse_recommendations (recommendations_text : string)
    : list Recommendation :=
  let lines := split_on (ascii_of_nat 10) recommendations_text in
  match parse_lines ([], None) lines with
  | (st, None) => take 7 (clean_up <$> flush st)
  | (st, Some _) =>
      let stripped := filter (λ l, l ≠ EmptyString) (py_strip <$> lines) in
      take 7 (st.1 ++ omap id (imap basic_recommendation (take 7 stripped)))
  end.


(** ** The chat

    The Gemini client is not part of the repository. A call gives a value
    or raises, which [outcome] records with the [str(e)] of the exception.
    [generate_content client prompt true] is what reading [.text] off
    [client.generate_content(prompt, generation_config=...)] gives, building
    the configuration included; with [false] it is
    [client.generate_content(prompt)]. The outer outcome is that of the call,
    the inner one that of reading [.text]. *)

Inductive outcome (A : Type) :=
| Returns (a : A)
| Raises (error : string).
Arguments Returns {A} a.
Arguments Raises {A} error.

Record GeminiClient := {
  generate_content : string → bool → outcome (outcome string);
}.

(** [_generate_content]: the call without configuration is tried when the
    one with it raised; an exception of that second call, or of reading
    [.text], is logged and raised again. *)
Definition _generate_content (client : GeminiClient) (prompt system_instruction : string)
    : outcome string :=
  let full_prompt :=
    system_instruction +:+ vector_store.LF +:+ vector_store.LF +:+ prompt in
  let response :=
    match generate_content client full_prompt true with
    | Returns r => Returns r
    | Raises _ => generate_content client full_prompt false
    end in
  match response with
  | Returns text => text
  | Raises e => Raises e
  end.

(** One entry of [self.chat_history]. *)
Record ChatMessage := {
  role : string;
  message : string;
  timestamp : string;
}.

(** The engine: its vector store and its chat history. *)
Record PortfolioAIEngine := {
  store : vector_store.PortfolioVectorStore;
  chat_history : list ChatMessage;
}.

(** [l[-n:]] for a positive [n] *)
Definition last_n {A} (n : nat) (l : list A) : list A := drop (length l - n) l.

Definition chat_system_instruction : string :=
  String.concat vector_store.LF
    ["You are a knowledgeable portfolio advisor with access to detailed portfolio data. ";
     "            Answer questions about the portfolio using the specific data provided. Be detailed, specific, and use actual numbers ";
     "            from the data. Do not give generic responses - always reference the actual portfolio holdings, performance metrics, ";
     "            and risk data provided in the context."]%string.

(** [f"{msg['role']}: {msg['message']}"] *)
Definition history_line (msg : ChatMessage) : string :=
  role msg +:+ ": " +:+ message msg.

(** [recent_history = self.chat_history[-5:]] and the text joined from
    [recent_history[-4:]] *)
Definition history_text (chat_history : list ChatMessage) : string :=
  let recent_history := last_n 5 chat_history in
  String.concat vector_store.LF (history_line <$> last_n 4 recent_history).

Definition chat_prompt (context history user_message : string) : string :=
  "COMPLETE PORTFOLIO CONTEXT:" +:+ vector_store.LF +:+ context
  +:+ vector_store.LF +:+ vector_store.LF +:+ "RECENT CONVERSATION:" +:+ vector_store.LF
  +:+ history
  +:+ vector_store.LF +:+ vector_store.LF +:+ "CURRENT USER QUESTION: " +:+ user_message
  +:+ vector_store.LF +:+ vector_store.LF
  +:+ "Please provide a detailed, specific answer using the actual portfolio data above. Include specific company names, "
  +:+ vector_store.LF
  +:+ "exact percentages, and real numbers from the data. Do not give generic responses.".

Section chat.
Context `{PyRuntime}.

(** [chat_with_portfolio]: what the call gives and the engine after it;
    [now_user] and [now_assistant] are what [datetime.now().isoformat()]
    reads off the clock for the two entries. Every exception is raised
    again as a RuntimeError whose text starts with "AI chat failed: ". *)
Definition chat_with_portfolio (client : GeminiClient) (self : PortfolioAIEngine)
    (user_message : string) (processed_data : gmap string pyval)
    (now_user now_assistant : string) : outcome string * PortfolioAIEngine :=
  let context :=
    vector_store.get_context_for_query (store self) user_message processed_data in
  let history1 :=
    chat_history self
    ++ [{| role := "user"; message := user_message; timestamp := now_user |}] in
  let prompt := chat_prompt context (history_text history1) user_message in
  match _generate_content client prompt chat_system_instruction with
  | Returns response =>
      (Returns response,
       {| store := store self;
          chat_history :=
            history1 ++ [{| role := "assistant"; message := response;
                            timestamp := now_assistant |}] |})
  | Raises e =>
      (Raises ("AI chat failed: " +:+ e),
       {| store := store self; chat_history := history1 |})
  end.

Definition get_chat_history (self : PortfolioAIEngine) : list ChatMessage :=
  chat_history self.

Definition clear_chat_history (self : PortfolioAIEngine) : PortfolioAIEngine :=
  {| store := store self; chat_history := [] |}.

Definition get_vector_stats (self : PortfolioAIEngine) : vector_store.Stats :=
  vector_store.get_stats (store self).

(** The methods that work on the chat history. *)
Inductive chat_call :=
| Chat (client : GeminiClient) (user_message : string)
    (processed_data : gmap string pyval) (now_user now_assistant : string)
| ClearChatHistory.

Definition chat_step (self : PortfolioAIEngine) (c : chat_call) : PortfolioAIEngine :=
  match c with
  | Chat client user_message processed_data now_user now_assistant =>
      (chat_with_portfolio client self user_message processed_data
         now_user now_assistant).2
  | ClearChatHistory => clear_chat_history self
  end.

Definition chat_run (self : PortfolioAIEngine) (cs : list chat_call) : PortfolioAIEngine :=
  foldl chat_step self cs.

End chat.


(** ** The parsing loop never raises *)

Lemma contains_char_take (sep : ascii) n s :
  py_contains (String sep EmptyString) (str_take n s) = true →
  py_contains (String sep EmptyString) s = true.
Proof.
  revert s. induction n as [|n IH]; intros [|c s]; simpl; try done.
  rewrite !andb_true_r.
  destruct (bool_decide (sep = c)); [done|]. simpl. apply IH.
Qed.

Lemma split_once_contains (sep : ascii) s :
  py_contains (String sep EmptyString) s = true →
  ∃ before after, split_once sep s = [before; after].
Proof.
  induction s as [|c s IH]; simpl; [done|].
  rewrite andb_true_r.
  destruct (decide (sep = c)) as [->|Hne].
  - intros _. rewrite bool_decide_eq_true_2 by done. by eexists _, _.
  - rewrite (bool_decide_eq_false_2 (sep = c)) by done.
    rewrite (bool_decide_eq_false_2 (c = sep)) by done. simpl.
    intros (before & after & ->)%IH. by eexists _, _.
Qed.

Lemma parse_line_no_exception st raw : (parse_line st raw).2 = None.
Proof.
  unfold parse_line. destruct (py_strip raw) as [|c line] eqn:Hline; [done|].
  destruct (is_digit c && py_contains "." (str_take 3 (String c line))) eqn:Hnum.
  - apply andb_true_iff in Hnum as [_ Hdot].
    apply contains_char_take, split_once_contains in Hdot as (before & after & ->).
    done.
  - destruct st.2 as [current_rec|]; [|done].
    repeat (case_match; try done).
Qed.

Lemma parse_lines_no_exception st lines : (parse_lines st lines).2 = None.
Proof.
  revert st. induction lines as [|raw lines IH]; intros st; simpl; [done|].
  pose proof (parse_line_no_exception st raw) as Hline.
  destruct (parse_line st raw) as [st' [e|]]; [done|]. apply IH.
Qed.

Lemma parse_recommendations_normal text :
  _parse_recommendations text
  = take 7 (clean_up <$> flush (parse_lines ([], None) (split_on (ascii_of_nat 10) text)).1).
Proof.
  unfold _parse_recommendations.
  pose proof (parse_lines_no_exception ([], None) (split_on (ascii_of_nat 10) text)) as Hno.
  by destruct (parse_lines _ _) as [st [e|]].
Qed.

(** ** Priorities *)

Definition valid_priority (rec : Recommendation) : Prop :=
  priority rec = "High"%string ∨ priority rec = "Medium"%string
  ∨ priority rec = "Low"%string.

Definition valid_state (st : parser_state) : Prop :=
  Forall valid_priority st.1 ∧ ∀ rec, st.2 = Some rec → valid_priority rec.

Lemma flush_valid st : valid_state st → Forall valid_priority (flush st).
Proof.
  intros [Hrecs Hcur]. unfold flush. destruct st.2 as [rec|]; [|done].
  apply Forall_app. split; [done|]. constructor; [by apply Hcur|constructor].
Qed.

Lemma parse_line_valid st raw : valid_state st → valid_state (parse_line st raw).1.
Proof.
  intros Hst. pose proof (flush_valid st Hst) as Hflush.
  pose proof Hst as [Hrecs Hcur].
  unfold parse_line. destruct (py_strip raw) as [|c line]; [done|].
  destruct (is_digit c && _).
  - destruct (py_index _ 1) as [rest|e]; simpl; split; simpl; try done.
    intros rec [= <-]. right. by left.
  - destruct (st.2) as [current_rec|] eqn:Hcurrent; [|done].
    specialize (Hcur current_rec eq_refl).
    destruct (py_contains "priority" _).
    + destruct (py_contains "high" _); [|destruct (py_contains "low" _)];
        [| |done]; (split; simpl; [done|]); intros rec [= <-];
        unfold valid_priority; simpl; auto.
    + split; simpl; [done|]. by intros rec [= <-].
Qed.

Lemma parse_lines_valid st lines : valid_state st → valid_state (parse_lines st lines).1.
Proof.
  revert st. induction lines as [|raw lines IH]; intros st Hst; simpl; [done|].
  pose proof (parse_line_valid st raw Hst) as Hline.
  destruct (parse_line st raw) as [st' [e|]]; [done|]. by apply IH.
Qed.

(** ** The clean-up *)

Lemma clean_up_fallback rec :
  priority (clean_up rec) = priority rec
  ∧ title (clean_up rec) = title rec
  ∧ (description (clean_up rec) = EmptyString → title rec = EmptyString)
  ∧ (rationale (clean_up rec) = EmptyString → title rec = EmptyString).
Proof.
  unfold clean_up. simpl. split; [done|]. split; [done|].
  destruct (decide (py_strip (description rec) = EmptyString)) as [Hd|Hd].
  - rewrite (bool_decide_eq_true_2 _ Hd).
    destruct (decide (py_strip (rationale rec) = EmptyString)) as [Hr|Hr].
    + by rewrite (bool_decide_eq_true_2 _ Hr).
    + by rewrite (bool_decide_eq_false_2 _ Hr).
  - rewrite (bool_decide_eq_false_2 _ Hd).
    destruct (decide (py_strip (rationale rec) = EmptyString)) as [Hr|Hr].
    + by rewrite (bool_decide_eq_true_2 _ Hr).
    + by rewrite (bool_decide_eq_false_2 _ Hr).
Qed.

(** C6, as the code has it. For every response text the parsing loop
    raises no exception and [_parse_recommendations] returns a list of at
    most 7 records with title, description, priority, rationale and impact;
    the priority of each is High, Medium or Low; the description and the
    rationale of a record are empty only when its title is empty (they fall
    back to the title), so a record with a title has both. *)
Theorem parse_recommendations_shape text :
  let recs := _parse_recommendations text in
  (length recs ≤ 7)%nat
  ∧ Forall (λ rec, priority rec = "High"%string ∨ priority rec = "Medium"%string
                   ∨ priority rec = "Low"%string) recs
  ∧ Forall (λ rec, (description rec = EmptyString → title rec = EmptyString)
                   ∧ (rationale rec = EmptyString → title rec = EmptyString)) recs
  ∧ Forall (λ rec, title rec ≠ EmptyString →
                   description rec ≠ EmptyString ∧ rationale rec ≠ EmptyString) recs
  ∧ (parse_lines ([], None) (split_on (ascii_of_nat 10) text)).2 = None.
Proof.
  intros recs. unfold recs. rewrite parse_recommendations_normal.
  set (st := (parse_lines ([], None) (split_on (ascii_of_nat 10) text)).1).
  assert (Forall valid_priority (flush st)) as Hvalid.
  { apply flush_valid, parse_lines_valid. split; [constructor|done]. }
  split; [rewrite length_take; lia|].
  split; [|split; [|split; [|apply parse_lines_no_exception]]].
  - apply Forall_take, Forall_fmap. eapply Forall_impl; [exact Hvalid|].
    intros rec Hrec. cbv beta. unfold compose.
    destruct (clean_up_fallback rec) as (-> & _). exact Hrec.
  - apply Forall_take, Forall_fmap, Forall_forall. intros rec _. unfold compose.
    destruct (clean_up_fallback rec) as (_ & -> & Hd & Hr). done.
  - apply Forall_take, Forall_fmap, Forall_forall. intros rec _. unfold compose.
    destruct (clean_up_fallback rec) as (_ & -> & Hd & Hr).
    intros Htitle. split; intros Hempty; auto.
Qed.

(** C6, counterexample. The response "1." is a numbered line whose title
    is empty: the one record returned has an empty description and an
    empty rationale. *)
Lemma empty_title_empty_description :
  _parse_recommendations "1."
  = [{| title := ""; description := ""; priority := "Medium"; rationale := "";
        impact := "" |}]
  ∧ Exists (λ rec, description rec = EmptyString ∧ rationale rec = EmptyString)
      (_parse_recommendations "1.").
Proof. split; [by vm_compute|]. vm_compute. by constructor. Qed.


(** ** Rationale and impact *)

(** The rationale of a record is its description and its impact is empty. *)
Definition plain_record (rec : Recommendation) : Prop :=
  rationale rec = description rec ∧ impact rec = EmptyString.

Definition plain_state (st : parser_state) : Prop :=
  Forall plain_record st.1 ∧ ∀ rec, st.2 = Some rec → plain_record rec.

Lemma flush_plain st : plain_state st → Forall plain_record (flush st).
Proof.
  intros [Hrecs Hcur]. unfold flush. destruct st.2 as [rec|]; [|done].
  apply Forall_app. split; [done|]. constructor; [by apply Hcur|constructor].
Qed.

Lemma parse_line_plain st raw : plain_state st → plain_state (parse_line st raw).1.
Proof.
  intros Hst. pose proof (flush_plain st Hst) as Hflush.
  pose proof Hst as [Hrecs Hcur].
  unfold parse_line. destruct (py_strip raw) as [|c line]; [done|].
  destruct (is_digit c && _).
  - destruct (py_index _ 1) as [rest|e]; simpl; split; simpl; try done.
    by intros rec [= <-].
  - destruct (st.2) as [current_rec|] eqn:Hcurrent; [|done].
    destruct (Hcur current_rec eq_refl) as [Hr Hi].
    destruct (py_contains "priority" _).
    + destruct (py_contains "high" _); [|destruct (py_contains "low" _)];
        [| |done]; (split; simpl; [done|]); by intros rec [= <-].
    + split; simpl; [done|]. intros rec [= <-]. split; simpl; [|done].
      by rewrite Hr.
Qed.

Lemma parse_lines_plain st lines : plain_state st → plain_state (parse_lines st lines).1.
Proof.
  revert st. induction lines as [|raw lines IH]; intros st Hst; simpl; [done|].
  pose proof (parse_line_plain st raw Hst) as Hline.
  destruct (parse_line st raw) as [st' [e|]]; [done|]. by apply IH.
Qed.

Lemma clean_up_plain rec : plain_record rec → plain_record (clean_up rec).
Proof.
  intros [Hr Hi]. unfold clean_up, plain_record. simpl. rewrite Hr. split; [|done].
  by destruct (bool_decide (py_strip (description rec) = EmptyString)).
Qed.

(** X17. Whatever the response text, every record that
    [_parse_recommendations] returns has a rationale equal to its
    description and an empty impact: the parser fills the two fields with
    nothing of their own. *)
Theorem rationale_is_description text :
  Forall (λ rec, rationale rec = description rec ∧ impact rec = EmptyString)
    (_parse_recommendations text).
Proof.
  rewrite parse_recommendations_normal.
  apply Forall_take, Forall_fmap.
  eapply Forall_impl; [apply flush_plain, parse_lines_plain|].
  - split; [constructor|done].
  - intros rec Hrec. by apply clean_up_plain.
Qed.

(** ** One record per numbered line *)

(** A line that starts a recommendation: stripped, it begins with a digit
    and has a dot among its first three characters. *)
Definition is_numbered (raw : string) : bool :=
  match py_strip raw with
  | EmptyString => false
  | String c line => is_digit c && py_contains "." (str_take 3 (String c line))
  end.

(** The title of a numbered line: what follows its first dot, stripped. *)
Definition title_of (raw : string) : string :=
  py_strip (default EmptyString (split_once "." (py_strip raw) !! 1%nat)).

Lemma py_index_1 {A} (l : list A) :
  py_index l 1 = from_option Ok (Raise IndexError) (l !! 1%nat).
Proof.
  unfold py_index. destruct (decide (0 ≤ 1)%Z) as [_|?]; [|lia].
  destruct (decide (0 ≤ 1)%Z) as [_|?]; [|lia].
  change (Z.to_nat 1) with 1%nat. by destruct (l !! 1%nat).
Qed.

Lemma parse_line_titles st raw :
  title <$> flush (parse_line st raw).1
  = (title <$> flush st) ++ (if is_numbered raw then [title_of raw] else []).
Proof.
  unfold parse_line, is_numbered, title_of.
  destruct (py_strip raw) as [|c line] eqn:Hline; [by rewrite app_nil_r|].
  destruct (is_digit c && py_contains "." (str_take 3 (String c line))) eqn:Hnum.
  - rewrite py_index_1. apply andb_true_iff in Hnum as [_ Hdot].
    apply contains_char_take, split_once_contains in Hdot as (before & after & ->).
    simpl. unfold flush at 1. simpl. by rewrite fmap_app.
  - rewrite app_nil_r. unfold flush.
    destruct st as [recs [current_rec|]]; cbn [fst snd]; [|done].
    destruct (py_contains "priority" _);
      [|cbn [fst snd]; by rewrite !fmap_app].
    destruct (py_contains "high" _); [cbn [fst snd]; by rewrite !fmap_app|].
    by destruct (py_contains "low" _); cbn [fst snd]; rewrite ?fmap_app.
Qed.

Lemma parse_lines_titles st lines :
  title <$> flush (parse_lines st lines).1
  = (title <$> flush st) ++ (title_of <$> filter (λ raw, is_numbered raw = true) lines).
Proof.
  revert st. induction lines as [|raw lines IH]; intros st; simpl.
  - by rewrite app_nil_r.
  - pose proof (parse_line_no_exception st raw) as Hno.
    pose proof (parse_line_titles st raw) as Htitles.
    destruct (parse_line st raw) as [st' [e|]]; [done|]. simpl in Htitles.
    rewrite IH, Htitles, <-app_assoc. f_equal. rewrite filter_cons.
    destruct (is_numbered raw); [by rewrite decide_True|by rewrite decide_False].
Qed.

(** X18. On a response in ASCII, [_parse_recommendations] returns one
    record per numbered line of the response, in the order of the lines and
    cut after the seventh; the title of each is what follows the first dot of
    its line, stripped. Lines before the first numbered line add nothing, and
    a response without a numbered line gives the empty list. *)
Theorem one_record_per_numbered_line text :
  ascii_text text →
  let numbered :=
    filter (λ raw, is_numbered raw = true) (split_on (ascii_of_nat 10) text) in
  title <$> _parse_recommendations text = take 7 (title_of <$> numbered)
  ∧ length (_parse_recommendations text) = (7 `min` length numbered)%nat.
Proof.
  intros _ numbered.
  assert (title <$> _parse_recommendations text = take 7 (title_of <$> numbered)) as Ht.
  { rewrite parse_recommendations_normal, fmap_take, <-list_fmap_compose.
    f_equal.
    pose proof (parse_lines_titles ([], None) (split_on (ascii_of_nat 10) text)) as Hl.
    change (title <$> flush ([], None)) with (@nil string) in Hl.
    rewrite app_nil_l in Hl. fold numbered in Hl. rewrite <-Hl.
    apply list_fmap_ext. intros i rec _. unfold compose.
    by destruct (clean_up_fallback rec) as (_ & -> & _). }
  split; [done|].
  apply (f_equal length) in Ht.
  by rewrite length_fmap, length_take, length_fmap in Ht.
Qed.

(** A response with a heading, two numbered lines, a line of text and a
    line whose dot comes too late. *)
Definition numbered_response : string :=
  "Recommendations:" +:+ String (ascii_of_nat 10)
  ("1. Buy bonds" +:+ String (ascii_of_nat 10)
  ("   Priority: high" +:+ String (ascii_of_nat 10)
  ("2024. was a good year" +:+ String (ascii_of_nat 10)
  " 12. Sell tech. Now "))).

Lemma one_record_per_numbered_line_witness :
  ascii_text numbered_response
  ∧ title <$> _parse_recommendations numbered_response
    = ["Buy bonds"; "Sell tech. Now"]%string.
Proof.
  assert (ascii_text numbered_response) as Hascii.
  { unfold ascii_text. apply (bool_decide_unpack _). vm_compute. reflexivity. }
  split; [exact Hascii|].
  destruct (one_record_per_numbered_line numbered_response Hascii) as [Htitles _].
  rewrite Htitles. vm_compute. reflexivity.
Defined.


(** ** The chat history *)

Section chat_history.
Context `{PyRuntime}.

(** The roles of a history in which every reply follows a question: a
    sequence of questions, each with or without its reply. *)
Inductive dialogue : list string → Prop :=
| dialogue_nil : dialogue []
| dialogue_question roles : dialogue roles → dialogue (roles ++ ["user"%string])
| dialogue_reply roles :
    dialogue roles → dialogue (roles ++ ["user"; "assistant"]%string).

Lemma chat_with_portfolio_history client self user_message processed_data
    now_user now_assistant :
  let r := chat_with_portfolio client self user_message processed_data
             now_user now_assistant in
  store r.2 = store self
  ∧ ((∃ response,
        r.1 = Returns response
        ∧ chat_history r.2
          = chat_history self
            ++ [{| role := "user"; message := user_message; timestamp := now_user |};
                {| role := "assistant"; message := response;
                   timestamp := now_assistant |}])
     ∨ (∃ e,
          r.1 = Raises ("AI chat failed: " +:+ e)
          ∧ chat_history r.2
            = chat_history self
              ++ [{| role := "user"; message := user_message;
                     timestamp := now_user |}])).
Proof.
  unfold chat_with_portfolio. cbv zeta.
  destruct (_generate_content _ _ _) as [response|e]; simpl.
  - split; [done|]. left. exists response. split; [done|]. by rewrite <-app_assoc.
  - split; [done|]. right. by exists e.
Qed.

Lemma chat_step_dialogue self c :
  dialogue (role <$> chat_history self) →
  dialogue (role <$> chat_history (chat_step self c)).
Proof.
  intros Hd. destruct c as [client user_message data now_user now_assistant|]; simpl.
  - destruct (chat_with_portfolio_history client self user_message data
                now_user now_assistant) as [_ [(r & _ & ->)|(e & _ & ->)]];
      rewrite fmap_app; by constructor.
  - constructor.
Qed.

Lemma chat_step_store self c : store (chat_step self c) = store self.
Proof.
  destruct c as [client user_message data now_user now_assistant|]; [|done].
  apply chat_with_portfolio_history.
Qed.

Lemma chat_run_dialogue self cs :
  dialogue (role <$> chat_history self) →
  dialogue (role <$> chat_history (chat_run self cs)).
Proof.
  revert self. induction cs as [|c cs IH]; intros self Hd; [done|].
  simpl. by apply IH, chat_step_dialogue.
Qed.

Lemma chat_run_store self cs : store (chat_run self cs) = store self.
Proof.
  revert self. induction cs as [|c cs IH]; intros self; [done|].
  simpl. by rewrite IH, chat_step_store.
Qed.

Lemma dialogue_roles roles :
  dialogue roles →
  Forall (λ r, r = "user"%string ∨ r = "assistant"%string) roles
  ∧ ∀ i, roles !! i = Some "assistant"%string →
      ∃ j, i = S j ∧ roles !! j = Some "user"%string.
Proof.
  induction 1 as [|roles _ [IHall IHprev]|roles _ [IHall IHprev]].
  - split; [constructor|]. by intros i ?.
  - split.
    + apply Forall_app. split; [done|]. constructor; [by left|constructor].
    + intros i Hi. destruct (decide (i < length roles)%nat) as [Hlt|Hge].
      * rewrite lookup_app_l in Hi by done.
        destruct (IHprev i Hi) as (j & -> & Hj). exists j. split; [done|].
        rewrite lookup_app_l by lia. done.
      * rewrite lookup_app_r in Hi by lia.
        destruct (i - length roles)%nat as [|[|k]]; done.
  - split.
    + apply Forall_app. split; [done|].
      constructor; [by left|]. constructor; [by right|constructor].
    + intros i Hi. destruct (decide (i < length roles)%nat) as [Hlt|Hge].
      * rewrite lookup_app_l in Hi by done.
        destruct (IHprev i Hi) as (j & -> & Hj). exists j. split; [done|].
        rewrite lookup_app_l by lia. done.
      * rewrite lookup_app_r in Hi by lia.
        destruct (i - length roles)%nat as [|[|k]] eqn:Hk; [done| |done].
        exists (length roles). split; [lia|].
        rewrite lookup_app_r by lia. by rewrite Nat.sub_diag.
Qed.

(** X19. Whatever the model answers and wherever it fails, after any run
    of [chat_with_portfolio] and [clear_chat_history] calls on an engine
    with an empty history: every entry of the history has the role user or
    assistant, every assistant entry comes right after a user entry (a
    reply is never stored without its question), and the vector store is the
    one the engine had. *)
Theorem replies_follow_questions self cs :
  chat_history self = [] →
  let history := chat_history (chat_run self cs) in
  Forall (λ m, role m = "user"%string ∨ role m = "assistant"%string) history
  ∧ (∀ i m, history !! i = Some m → role m = "assistant"%string →
       ∃ j q, i = S j ∧ history !! j = Some q ∧ role q = "user"%string)
  ∧ store (chat_run self cs) = store self.
Proof.
  intros Hempty history.
  assert (dialogue (role <$> history)) as [Hall Hprev]%dialogue_roles.
  { apply chat_run_dialogue. rewrite Hempty. constructor. }
  split; [by apply Forall_fmap in Hall|]. split; [|apply chat_run_store].
  intros i m Hm Hrole.
  destruct (Hprev i) as (j & -> & Hj).
  { by rewrite list_lookup_fmap, Hm, <-Hrole. }
  rewrite list_lookup_fmap in Hj.
  destruct (history !! j) as [q|] eqn:Hq; [|done].
  exists j, q. split; [done|]. split; [done|]. by injection Hj.
Qed.

(** The questions asked since the history was last cleared. *)
Definition questions_since_clear (cs : list chat_call) : list string :=
  foldl (λ asked c,
           match c with
           | Chat _ user_message _ _ _ => asked ++ [user_message]
           | ClearChatHistory => []
           end) [] cs.

Definition user_messages (history : list ChatMessage) : list string :=
  message <$> filter (λ m, role m = "user"%string) history.

Lemma chat_step_user_messages self c :
  user_messages (chat_history (chat_step self c))
  = match c with
    | Chat _ user_message _ _ _ => user_messages (chat_history self) ++ [user_message]
    | ClearChatHistory => []
    end.
Proof.
  destruct c as [client user_message data now_user now_assistant|]; [|done].
  unfold user_messages. simpl.
  destruct (chat_with_portfolio_history client self user_message data
              now_user now_assistant) as [_ [(r & _ & ->)|(e & _ & ->)]];
    rewrite filter_app, fmap_app; f_equal.
Qed.

Lemma chat_run_user_messages self cs :
  user_messages (chat_history (chat_run self cs))
  = foldl (λ asked c,
             match c with
             | Chat _ user_message _ _ _ => asked ++ [user_message]
             | ClearChatHistory => []
             end) (user_messages (chat_history self)) cs.
Proof.
  revert self. induction cs as [|c cs IH]; intros self; [done|].
  simpl. rewrite IH, chat_step_user_messages. by destruct c.
Qed.

(** X20. No question is lost: after any run of [chat_with_portfolio] and
    [clear_chat_history] calls on an engine with an empty history, the
    user entries of the history are the questions asked since the last
    clear, in the order they were asked, whether the model answered them or
    the call failed. *)
Theorem questions_are_kept self cs :
  chat_history self = [] →
  message <$> filter (λ m, role m = "user"%string) (chat_history (chat_run self cs))
  = questions_since_clear cs.
Proof.
  intros Hempty. fold (user_messages (chat_history (chat_run self cs))).
  rewrite chat_run_user_messages. by rewrite Hempty.
Qed.

End chat_history.

(** ** The conversation quoted in the prompt *)

Lemma last_n_app_singleton {A} (n : nat) (l : list A) (x : A) :
  last_n (S n) (l ++ [x]) = last_n n l ++ [x].
Proof.
  unfold last_n. rewrite length_app. simpl.
  replace (length l + 1 - S n)%nat with (length l - n)%nat by lia.
  rewrite drop_app_le by lia. done.
Qed.

Lemma last_n_last_n {A} (n m : nat) (l : list A) :
  (n ≤ m)%nat → last_n n (last_n m l) = last_n n l.
Proof.
  intros Hnm. unfold last_n. rewrite length_drop, drop_drop. f_equal. lia.
Qed.

(** X21. The conversation quoted in the prompt of a chat is made of the
    last four entries of the history once the question is appended: the
    question itself, as the last line, and at most the three entries before
    it (the slice of five taken first changes nothing). *)
Theorem prompt_quotes_three_earlier_messages history question :
  history_text (history ++ [question])
  = String.concat vector_store.LF
      (history_line <$> (last_n 3 history ++ [question])).
Proof.
  unfold history_text. cbv zeta.
  rewrite last_n_last_n by lia. by rewrite last_n_app_singleton.
Qed.


(** ** A conversation to evaluate the chat on *)

(** A client whose calls all fail. *)
Definition failing_client : GeminiClient :=
  {| generate_content := λ _ _, Raises "quota exceeded" |}.

(** A client that answers, when called without configuration only. *)
Definition answering_client : GeminiClient :=
  {| generate_content := λ _ with_config,
       if with_config then Raises "unknown field" else Returns (Returns "Twelve.") |}.

(** The engine as [__init__] leaves it. *)
Definition new_engine : PortfolioAIEngine :=
  {| store := vector_store.__init__ 384; chat_history := [] |}.

Definition conversation : list chat_call :=
  [Chat failing_client "How many holdings?" ∅ "09:00" "09:01";
   Chat answering_client "How many holdings?" ∅ "09:02" "09:03"].

Lemma replies_follow_questions_witness :
  store (@chat_run example_runtime new_engine conversation) = store new_engine.
Proof.
  exact (proj2 (proj2 (@replies_follow_questions example_runtime new_engine
                         conversation eq_refl))).
Defined.

Lemma questions_are_kept_witness :
  message <$> filter (λ m, role m = "user"%string)
                (chat_history (@chat_run example_runtime new_engine conversation))
  = ["How many holdings?"; "How many holdings?"]%string.
Proof.
  exact (@questions_are_kept example_runtime new_engine conversation eq_refl).
Defined.

End ai_engine.

(** * frontend/utils.py: [calculate_portfolio_metrics] *)

Module utils.

(** A value of the metrics dict: a number, or [float('inf')]. *)
Inductive metric :=
| Finite (x : Qc)
| Infinity.

(** [abs(x)] *)
Definition py_abs (x : Qc) : Qc := if decide (x < 0) then - x else x.

(** The performance block; [metrics] is the dict so far. *)
Definition performance_metrics (perf : pyval) (metrics : gmap string metric)
    : result (gmap string metric) :=
  total_return ← py_get perf "total_return" (PyNum 0);
  volatility ← py_get perf "volatility" (PyNum 0);
  v ← py_num volatility;
  ratio ← (if decide (0 < v) then
             r ← py_num total_return; q ← py_div r v; Ok (Finite q)
           else Ok (Finite 0));
  let metrics := <["return_volatility_ratio" := ratio]> metrics in
  max_drawdown ← py_get perf "max_drawdown" (PyNum 0);
  m ← py_num max_drawdown;
  recovery ← (if decide (m < 0) then
                r ← py_num total_return; q ← py_div r (py_abs m); Ok (Finite q)
              else Ok Infinity);
  Ok (<["recovery_factor" := recovery]> metrics).

(** [sum([h.get('Weight_Percent', 0) for h in top_holdings[:n]])]; a str can
    be sliced but its characters have no [get], other objects cannot be
    sliced *)
Definition weights_sum (n : nat) (top_holdings : pyval) : result Qc :=
  match top_holdings with
  | PyList hs =>
      ws ← traverse (λ h, py_get h "Weight_Percent" (PyNum 0)) (take n hs);
      py_sum ws
  | PyStr _ => Raise AttributeError
  | _ => Raise TypeError
  end.

(** The Herfindahl block under [if sector_allocation:] *)
Definition sector_metrics (sector_allocation : pyval) (metrics : gmap string metric)
    : result (gmap string metric) :=
  vs ← py_values sector_allocation;
  total_value ← py_sum vs;
  if decide (0 < total_value) then
    squares ← traverse (λ value, x ← py_num value; q ← py_div x total_value; Ok (q ^ 2)) vs;
    Ok (<["sector_herfindahl" := Finite (foldl Qcplus 0 squares)]> metrics)
  else Ok metrics.

(** The holdings block. *)
Definition holdings_metrics (holdings : pyval) (metrics : gmap string metric)
    : result (gmap string metric) :=
  top_holdings ← py_get holdings "top_holdings" (PyList []);
  if py_truthy top_holdings then
    top_5_weights ← weights_sum 5 top_holdings;
    let metrics := <["top_5_concentration" := Finite top_5_weights]> metrics in
    top_10_weights ← weights_sum 10 top_holdings;
    let metrics := <["top_10_concentration" := Finite top_10_weights]> metrics in
    sector_allocation ← py_get holdings "sector_allocation" (PyDict ∅);
    if py_truthy sector_allocation then sector_metrics sector_allocation metrics
    else Ok metrics
  else Ok metrics.

Definition calculate_portfolio_metrics (data : gmap string pyval)
    : result (gmap string metric) :=
  metrics ← match data !! "performance_summary" with
            | Some perf => performance_metrics perf ∅
            | None => Ok ∅
            end;
  match data !! "holdings_data" with
  | Some holdings => holdings_metrics holdings metrics
  | None => Ok metrics
  end.


(** ** No division by zero *)

Definition no_zero_division {A} (r : result A) : Prop := r ≠ Raise ZeroDivisionError.

Lemma nzd_Ok {A} (a : A) : no_zero_division (Ok a).
Proof. done. Qed.

Lemma nzd_bind {A B} (m : result A) (f : A → result B) :
  no_zero_division m → (∀ a, m = Ok a → no_zero_division (f a)) →
  no_zero_division (m ≫= f).
Proof.
  destruct m as [a|e]; [intros _ Hf; by apply Hf|].
  intros He _ [= ->]. by apply He.
Qed.

Lemma nzd_traverse {A B} (f : A → result B) (l : list A) :
  (∀ x, no_zero_division (f x)) → no_zero_division (traverse f l).
Proof.
  intros Hf. induction l as [|x l IH]; simpl; [done|].
  apply nzd_bind; [apply Hf|]. intros y _. apply nzd_bind; [exact IH|done].
Qed.

Lemma nzd_py_get d key dflt : no_zero_division (py_get d key dflt).
Proof. by destruct d. Qed.

Lemma nzd_py_num v : no_zero_division (py_num v).
Proof. by destruct v. Qed.

Lemma nzd_py_values d : no_zero_division (py_values d).
Proof. by destruct d. Qed.

Lemma nzd_py_sum vs : no_zero_division (py_sum vs).
Proof.
  unfold py_sum. apply nzd_bind; [|done]. apply nzd_traverse, nzd_py_num.
Qed.

Lemma nzd_py_div a b : b ≠ 0 → no_zero_division (py_div a b).
Proof. intros Hb. unfold py_div. by rewrite decide_False. Qed.

Lemma positive_nonzero (x : Qc) : 0 < x → x ≠ 0.
Proof. intros Hx ->. by apply (irreflexivity Qclt 0). Qed.

Lemma py_abs_nonzero (x : Qc) : x < 0 → py_abs x ≠ 0.
Proof.
  intros Hx. unfold py_abs. rewrite decide_True by done. intros Hopp.
  apply (irreflexivity Qclt 0). rewrite <-(Qcopp_involutive x), Hopp in Hx. done.
Qed.

Create HintDb nzd.
#[local] Hint Resolve nzd_Ok nzd_py_get nzd_py_num nzd_py_values nzd_py_sum : nzd.

Lemma nzd_performance_metrics perf metrics :
  no_zero_division (performance_metrics perf metrics).
Proof.
  unfold performance_metrics.
  apply nzd_bind; [auto with nzd|]. intros total_return _.
  apply nzd_bind; [auto with nzd|]. intros volatility _.
  apply nzd_bind; [auto with nzd|]. intros v _.
  apply nzd_bind.
  { case_decide as Hv; [|done]. apply nzd_bind; [auto with nzd|]. intros r _.
    apply nzd_bind; [|done]. by apply nzd_py_div, positive_nonzero. }
  intros ratio _. apply nzd_bind; [auto with nzd|]. intros max_drawdown _.
  apply nzd_bind; [auto with nzd|]. intros m _.
  apply nzd_bind; [|done].
  case_decide as Hm; [|done]. apply nzd_bind; [auto with nzd|]. intros r _.
  apply nzd_bind; [|done]. by apply nzd_py_div, py_abs_nonzero.
Qed.

Lemma nzd_weights_sum n top_holdings : no_zero_division (weights_sum n top_holdings).
Proof.
  destruct top_holdings; simpl; try done.
  apply nzd_bind; [|auto with nzd]. apply nzd_traverse. auto with nzd.
Qed.

Lemma nzd_sector_metrics sector_allocation metrics :
  no_zero_division (sector_metrics sector_allocation metrics).
Proof.
  unfold sector_metrics.
  apply nzd_bind; [auto with nzd|]. intros vs _.
  apply nzd_bind; [auto with nzd|]. intros total_value _.
  case_decide as Htotal; [|done].
  apply nzd_bind; [|done]. apply nzd_traverse. intros value.
  apply nzd_bind; [auto with nzd|]. intros x _.
  apply nzd_bind; [|done]. by apply nzd_py_div, positive_nonzero.
Qed.

Lemma nzd_holdings_metrics holdings metrics :
  no_zero_division (holdings_metrics holdings metrics).
Proof.
  unfold holdings_metrics.
  apply nzd_bind; [auto with nzd|]. intros top_holdings _.
  destruct (py_truthy top_holdings); [|done].
  apply nzd_bind; [apply nzd_weights_sum|]. intros w5 _.
  apply nzd_bind; [apply nzd_weights_sum|]. intros w10 _.
  apply nzd_bind; [auto with nzd|]. intros sector_allocation _.
  destruct (py_truthy sector_allocation); [apply nzd_sector_metrics|done].
Qed.

Lemma nzd_calculate_portfolio_metrics data :
  no_zero_division (calculate_portfolio_metrics data).
Proof.
  unfold calculate_portfolio_metrics. apply nzd_bind.
  - destruct (data !! "performance_summary"); [apply nzd_performance_metrics|done].
  - intros metrics _.
    destruct (data !! "holdings_data"); [apply nzd_holdings_metrics|done].
Qed.


(** ** What the metrics are *)

Lemma py_num_Ok v x : py_num v = Ok x → v = PyNum x.
Proof. destruct v; simpl; try done. by intros [= ->]. Qed.

Lemma py_div_Ok a b q : py_div a b = Ok q → b ≠ 0 ∧ q = a / b.
Proof. unfold py_div. case_decide; [done|]. by intros [= <-]. Qed.

Lemma performance_metrics_Ok perf metrics0 metrics :
  performance_metrics perf metrics0 = Ok metrics →
  ∃ v m ratio recovery,
    py_get perf "volatility" (PyNum 0) = Ok (PyNum v)
    ∧ py_get perf "max_drawdown" (PyNum 0) = Ok (PyNum m)
    ∧ metrics = <["recovery_factor" := recovery]>
                  (<["return_volatility_ratio" := ratio]> metrics0)
    ∧ (0 < v → ∃ r, py_get perf "total_return" (PyNum 0) = Ok (PyNum r)
                 ∧ ratio = Finite (r / v))
    ∧ (¬ 0 < v → ratio = Finite 0)
    ∧ (m < 0 → ∃ r, py_get perf "total_return" (PyNum 0) = Ok (PyNum r)
                 ∧ py_abs m ≠ 0 ∧ recovery = Finite (r / py_abs m))
    ∧ (¬ m < 0 → recovery = Infinity).
Proof.
  unfold performance_metrics. intros (total_return & Htr & Hrest)%bind_Ok.
  apply bind_Ok in Hrest as (volatility & Hvol & Hrest).
  apply bind_Ok in Hrest as (v & ->%py_num_Ok & Hrest).
  apply bind_Ok in Hrest as (ratio & Hratio & Hrest).
  apply bind_Ok in Hrest as (max_drawdown & Hmd & Hrest).
  apply bind_Ok in Hrest as (m & ->%py_num_Ok & Hrest).
  apply bind_Ok in Hrest as (recovery & Hrecovery & [= <-]).
  exists v, m, ratio, recovery. split; [done|]. split; [done|]. split; [done|].
  split; [|split; [|split]].
  - intros Hv. rewrite decide_True in Hratio by done.
    apply bind_Ok in Hratio as (r & ->%py_num_Ok & Hq).
    apply bind_Ok in Hq as (q & [_ ->]%py_div_Ok & [= <-]). by exists r.
  - intros Hv. rewrite decide_False in Hratio by done. by injection Hratio as <-.
  - intros Hm. rewrite decide_True in Hrecovery by done.
    apply bind_Ok in Hrecovery as (r & ->%py_num_Ok & Hq).
    apply bind_Ok in Hq as (q & [Hne ->]%py_div_Ok & [= <-]). by exists r.
  - intros Hm. rewrite decide_False in Hrecovery by done. by injection Hrecovery as <-.
Qed.

Lemma sector_metrics_Ok sector metrics0 metrics :
  sector_metrics sector metrics0 = Ok metrics →
  (∀ k, k ≠ "sector_herfindahl"%string → metrics !! k = metrics0 !! k)
  ∧ (metrics !! "sector_herfindahl" = metrics0 !! "sector_herfindahl"
     ∨ ∃ vs total, py_values sector = Ok vs ∧ py_sum vs = Ok total ∧ 0 < total).
Proof.
  unfold sector_metrics. intros (vs & Hvs & Hrest)%bind_Ok.
  apply bind_Ok in Hrest as (total & Htotal & Hrest).
  case_decide as Hpos.
  - apply bind_Ok in Hrest as (squares & _ & [= <-]). split.
    + intros k Hk. by rewrite lookup_insert_ne.
    + right. by exists vs, total.
  - injection Hrest as <-. split; [done|by left].
Qed.

Lemma holdings_metrics_Ok holdings metrics0 metrics :
  holdings_metrics holdings metrics0 = Ok metrics →
  (∀ k, k ∉ ["top_5_concentration"; "top_10_concentration"; "sector_herfindahl"]%string →
        metrics !! k = metrics0 !! k)
  ∧ (metrics !! "sector_herfindahl" = metrics0 !! "sector_herfindahl"
     ∨ ∃ sector vs total,
         py_get holdings "sector_allocation" (PyDict ∅) = Ok sector
         ∧ py_values sector = Ok vs ∧ py_sum vs = Ok total ∧ 0 < total).
Proof.
  unfold holdings_metrics. intros (top_holdings & _ & Hrest)%bind_Ok.
  destruct (py_truthy top_holdings); [|injection Hrest as <-; by split; [|left]].
  apply bind_Ok in Hrest as (w5 & _ & Hrest).
  apply bind_Ok in Hrest as (w10 & _ & Hrest).
  apply bind_Ok in Hrest as (sector & Hsector & Hrest).
  destruct (py_truthy sector).
  - apply sector_metrics_Ok in Hrest as [Hkeep Hherf]. split.
    + intros k Hk. rewrite Hkeep by set_solver.
      rewrite !lookup_insert_ne by set_solver. done.
    + destruct Hherf as [->|(vs & total & ? & ? & ?)].
      * left. by rewrite !lookup_insert_ne.
      * right. by exists sector, vs, total.
  - injection Hrest as <-. split.
    + intros k Hk. rewrite !lookup_insert_ne by set_solver. done.
    + left. by rewrite !lookup_insert_ne.
Qed.

(** C10. [calculate_portfolio_metrics] raises ZeroDivisionError on no data
    dictionary. When it returns: with a performance summary, volatility and
    max_drawdown are numbers; return_volatility_ratio is
    total_return / volatility when volatility > 0 and 0 otherwise;
    recovery_factor is total_return / |max_drawdown| (a non-zero divisor) when
    max_drawdown < 0 and infinity otherwise; and sector_herfindahl is set only
    when the sector values sum to a positive total. *)
Theorem metrics_never_divide_by_zero data :
  calculate_portfolio_metrics data ≠ Raise ZeroDivisionError
  ∧ ∀ metrics, calculate_portfolio_metrics data = Ok metrics →
      (∀ perf, data !! "performance_summary" = Some perf →
         ∃ v m,
           py_get perf "volatility" (PyNum 0) = Ok (PyNum v)
           ∧ py_get perf "max_drawdown" (PyNum 0) = Ok (PyNum m)
           ∧ (0 < v → ∃ r, py_get perf "total_return" (PyNum 0) = Ok (PyNum r)
                 ∧ metrics !! "return_volatility_ratio" = Some (Finite (r / v)))
           ∧ (¬ 0 < v → metrics !! "return_volatility_ratio" = Some (Finite 0))
           ∧ (m < 0 → ∃ r, py_get perf "total_return" (PyNum 0) = Ok (PyNum r)
                 ∧ py_abs m ≠ 0
                 ∧ metrics !! "recovery_factor" = Some (Finite (r / py_abs m)))
           ∧ (¬ m < 0 → metrics !! "recovery_factor" = Some Infinity))
      ∧ (is_Some (metrics !! "sector_herfindahl") →
         ∃ holdings sector vs total,
           data !! "holdings_data" = Some holdings
           ∧ py_get holdings "sector_allocation" (PyDict ∅) = Ok sector
           ∧ py_values sector = Ok vs ∧ py_sum vs = Ok total ∧ 0 < total).
Proof.
  split; [apply nzd_calculate_portfolio_metrics|].
  intros metrics. unfold calculate_portfolio_metrics.
  intros (metrics1 & Hperf & Hhold)%bind_Ok.
  assert ((∀ k, k ∉ ["top_5_concentration"; "top_10_concentration";
                      "sector_herfindahl"]%string → metrics !! k = metrics1 !! k)
          ∧ (metrics !! "sector_herfindahl" = metrics1 !! "sector_herfindahl"
             ∨ ∃ holdings sector vs total,
                 data !! "holdings_data" = Some holdings
                 ∧ py_get holdings "sector_allocation" (PyDict ∅) = Ok sector
                 ∧ py_values sector = Ok vs ∧ py_sum vs = Ok total ∧ 0 < total))
    as [Hkeep Hherf].
  { destruct (data !! "holdings_data") as [holdings|] eqn:Hh.
    - apply holdings_metrics_Ok in Hhold as [Hkeep Hherf]. split; [done|].
      destruct Hherf as [->|(sector & vs & total & ?)]; [by left|].
      right. by exists holdings, sector, vs, total.
    - injection Hhold as <-. split; [done|by left]. }
  split.
  - intros perf Hp. rewrite Hp in Hperf.
    apply performance_metrics_Ok in Hperf
      as (v & m & ratio & recovery & Hv & Hm & -> & H1 & H2 & H3 & H4).
    exists v, m. split; [done|]. split; [done|].
    rewrite !Hkeep by set_solver.
    rewrite lookup_insert_ne by done. rewrite !lookup_insert_eq.
    split; [|split; [|split]].
    + intros (r & Hr & ->)%H1. by exists r.
    + by intros ->%H2.
    + intros (r & Hr & Hne & ->)%H3. by exists r.
    + by intros ->%H4.
  - intros Hsome. destruct Hherf as [Heq|Hex]; [|done].
    rewrite Heq in Hsome. exfalso.
    destruct (data !! "performance_summary") as [perf|].
    + apply performance_metrics_Ok in Hperf as (v & m & ratio & recovery & _ & _ & -> & _).
      rewrite !lookup_insert_ne, lookup_empty in Hsome by done.
      by destruct Hsome.
    + injection Hperf as <-. rewrite lookup_empty in Hsome. by destruct Hsome.
Qed.


(** A summary with zero volatility and no drawdown: neither quotient is
    computed. *)
Definition flat_summary : gmap string pyval :=
  {[ "performance_summary"%string :=
       PyDict {[ "total_return"%string := PyNum (Qc_of_Z 4);
                 "volatility"%string := PyNum 0;
                 "max_drawdown"%string := PyNum 0 ]} ]}.

(** The metrics of a dictionary the function returns on. *)
Definition metrics_of (data : gmap string pyval) : gmap string metric :=
  match calculate_portfolio_metrics data with
  | Ok metrics => metrics
  | Raise _ => ∅
  end.

Example flat_summary_metrics :
  succeeds (calculate_portfolio_metrics flat_summary) = true
  ∧ metrics_of flat_summary !! "return_volatility_ratio" = Some (Finite 0)
  ∧ metrics_of flat_summary !! "recovery_factor" = Some Infinity
  ∧ metrics_of flat_summary !! "sector_herfindahl" = None.
Proof. repeat split; vm_compute; reflexivity. Qed.

(** Sector values that sum to zero: no Herfindahl index is computed. *)
Definition zero_sectors : gmap string pyval :=
  {[ "holdings_data"%string :=
       PyDict {[ "top_holdings"%string :=
                   PyList [PyDict {[ "Weight_Percent"%string := PyNum (Qc_of_Z 3) ]}];
                 "sector_allocation"%string :=
                   PyDict {[ "Tech"%string := PyNum 0 ]} ]} ]}.

Example zero_sectors_metrics :
  succeeds (calculate_portfolio_metrics zero_sectors) = true
  ∧ metrics_of zero_sectors !! "sector_herfindahl" = None
  ∧ this <$> (match metrics_of zero_sectors !! "top_5_concentration" with
              | Some (Finite x) => Some x
              | _ => None
              end) = Some (inject_Z 3).
Proof. repeat split; vm_compute; reflexivity. Qed.


(** ** The Herfindahl index *)

Lemma foldl_Qcplus (a : Qc) (l : list Qc) : foldl Qcplus a l = a + foldl Qcplus 0 l.
Proof.
  revert a. induction l as [|x l IH]; intros a; simpl; [ring|].
  rewrite (IH (a + x)), (IH (0 + x)). ring.
Qed.

Lemma sum_cons (x : Qc) (l : list Qc) :
  foldl Qcplus 0 (x :: l) = x + foldl Qcplus 0 l.
Proof. simpl. rewrite foldl_Qcplus. ring. Qed.

Lemma sum_nonneg (l : list Qc) : Forall (λ x, 0 ≤ x) l → 0 ≤ foldl Qcplus 0 l.
Proof.
  induction 1 as [|x l Hx _ IH]; [done|].
  rewrite sum_cons. by apply Qcplus_nonneg_nonneg.
Qed.

Lemma elem_le_sum (l : list Qc) (x : Qc) :
  Forall (λ x, 0 ≤ x) l → x ∈ l → x ≤ foldl Qcplus 0 l.
Proof.
  induction 1 as [|y l Hy Hl IH]; [by intros ?%elem_of_nil|].
  rewrite sum_cons. intros [->|Hx%IH]%elem_of_cons.
  - rewrite <-(Qcplus_0_r y) at 1. apply Qcplus_le_compat; [done|by apply sum_nonneg].
  - rewrite <-(Qcplus_0_l x). by apply Qcplus_le_compat.
Qed.

Lemma sum_pos_elem (l : list Qc) : 0 < foldl Qcplus 0 l → ∃ x, x ∈ l ∧ 0 < x.
Proof.
  induction l as [|y l IH]; [done|]. rewrite sum_cons. intros Hsum.
  destruct (Qclt_le_dec 0 y) as [Hy|Hy]; [exists y; split; [by left|done]|].
  destruct (Qclt_le_dec 0 (foldl Qcplus 0 l)) as [Hl|Hl].
  - destruct (IH Hl) as (x & Hx & Hpos). exists x. split; [by right|done].
  - destruct (Qcle_not_lt _ _ (Qcplus_nonpos_nonpos _ _ Hy Hl) Hsum).
Qed.

Lemma share_square (x T : Qc) : T ≠ 0 → (x / T) ^ 2 * T = x / T * x.
Proof. intros HT. simpl. field. done. Qed.

Lemma share_le_1 (x T : Qc) : 0 < T → x ≤ T → x / T ≤ 1.
Proof.
  intros HT Hx. rewrite <-(Qcmult_inv_r T) by (by apply positive_nonzero).
  apply Qcmult_le_compat_r; [done|]. by apply Qclt_le_weak, Qcinv_pos.
Qed.

Lemma share_nonneg (x T : Qc) : 0 < T → 0 ≤ x → 0 ≤ x / T.
Proof.
  intros HT Hx. apply Qcmult_nonneg_nonneg; [done|]. by apply Qclt_le_weak, Qcinv_pos.
Qed.

Lemma sum_squares_le (T : Qc) (xs : list Qc) :
  0 < T → Forall (λ x, 0 ≤ x ∧ x ≤ T) xs →
  foldl Qcplus 0 ((λ x, (x / T) ^ 2) <$> xs) * T ≤ foldl Qcplus 0 xs.
Proof.
  intros HT. induction 1 as [|x xs [Hx HxT] _ IH]; [simpl; by rewrite Qcmult_0_l|].
  rewrite fmap_cons, !sum_cons, Qcmult_plus_distr_l.
  apply Qcplus_le_compat; [|done].
  rewrite share_square by (by apply positive_nonzero).
  apply (Qcle_trans _ (1 * x)); [|by rewrite Qcmult_1_l].
  apply Qcmult_le_compat_r; [|done]. by apply share_le_1.
Qed.

(** The squares the Herfindahl index sums are those of the shares. *)
Lemma squares_of_shares (T : Qc) (vs : list pyval) (xs squares : list Qc) :
  traverse py_num vs = Ok xs →
  traverse (λ value, x ← py_num value; q ← py_div x T; Ok (q ^ 2)) vs = Ok squares →
  squares = (λ x, (x / T) ^ 2) <$> xs.
Proof.
  revert xs squares. induction vs as [|v vs IH]; intros xs squares; simpl.
  - by intros [= <-] [= <-].
  - intros (x & ->%py_num_Ok & Hxs)%bind_Ok.
    apply bind_Ok in Hxs as (xs' & Hxs' & [= <-]).
    intros (s & Hs & Hss)%bind_Ok. apply bind_Ok in Hss as (ss & Hss & [= <-]).
    simpl in Hs. apply bind_Ok in Hs as (q & [_ ->]%py_div_Ok & [= <-]).
    rewrite fmap_cons. f_equal. by apply IH.
Qed.

Lemma performance_has_no_herfindahl (data : gmap string pyval) metrics1 :
  match data !! "performance_summary" with
  | Some perf => performance_metrics perf ∅
  | None => Ok ∅
  end = Ok metrics1 →
  metrics1 !! "sector_herfindahl" = None.
Proof.
  destruct (data !! "performance_summary") as [perf|].
  - intros (v & m & ratio & recovery & _ & _ & -> & _)%performance_metrics_Ok.
    by rewrite !lookup_insert_ne, lookup_empty.
  - by intros [= <-].
Qed.

(** With exact arithmetic: when the metrics are returned with a
    [sector_herfindahl] and no sector value is negative, the index lies
    between 0 (excluded) and 1 (included). *)
Lemma herfindahl_of_shares data holdings sectors metrics h :
  calculate_portfolio_metrics data = Ok metrics →
  data !! "holdings_data" = Some (PyDict holdings) →
  holdings !! "sector_allocation" = Some (PyDict sectors) →
  (∀ k v, sectors !! k = Some v → ∃ x, v = PyNum x ∧ 0 ≤ x) →
  metrics !! "sector_herfindahl" = Some (Finite h) →
  0 < h ∧ h ≤ 1.
Proof.
  intros Hcalc Hdata Hsectors Hvalues Hh.
  unfold calculate_portfolio_metrics in Hcalc.
  apply bind_Ok in Hcalc as (metrics1 & Hnone%performance_has_no_herfindahl & Hhold).
  rewrite Hdata in Hhold. unfold holdings_metrics in Hhold.
  cbn [py_get mbind result_bind] in Hhold.
  destruct (py_truthy (default (PyList []) (holdings !! "top_holdings")));
    [|injection Hhold as <-; congruence].
  apply bind_Ok in Hhold as (w5 & _ & Hhold).
  apply bind_Ok in Hhold as (w10 & _ & Hhold).
  cbn [py_get mbind result_bind] in Hhold. rewrite Hsectors in Hhold.
  cbn [default from_option id py_truthy] in Hhold.
  destruct (bool_decide (sectors ≠ ∅)).
  2: { injection Hhold as <-. rewrite !lookup_insert_ne in Hh by done. congruence. }
  unfold sector_metrics in Hhold. simpl in Hhold.
  apply bind_Ok in Hhold as (T & HT & Hhold).
  destruct (decide (0 < T)) as [Hpos|Hneg].
  2: { injection Hhold as <-. rewrite !lookup_insert_ne in Hh by done. congruence. }
  apply bind_Ok in Hhold as (squares & Hsquares & [= <-]).
  rewrite lookup_insert_eq in Hh. injection Hh as <-.
  unfold py_sum in HT. apply bind_Ok in HT as (xs & Hxs & [= HT]).
  rewrite (squares_of_shares _ _ _ _ Hxs Hsquares).
  assert (Forall (λ x, 0 ≤ x) xs) as Hnonneg.
  { apply traverse_Forall2 in Hxs. clear -Hxs Hvalues.
    assert (Forall (λ v, ∃ x, v = PyNum x ∧ 0 ≤ x) (map_to_list sectors).*2) as Hvs.
    { apply Forall_fmap, Forall_forall. intros [k v] Hkv%elem_of_map_to_list.
      by eapply Hvalues. }
    induction Hxs as [|v x vs xs Hv _ IH]; [constructor|].
    apply Forall_cons in Hvs as [(x' & -> & Hx') Hvs].
    injection Hv as <-. constructor; [done|by apply IH]. }
  assert (Forall (λ x, 0 ≤ x ∧ x ≤ T) xs) as Hbounded.
  { apply Forall_forall. intros x Hx. rewrite Forall_forall in Hnonneg.
    split; [by apply Hnonneg|]. rewrite <-HT. apply elem_le_sum; [|done].
    by apply Forall_forall. }
  split.
  - rewrite <-HT in Hpos. destruct (sum_pos_elem xs Hpos) as (x & Hx & Hxpos).
    rewrite HT in Hpos.
    eapply Qclt_le_trans; [|apply (elem_le_sum _ ((x / T) ^ 2))].
    + simpl. rewrite Qcmult_1_r.
      assert (0 < x / T) by (apply Qcmult_pos_pos; [done|by apply Qcinv_pos]).
      by apply Qcmult_pos_pos.
    + apply Forall_fmap, Forall_forall. intros y Hy. apply Qcpower_pos.
      rewrite Forall_forall in Hnonneg. apply share_nonneg; [done|by apply Hnonneg].
    + apply list_elem_of_fmap. by exists x.
  - apply (Qcmult_lt_0_le_reg_r _ _ T Hpos). rewrite Qcmult_1_l.
    eapply Qcle_trans; [by apply sum_squares_le|]. rewrite HT. apply Qcle_refl.
Qed.


(** X22. When the metrics are returned with a [sector_herfindahl] and the
    sector values are whole numbers, none negative, that add up to less than
    2^53 (so that their sum is exact and finite), the index lies between 0
    (excluded) and 1 (included). *)
Theorem herfindahl_between_0_and_1 data holdings sectors (ns : list Z) metrics h :
  calculate_portfolio_metrics data = Ok metrics →
  data !! "holdings_data" = Some (PyDict holdings) →
  holdings !! "sector_allocation" = Some (PyDict sectors) →
  (map_to_list sectors).*2 = (λ n, PyNum (Qc_of_Z n)) <$> ns →
  Forall (λ n, (0 ≤ n)%Z) ns →
  (foldr Z.add 0%Z ns < 2 ^ 53)%Z →
  metrics !! "sector_herfindahl" = Some (Finite h) →
  0 < h ∧ h ≤ 1.
Proof.
  intros Hcalc Hdata Hsectors Hns Hnonneg _ Hh.
  apply (herfindahl_of_shares data holdings sectors metrics h); try done.
  intros k v Hkv%elem_of_map_to_list.
  assert (v ∈ (map_to_list sectors).*2) as Hv.
  { apply list_elem_of_fmap. by exists (k, v). }
  rewrite Hns in Hv. apply list_elem_of_fmap in Hv as (n & -> & Hn).
  exists (Qc_of_Z n). split; [done|].
  rewrite Forall_forall in Hnonneg. rewrite <-Z2Qc_inj_0.
  apply (proj1 (Z2Qc_inj_le 0 n)). by apply Hnonneg.
Qed.


(** Two sectors, three quarters and one quarter of the total. *)
Definition sector_values : gmap string pyval :=
  {[ "Technology"%string := PyNum (Qc_of_Z 3); "Energy"%string := PyNum (Qc_of_Z 1) ]}.

Definition two_sector_holdings : gmap string pyval :=
  {[ "top_holdings"%string :=
       PyList [PyDict {[ "Weight_Percent"%string := PyNum (Qc_of_Z 3) ]}];
     "sector_allocation"%string := PyDict sector_values ]}.

Definition two_sectors : gmap string pyval :=
  {[ "holdings_data"%string := PyDict two_sector_holdings ]}.

Definition herfindahl_of (data : gmap string pyval) : Qc :=
  match metrics_of data !! "sector_herfindahl" with
  | Some (Finite h) => h
  | _ => 0
  end.

Lemma metrics_of_Ok data :
  succeeds (calculate_portfolio_metrics data) = true →
  calculate_portfolio_metrics data = Ok (metrics_of data).
Proof. unfold metrics_of. by destruct (calculate_portfolio_metrics data). Qed.

Lemma herfindahl_between_0_and_1_witness :
  0 < herfindahl_of two_sectors ∧ herfindahl_of two_sectors ≤ 1.
Proof.
  apply (herfindahl_between_0_and_1 two_sectors two_sector_holdings sector_values
           [1; 3]%Z (metrics_of two_sectors)).
  - apply metrics_of_Ok. vm_compute. reflexivity.
  - vm_compute. reflexivity.
  - vm_compute. reflexivity.
  - vm_compute. reflexivity.
  - repeat constructor; discriminate.
  - vm_compute. reflexivity.
  - vm_compute. reflexivity.
Defined.


(** * frontend/utils.py: formatting and [generate_alerts] *)

(** One alert dict. *)
Record Alert := {
  alert_type : string;
  title : string;
  message : string;
}.

(** The default of [currency], as the source file spells it. *)
Definition default_currency : string := "â‚¹".

(** A decimal constant of the source: [n / d]. *)
Definition decimal (n d : Z) : Qc := Qc_of_Z n / Qc_of_Z d.

Section alerts.
Context `{PyRuntime}.

(** [format_percentage(value)] with two decimals; [pd.isna] holds of None
    and of no number of the model. *)
Definition format_percentage (value : pyval) : result string :=
  match value with
  | PyNone => Ok "N/A"%string
  | PyNum x => s ← vector_store.fmt (PyNum (x * Qc_of_Z 100)) ".2f"; Ok (s +:+ "%")
  | _ => Raise TypeError
  end.

(** [f"{currency}{amount / scale:.2f}{suffix}"] *)
Definition scaled (x scale : Qc) (suffix : string) : result string :=
  s ← vector_store.fmt (PyNum (x / scale)) ".2f";
  Ok (default_currency +:+ s +:+ suffix).

(** [format_currency(amount)] with the default currency *)
Definition format_currency (amount : pyval) : result string :=
  match amount with
  | PyNone => Ok (default_currency +:+ "0")
  | PyNum x =>
      if decide (x = 0) then Ok (default_currency +:+ "0")
      else
        let abs_amount := py_abs x in
        if decide (Qc_of_Z (10 ^ 12) ≤ abs_amount) then scaled x (Qc_of_Z (10 ^ 12)) "T"
        else if decide (Qc_of_Z (10 ^ 9) ≤ abs_amount) then scaled x (Qc_of_Z (10 ^ 9)) "B"
        else if decide (Qc_of_Z (10 ^ 6) ≤ abs_amount) then scaled x (Qc_of_Z (10 ^ 6)) "M"
        else if decide (Qc_of_Z (10 ^ 3) ≤ abs_amount) then scaled x (Qc_of_Z (10 ^ 3)) "K"
        else s ← vector_store.fmt (PyNum x) ",.2f"; Ok (default_currency +:+ s)
  | _ => Raise TypeError
  end.

(** One [if condition: alerts.append({...})], the message made only when
    the condition holds. *)
Definition alert_if (condition : bool) (type title : string) (message : result string)
    : result (list Alert) :=
  if condition then
    m ← message; Ok [{| alert_type := type; title := title; message := m |}]
  else Ok [].

Definition performance_alerts (perf : pyval) : result (list Alert) :=
  total_return ← py_get perf "total_return" (PyNum 0);
  r ← py_num total_return;
  a1 ← alert_if (bool_decide (r < decimal (-5) 100)) "warning" "Poor Performance"
          (p ← format_percentage total_return;
           Ok ("Portfolio showing negative return of " +:+ p));
  sharpe_ratio ← py_get perf "sharpe_ratio" (PyNum 0);
  s ← py_num sharpe_ratio;
  a2 ← alert_if (bool_decide (s < decimal 5 10)) "warning" "Low Risk-Adjusted Returns"
          (f ← vector_store.fmt sharpe_ratio ".2f";
           Ok ("Sharpe ratio of " +:+ f
               +:+ " indicates poor risk-adjusted performance"));
  Ok (a1 ++ a2).

Definition risk_alerts (risk : pyval) : result (list Alert) :=
  concentration_risk ← py_get risk "concentration_risk" (PyNum 0);
  c ← py_num concentration_risk;
  a1 ← alert_if (bool_decide (decimal 4 10 < c)) "error" "High Concentration Risk"
          (f ← vector_store.fmt concentration_risk ".1%";
           Ok ("Concentration risk of " +:+ f +:+ " exceeds recommended levels"));
  var_95 ← py_get risk "var_95" (PyNum 0);
  v ← py_num var_95;
  a2 ← alert_if (bool_decide (v < Qc_of_Z (-50000000))) "warning" "High Value at Risk"
          (f ← format_currency var_95;
           Ok ("VaR (95%) of " +:+ f +:+ " indicates high potential losses"));
  Ok (a1 ++ a2).

Definition holdings_alerts (holdings : pyval) : result (list Alert) :=
  total_holdings ← py_get holdings "total_holdings" (PyNum 0);
  n ← py_num total_holdings;
  alert_if (bool_decide (n < Qc_of_Z 10)) "info" "Limited Diversification"
    (Ok ("Only " +:+ py_str total_holdings
         +:+ " holdings may limit diversification benefits")).

Definition generate_alerts (data : gmap string pyval) : result (list Alert) :=
  a1 ← from_option performance_alerts (Ok []) (data !! "performance_summary");
  a2 ← from_option risk_alerts (Ok []) (data !! "risk_summary");
  a3 ← from_option holdings_alerts (Ok []) (data !! "holdings_data");
  Ok (a1 ++ a2 ++ a3).

(** ** Which alerts there can be *)

Definition kind (a : Alert) : string * string := (alert_type a, title a).

Lemma alert_if_Ok condition type title message alerts :
  alert_if condition type title message = Ok alerts →
  kind <$> alerts = (if condition then [(type, title)] else []).
Proof.
  unfold alert_if. destruct condition; [|by intros [= <-]].
  by intros (m & _ & [= <-])%bind_Ok.
Qed.

Lemma sublist_if {A} (condition : bool) (x : A) :
  (if condition then [x] else []) `sublist_of` [x].
Proof. destruct condition; [done|]. apply sublist_nil_l. Qed.

Lemma performance_alerts_Ok perf alerts :
  performance_alerts perf = Ok alerts →
  ∃ r s,
    py_get perf "total_return" (PyNum 0) = Ok (PyNum r)
    ∧ py_get perf "sharpe_ratio" (PyNum 0) = Ok (PyNum s)
    ∧ kind <$> alerts
      = (if bool_decide (r < decimal (-5) 100)
         then [("warning", "Poor Performance")] else [])
        ++ (if bool_decide (s < decimal 5 10)
            then [("warning", "Low Risk-Adjusted Returns")] else []).
Proof.
  unfold performance_alerts. intros (total_return & Htr & Hrest)%bind_Ok.
  apply bind_Ok in Hrest as (r & ->%py_num_Ok & Hrest).
  apply bind_Ok in Hrest as (a1 & H1%alert_if_Ok & Hrest).
  apply bind_Ok in Hrest as (sharpe_ratio & Hsr & Hrest).
  apply bind_Ok in Hrest as (s & ->%py_num_Ok & Hrest).
  apply bind_Ok in Hrest as (a2 & H2%alert_if_Ok & [= <-]).
  exists r, s. by rewrite fmap_app, H1, H2.
Qed.

Lemma risk_alerts_Ok risk alerts :
  risk_alerts risk = Ok alerts →
  ∃ c v,
    py_get risk "concentration_risk" (PyNum 0) = Ok (PyNum c)
    ∧ py_get risk "var_95" (PyNum 0) = Ok (PyNum v)
    ∧ kind <$> alerts
      = (if bool_decide (decimal 4 10 < c)
         then [("error", "High Concentration Risk")] else [])
        ++ (if bool_decide (v < Qc_of_Z (-50000000))
            then [("warning", "High Value at Risk")] else []).
Proof.
  unfold risk_alerts. intros (concentration_risk & Hc & Hrest)%bind_Ok.
  apply bind_Ok in Hrest as (c & ->%py_num_Ok & Hrest).
  apply bind_Ok in Hrest as (a1 & H1%alert_if_Ok & Hrest).
  apply bind_Ok in Hrest as (var_95 & Hv & Hrest).
  apply bind_Ok in Hrest as (v & ->%py_num_Ok & Hrest).
  apply bind_Ok in Hrest as (a2 & H2%alert_if_Ok & [= <-]).
  exists c, v. by rewrite fmap_app, H1, H2.
Qed.

Lemma holdings_alerts_Ok holdings alerts :
  holdings_alerts holdings = Ok alerts →
  ∃ n,
    py_get holdings "total_holdings" (PyNum 0) = Ok (PyNum n)
    ∧ kind <$> alerts
      = (if bool_decide (n < Qc_of_Z 10)
         then [("info", "Limited Diversification")] else []).
Proof.
  unfold holdings_alerts. intros (total_holdings & Hn & Hrest)%bind_Ok.
  apply bind_Ok in Hrest as (n & ->%py_num_Ok & H1%alert_if_Ok).
  by exists n.
Qed.

(** X23. When [generate_alerts] returns, its alerts are some of the five
    it knows, each at most once and in this order: Poor Performance, Low
    Risk-Adjusted Returns, High Concentration Risk, High Value at Risk,
    Limited Diversification, each with its fixed type. A value that is
    missing counts as 0: a performance summary without a sharpe_ratio raises
    Low Risk-Adjusted Returns, and holdings data without total_holdings
    raise Limited Diversification. *)
Theorem alerts_in_fixed_order data alerts :
  generate_alerts data = Ok alerts →
  kind <$> alerts
    `sublist_of` [("warning", "Poor Performance");
                  ("warning", "Low Risk-Adjusted Returns");
                  ("error", "High Concentration Risk");
                  ("warning", "High Value at Risk");
                  ("info", "Limited Diversification")]%string
  ∧ (∀ perf, data !! "performance_summary" = Some (PyDict perf) →
       perf !! "sharpe_ratio" = None →
       ("warning", "Low Risk-Adjusted Returns")%string ∈ kind <$> alerts)
  ∧ (∀ holdings, data !! "holdings_data" = Some (PyDict holdings) →
       holdings !! "total_holdings" = None →
       ("info", "Limited Diversification")%string ∈ kind <$> alerts).
Proof.
  unfold generate_alerts. intros (a1 & H1 & Hrest)%bind_Ok.
  apply bind_Ok in Hrest as (a2 & H2 & Hrest).
  apply bind_Ok in Hrest as (a3 & H3 & [= <-]).
  rewrite !fmap_app. split; [|split].
  - apply (sublist_app _ [_; _] _ [_; _; _]); [|apply (sublist_app _ [_; _] _ [_])].
    + destruct (data !! "performance_summary") as [perf|]; simpl in H1.
      * apply performance_alerts_Ok in H1 as (r & s & _ & _ & ->).
        apply (sublist_app _ [_] _ [_]); apply sublist_if.
      * injection H1 as <-. apply sublist_nil_l.
    + destruct (data !! "risk_summary") as [risk|]; simpl in H2.
      * apply risk_alerts_Ok in H2 as (c & v & _ & _ & ->).
        apply (sublist_app _ [_] _ [_]); apply sublist_if.
      * injection H2 as <-. apply sublist_nil_l.
    + destruct (data !! "holdings_data") as [holdings|]; simpl in H3.
      * apply holdings_alerts_Ok in H3 as (n & _ & ->). apply sublist_if.
      * injection H3 as <-. apply sublist_nil_l.
  - intros perf Hperf Hnone. rewrite Hperf in H1. simpl in H1.
    apply performance_alerts_Ok in H1 as (r & s & _ & Hs & ->).
    simpl in Hs. rewrite Hnone in Hs. injection Hs as <-.
    apply elem_of_app. left. apply elem_of_app. right.
    rewrite bool_decide_eq_true_2 by done. by left.
  - intros holdings Hholdings Hnone. rewrite Hholdings in H3. simpl in H3.
    apply holdings_alerts_Ok in H3 as (n & Hn & ->).
    simpl in Hn. rewrite Hnone in Hn. injection Hn as <-.
    apply elem_of_app. right. apply elem_of_app. right.
    rewrite bool_decide_eq_true_2 by done. by left.
Qed.

End alerts.

(** A data dictionary whose sections are all empty. *)
Definition empty_sections : gmap string pyval :=
  {[ "performance_summary"%string := PyDict ∅; "holdings_data"%string := PyDict ∅ ]}.

Definition alerts_of (data : gmap string pyval) : list Alert :=
  match @generate_alerts example_runtime data with
  | Ok alerts => alerts
  | Raise _ => []
  end.

Lemma alerts_of_Ok data :
  succeeds (@generate_alerts example_runtime data) = true →
  @generate_alerts example_runtime data = Ok (alerts_of data).
Proof. unfold alerts_of. by destruct (@generate_alerts example_runtime data). Qed.

Lemma alerts_in_fixed_order_witness :
  ("warning", "Low Risk-Adjusted Returns")%string ∈ kind <$> alerts_of empty_sections.
Proof.
  destruct (@alerts_in_fixed_order example_runtime empty_sections
              (alerts_of empty_sections)) as (_ & Hlow & _).
  - apply alerts_of_Ok. vm_compute. reflexivity.
  - apply (Hlow ∅); [vm_compute; reflexivity|apply lookup_empty].
Defined.


(** * frontend/utils.py: [initialize_session_state]

    [st.session_state] is a map from names to values; besides the values
    of [pyval] it holds booleans. *)

Inductive session_value :=
| SessionBool (b : bool)
| SessionValue (v : pyval).

(** The twelve [if name not in st.session_state] blocks, in their order. *)
Definition session_defaults : list (string * session_value) :=
  [("data_loaded", SessionBool false);
   ("raw_data", SessionValue (PyDict ∅));
   ("portfolio_summary", SessionValue (PyDict ∅));
   ("holdings_data", SessionValue (PyDict ∅));
   ("performance_data", SessionValue (PyDict ∅));
   ("risk_data", SessionValue (PyDict ∅));
   ("ai_analysis", SessionValue (PyDict ∅));
   ("ai_recommendations", SessionValue (PyList []));
   ("chat_messages", SessionValue (PyList []));
   ("last_processed_file", SessionValue PyNone);
   ("ai_analysis_done", SessionBool false);
   ("gemini_api_key", SessionValue (PyStr ""))]%string.

(** [if name not in st.session_state: st.session_state.name = value] *)
Definition set_default (state : gmap string session_value)
    (entry : string * session_value) : gmap string session_value :=
  match state !! entry.1 with
  | Some _ => state
  | None => <[entry.1 := entry.2]> state
  end.

Definition initialize_session_state (state : gmap string session_value)
    : gmap string session_value :=
  foldl set_default state session_defaults.

Lemma set_defaults_union (entries : list (string * session_value))
    (state : gmap string session_value) :
  NoDup entries.*1 →
  foldl set_default state entries = state ∪ list_to_map entries.
Proof.
  revert state. induction entries as [|[k v] entries IH]; intros state Hnodup.
  - simpl. by rewrite (right_id_L ∅ (∪)).
  - apply NoDup_cons in Hnodup as [Hk Hnodup]. simpl. rewrite IH by done.
    simpl in Hk.
    assert ((list_to_map entries : gmap string session_value) !! k = None) as Hk'
      by (by apply not_elem_of_list_to_map_1).
    unfold set_default. simpl. destruct (state !! k) as [v'|] eqn:Hstate.
    + apply map_eq. intros j. rewrite !lookup_union.
      destruct (decide (k = j)) as [<-|Hne].
      * by rewrite Hstate, Hk', lookup_insert_eq.
      * by rewrite lookup_insert_ne.
    + by rewrite <-insert_union_l, insert_union_r.
Qed.

Lemma session_defaults_NoDup : NoDup session_defaults.*1.
Proof. apply (bool_decide_unpack _). by vm_compute. Qed.

(** X24. [initialize_session_state] never overwrites: every entry the
    session state has is kept as it is. Each of the twelve names that is
    missing gets its default, no other name is added, and running the
    function a second time changes nothing. *)
Theorem session_state_is_kept state :
  (∀ name value, state !! name = Some value →
     initialize_session_state state !! name = Some value)
  ∧ (∀ name value, (name, value) ∈ session_defaults → state !! name = None →
       initialize_session_state state !! name = Some value)
  ∧ dom (initialize_session_state state)
    = dom state ∪ list_to_set session_defaults.*1
  ∧ initialize_session_state (initialize_session_state state)
    = initialize_session_state state.
Proof.
  unfold initialize_session_state.
  rewrite !set_defaults_union by apply session_defaults_NoDup.
  split; [|split; [|split]].
  - intros name value Hname. by apply lookup_union_Some_l.
  - intros name value Hin Hnone. rewrite lookup_union_r by done.
    by apply elem_of_list_to_map_1; first apply session_defaults_NoDup.
  - by rewrite dom_union_L, dom_list_to_map_L.
  - rewrite <-(assoc_L (∪)). by rewrite (idemp_L (∪)).
Qed.

End utils.
